(** * Webhook / notification dispatch core: a shallow embedding

    The serverless handlers of the repository ([api/slack-commands.js],
    [api/slack-actions.js], [api/slack-claude.js], [api/report-error.js],
    the notifier bundled after [slack-actions.js] and the feedback endpoint
    bundled after [slack-commands.js]) and the error logger of the page
    ([scripts/error-logger.js]) are embedded as Rocq functions and their
    specification is checked against them.

    Conventions of the embedding.
    - A JavaScript string is a Rocq [string]; one [ascii] stands for one
      code unit, so the model covers strings whose code units are below 256.
      Non-ASCII literals of the source are kept as their UTF-8 bytes.
    - A JavaScript number that is used as an index, a length or a clock
      reading is an integer [Z] ([-1] is the "not found" index).
    - An exception is a value of [result]: [Ok v] for a normal completion,
      [Throw e] for an abrupt one.
    - Primitives that are not code of the repository (HMAC-SHA256,
      [JSON.stringify], [JSON.parse]) are the fields of the class
      [Runtime], the services reached through [fetch] those of the class
      [World], and the wall clock is an argument. The theorems hold for
      every runtime and every world; the module [Sample] has one of each
      to evaluate the embedding with. *)

From Stdlib Require Import ZArith String Ascii List Lia Bool DecimalString.
From stdpp Require Import gmap strings list.

Open Scope Z_scope.
Set Warnings "-register-all".

(* ================================================================== *)
(** * Part I. The embedding                                            *)
(* ================================================================== *)

(** ** Abrupt completions *)

Inductive JSError : Type :=
| TypeError
| RangeError
| SyntaxError
| GenericError (message : string).    (* throw new Error(message) *)

Inductive result (A : Type) : Type :=
| Ok (a : A)
| Throw (e : JSError).

Arguments Ok {A} a.
Arguments Throw {A} e.

#[global] Instance result_ret : MRet result := fun A a => Ok a.

#[global] Instance result_bind : MBind result := fun A B k r =>
  match r with
  | Ok a => k a
  | Throw e => Throw e
  end.

(** ** Strings of the runtime *)

Module JSString.

Definition nl : string := String "010"%char EmptyString.

(** [s.length] *)
Definition length (s : string) : Z := Z.of_nat (String.length s).

Fixpoint take (n : nat) (s : string) : string :=
  match n, s with
  | S n', String c s' => String c (take n' s')
  | _, _ => EmptyString
  end.

Fixpoint drop (n : nat) (s : string) : string :=
  match n, s with
  | S n', String _ s' => drop n' s'
  | _, _ => s
  end.

(** [s.substring(start, end)]: both indices are clamped to [0, s.length]
    and swapped when [start > end]. *)
Definition substring (s : string) (start end_ : Z) : string :=
  let len := length s in
  let a := Z.min (Z.max start 0) len in
  let b := Z.min (Z.max end_ 0) len in
  let from := Z.min a b in
  let to := Z.max a b in
  take (Z.to_nat (to - from)) (drop (Z.to_nat from) s).

(** [s.substring(start)] *)
Definition substring_from (s : string) (start : Z) : string :=
  substring s start (length s).

(** The descending scan of [lastIndexOf]: the greatest [i <= k] at which
    [search] occurs in [s], or [-1]. *)
Fixpoint lastIndexOf_down (s search : string) (k : nat) : Z :=
  if String.prefix search (drop k s) then Z.of_nat k
  else match k with
       | O => -1
       | S k' => lastIndexOf_down s search k'
       end.

(** [search] occurs in [s] at index [i]. *)
Definition occurs_at (s search : string) (i : nat) : Prop :=
  String.prefix search (drop i s) = true.

(** [s.lastIndexOf(search, position)]: the start of the scan is
    [position] clamped to [0, s.length - search.length]. *)
Definition lastIndexOf (s search : string) (position : Z) : Z :=
  let len := length s in
  let searchLen := length search in
  if len <? searchLen then -1
  else lastIndexOf_down s search
         (Z.to_nat (Z.min (Z.max position 0) (len - searchLen))).

(** [chunks.join('')] *)
Fixpoint concat (l : list string) : string :=
  match l with
  | [] => EmptyString
  | s :: l' => s +:+ concat l'
  end.

(** A string of [n] copies of [c], used to build sample inputs. *)
Fixpoint replicate (n : nat) (c : ascii) : string :=
  match n with
  | O => EmptyString
  | S n' => String c (replicate n' c)
  end.

End JSString.

(** ** Values and effects *)

(** The values that reach the handlers: what [JSON.parse] or the form
    parser of the platform can produce, and [undefined] for an absent
    field. Numbers are integers below 10^21 in absolute value, which print
    in plain decimal. An object is the list of its own properties in
    property order. *)
Inductive JSValue : Type :=
| JUndefined
| JNull
| JBool (b : bool)
| JNum (n : Z)
| JStr (s : string)
| JArr (items : list JSValue)
| JObj (props : list (string * JSValue)).

(** What a handler does to the outside world, in program order. *)
Inductive Effect : Type :=
| SetHeader (name value : string)            (* res.setHeader(name, value) *)
| Respond (status : Z) (body : JSValue)      (* res.status(..).json(..) / .end() *)
| Fetch (url : string) (body : JSValue)      (* await fetch(url, {method: 'POST', body}) *)
| ConsoleError (what : string).              (* console.error(..) *)

(** What [fetch] resolves to. *)
Record Response : Type := {
  resp_ok : bool;            (* response.ok *)
  resp_status : Z;           (* response.status *)
  resp_json : JSValue;       (* await response.json() *)
  resp_text : string;        (* await response.text() *)
}.

(** The request object of the platform and [process.env]. *)
Record Request : Type := {
  req_method : string;
  req_headers : gmap string string;
  req_body : JSValue;
}.

Abbreviation Env := (gmap string string).

(** The services behind [fetch]: the answer to a request may depend on
    everything the handler has done before; [Throw] is a rejected
    promise. *)
Class World : Type := {
  fetch_response : list Effect -> string -> JSValue -> result Response;
}.

(** A handler's computation: it extends the trace of effects so far and
    completes normally or abruptly. *)
Record Eff (A : Type) : Type := MkEff {
  run_eff : list Effect -> list Effect * result A;
}.

Arguments MkEff {A} _.
Arguments run_eff {A} _ _.

#[global] Instance Eff_ret : MRet Eff := fun A a => MkEff (fun t => (t, Ok a)).

#[global] Instance Eff_bind : MBind Eff := fun A B k m =>
  MkEff (fun t =>
    match run_eff m t with
    | (t', Ok a) => run_eff (k a) t'
    | (t', Throw e) => (t', Throw e)
    end).

Definition emit (e : Effect) : Eff unit := MkEff (fun t => (t ++ [e], Ok tt)).

Definition lift {A : Type} (r : result A) : Eff A := MkEff (fun t => (t, r)).

(** [try { body } catch (error) { handler }] *)
Definition try_catch {A : Type} (body : Eff A) (handler : JSError -> Eff A) : Eff A :=
  MkEff (fun t =>
    match run_eff body t with
    | (t', Ok a) => (t', Ok a)
    | (t', Throw e) => run_eff (handler e) t'
    end).

(** [await fetch(url, {method: 'POST', body: JSON.stringify(body)})] *)
Definition fetch `{World} (url : string) (body : JSValue) : Eff Response :=
  MkEff (fun t => (t ++ [Fetch url body], fetch_response t url body)).

(** The effects of a handler started on a fresh request. *)
Definition effects {A : Type} (m : Eff A) : list Effect := fst (run_eff m []).

Definition completion {A : Type} (m : Eff A) : result A := snd (run_eff m []).

(** ** Keyed collections in insertion order

    A [Map], and the own string-keyed properties of an object, iterate in
    insertion order, and writing to a present key keeps the key's place:
    both are lists of entries in insertion order, keys distinct. *)

Fixpoint Map_get {V : Type} (key : string) (m : list (string * V)) : option V :=
  match m with
  | [] => None
  | (k, v) :: m' => if String.eqb k key then Some v else Map_get key m'
  end.

Fixpoint Map_set {V : Type} (key : string) (value : V) (m : list (string * V))
  : list (string * V) :=
  match m with
  | [] => [(key, value)]
  | (k, v) :: m' =>
      if String.eqb k key then (k, value) :: m'
      else (k, v) :: Map_set key value m'
  end.

Definition keys {V : Type} (m : list (string * V)) : list string := map fst m.

(** ** Coercions of the runtime *)

(** [Boolean(v)], the test of [if (v)], [!v] and [v || w]. *)
Definition truthy (v : JSValue) : bool :=
  match v with
  | JUndefined | JNull => false
  | JBool b => b
  | JNum n => negb (n =? 0)
  | JStr s => negb (String.eqb s EmptyString)
  | JArr _ | JObj _ => true
  end.

(** [v === 'literal'] *)
Definition is_string (v : JSValue) (literal : string) : bool :=
  match v with
  | JStr s => String.eqb s literal
  | _ => false
  end.

(** [a || b] *)
Definition or_else (a b : JSValue) : JSValue := if truthy a then a else b.

Definition Z_to_string (n : Z) : string := NilZero.string_of_int (Z.to_int n).

(** [array.join(sep)] once the elements are strings. *)
Fixpoint join (sep : string) (l : list string) : string :=
  match l with
  | [] => EmptyString
  | [s] => s
  | s :: l' => s +:+ sep +:+ join sep l'
  end.

(** [`${v}`] and [String(v)]. An array is joined with commas, [null] and
    [undefined] elements giving the empty string. A plain object gives
    "[object Object]" through [Object.prototype.toString], unless it has an
    own property [toString]: data never holds a function, so that property
    is skipped and so is [valueOf], whether own or inherited, and the
    conversion throws. *)
Fixpoint to_string (v : JSValue) : result string :=
  match v with
  | JUndefined => Ok "undefined"
  | JNull => Ok "null"
  | JBool true => Ok "true"
  | JBool false => Ok "false"
  | JNum n => Ok (Z_to_string n)
  | JStr s => Ok s
  | JArr items =>
      (fix elements (l : list JSValue) : result (list string) :=
         match l with
         | [] => Ok []
         | x :: l' =>
             match (match x with
                    | JUndefined | JNull => Ok EmptyString
                    | _ => to_string x
                    end) with
             | Ok s => match elements l' with
                       | Ok ss => Ok (s :: ss)
                       | Throw e => Throw e
                       end
             | Throw e => Throw e
             end
         end) items ≫= fun ss => Ok (join "," ss)
  | JObj props =>
      match Map_get "toString" props with
      | Some _ => Throw TypeError
      | None => Ok "[object Object]"
      end
  end.

(** [v.name] for a property [name] that no built-in prototype defines
    (every name the handlers read is of that kind), and [v.length]. Reading
    a property of [undefined] or [null] throws. *)
Definition get_prop (v : JSValue) (name : string) : result JSValue :=
  match v with
  | JUndefined | JNull => Throw TypeError
  | JObj props => Ok (default JUndefined (Map_get name props))
  | JStr s =>
      Ok (if String.eqb name "length" then JNum (JSString.length s) else JUndefined)
  | JArr items =>
      Ok (if String.eqb name "length" then JNum (Z.of_nat (length items))
          else JUndefined)
  | JBool _ | JNum _ => Ok JUndefined
  end.

(** [array.join(sep)] on elements of any kind: [null] and [undefined]
    give the empty string, every other element its [String]. *)
Definition element_text (v : JSValue) : result string :=
  match v with
  | JUndefined | JNull => Ok EmptyString
  | _ => to_string v
  end.

Fixpoint element_texts (l : list JSValue) : result (list string) :=
  match l with
  | [] => Ok []
  | v :: l' => s ← element_text v; ss ← element_texts l'; Ok (s :: ss)
  end.

Definition join_values (sep : string) (l : list JSValue) : result string :=
  texts ← element_texts l;
  Ok (join sep texts).

(** *** What an object literal inherits

    [literal[key]] finds the own properties of the literal first and then
    those of [Object.prototype]. All of the latter are truthy: eleven
    built-in functions and, under [__proto__], the prototype itself. *)
Inductive Inherited : Type :=
| NativeFunction (name : string)
| ThePrototype.

Definition Object_prototype (key : string) : option Inherited :=
  if String.eqb key "__proto__" then Some ThePrototype
  else if existsb (String.eqb key)
            ["constructor"; "__defineGetter__"; "__defineSetter__";
             "hasOwnProperty"; "__lookupGetter__"; "__lookupSetter__";
             "isPrototypeOf"; "propertyIsEnumerable"; "toString"; "valueOf";
             "toLocaleString"]
       then Some (NativeFunction key)
       else None.

(** [`${f}`] for an inherited member; [constructor] is the function
    [Object]. *)
Definition inherited_to_string (i : Inherited) : string :=
  match i with
  | NativeFunction name =>
      "function " +:+ (if String.eqb name "constructor" then "Object" else name)
      +:+ "() { [native code] }"
  | ThePrototype => "[object Object]"
  end.

(** [f(arg)] for an inherited member [f] called as a plain function, so
    with [this] undefined: [Object] converts its argument to an object,
    [toString] describes the missing receiver, [isPrototypeOf] answers
    [false] for an argument that is not an object before it looks at the
    receiver, the other functions convert the receiver to an object first
    and throw, and the prototype itself is not callable. A wrapper object
    made by [Object] is identified with the primitive it wraps. *)
Definition call_inherited (i : Inherited) (arg : JSValue) : result JSValue :=
  match i with
  | ThePrototype => Throw TypeError
  | NativeFunction name =>
      if String.eqb name "constructor" then
        Ok (match arg with JUndefined | JNull => JObj [] | _ => arg end)
      else if String.eqb name "toString" then Ok (JStr "[object Undefined]")
      else if String.eqb name "isPrototypeOf" then
        match arg with
        | JArr _ | JObj _ => Throw TypeError
        | _ => Ok (JBool false)
        end
      else Throw TypeError
  end.

(** *** Primitives that are not code of the repository *)

Class Runtime : Type := {
  (** [crypto.createHmac('sha256', key).update(data).digest('hex')] *)
  createHmac_sha256_hex : string -> string -> string;
  (** [JSON.stringify(v)]; [None] is the result [undefined] *)
  JSON_stringify : JSValue -> option string;
  (** [JSON.parse(text)] *)
  JSON_parse : string -> result JSValue;
  (** whether the number denoted by a string exceeds an integer, as in
      [s > n] *)
  StringToNumber_gt : string -> Z -> bool;
  (** [error.message] *)
  error_message : JSError -> string;
}.

Section Comparison.

Context `{Runtime}.

(** [v > n] for an integer [n]. An array or object is converted to a
    primitive first, which for data is its string. *)
Definition js_gt (v : JSValue) (n : Z) : result bool :=
  match v with
  | JUndefined => Ok false
  | JNull => Ok (0 >? n)
  | JBool b => Ok (Z.b2z b >? n)
  | JNum k => Ok (k >? n)
  | JStr s => Ok (StringToNumber_gt s n)
  | JArr _ | JObj _ => to_string v ≫= fun s => Ok (StringToNumber_gt s n)
  end.

(** ** [truncate] (api/report-error.js, and the identical copies in
       api/slack-commands.js and the notifier)

    Only a string has a callable [substring]. *)
Definition truncate (str : JSValue) (maxLen : Z) : result JSValue :=
  if negb (truthy str) then Ok (JStr EmptyString)
  else
    len ← get_prop str "length";
    longer ← js_gt len maxLen;
    if (longer : bool) then
      match str with
      | JStr s => Ok (JStr (JSString.substring s 0 maxLen +:+ "..."))
      | _ => Throw TypeError
      end
    else Ok str.

End Comparison.

(** ** The chat poster (api/slack-claude.js, [postToSlack]) *)

Module SlackClaude.

Definition maxLen : Z := 3900.

(** One pass through the body of the [while] loop when
    [remaining.length > maxLen]: the chunk pushed and the new
    [remaining]. *)
Definition splitIdx (remaining : string) : Z :=
  let splitIdx := JSString.lastIndexOf remaining JSString.nl maxLen in
  if splitIdx <? maxLen / 2 then maxLen else splitIdx.

Definition split_step (remaining : string) : string * string :=
  (JSString.substring remaining 0 (splitIdx remaining),
   JSString.substring_from remaining (splitIdx remaining)).

(** The [while (remaining.length > 0)] loop; [fuel] bounds the number of
    iterations that split, [None] means the bound was reached. *)
Fixpoint split_loop (fuel : nat) (chunks : list string) (remaining : string)
  : option (list string) :=
  if JSString.length remaining >? 0 then
    if JSString.length remaining <=? maxLen then Some (chunks ++ [remaining])
    else match fuel with
         | O => None
         | S fuel' =>
             split_loop fuel' (chunks ++ [fst (split_step remaining)])
                        (snd (split_step remaining))
         end
  else Some chunks.

(** The chunks computed for [text]; the text's own length is always
    enough fuel (see [split_loop_terminates]). *)
Definition split_chunks (text : string) : option (list string) :=
  split_loop (String.length text) [] text.

(** The body of one [chat.postMessage] request. *)
Definition post_request (channel threadTs chunk : string) : JSValue :=
  JObj [("channel", JStr channel); ("text", JStr chunk);
        ("thread_ts", JStr threadTs); ("unfurl_links", JBool false)].

(** [for (const chunk of chunks) await fetch(..)] *)
Fixpoint post_all `{World} (channel threadTs : string) (chunks : list string)
  : Eff unit :=
  match chunks with
  | [] => mret tt
  | chunk :: chunks' =>
      _ ← fetch "https://slack.com/api/chat.postMessage"
                (post_request channel threadTs chunk);
      post_all channel threadTs chunks'
  end.

(** [postToSlack(channel, text, threadTs)], with [botToken] the content
    of [process.env.SLACK_BOT_TOKEN]; [None] when the loop runs out of
    fuel. *)
Definition postToSlack `{World} (botToken : option string)
           (channel text threadTs : string) : option (Eff unit) :=
  match botToken with
  | None | Some EmptyString =>
      Some (emit (ConsoleError "SLACK_BOT_TOKEN not configured"))
  | Some _ => post_all channel threadTs <$> split_chunks text
  end.

(** The splitting rule in the words of the specification, to compare the
    loop with: a cut of [remaining] at index [i] prefers a newline when
    [i] is the last newline of the admissible range (from half the limit
    up to the limit) if there is one, and the limit itself if there is
    none. *)
Definition newline_at (s : string) (i : Z) : Prop :=
  0 <= i /\ String.get (Z.to_nat i) s = Some "010"%char.

Definition prefers_newline (remaining : string) (i : Z) : Prop :=
  maxLen / 2 <= i <= maxLen /\
  (forall j, maxLen / 2 <= j <= maxLen -> newline_at remaining j ->
             newline_at remaining i /\ j <= i) /\
  ((forall j, maxLen / 2 <= j <= maxLen -> ~ newline_at remaining j) ->
   i = maxLen).

Inductive split_at_newlines : string -> list string -> Prop :=
| split_nothing : split_at_newlines EmptyString []
| split_last remaining :
    0 < JSString.length remaining <= maxLen ->
    split_at_newlines remaining [remaining]
| split_cut remaining i rest :
    maxLen < JSString.length remaining ->
    prefers_newline remaining i ->
    split_at_newlines (JSString.substring_from remaining i) rest ->
    split_at_newlines remaining (JSString.substring remaining 0 i :: rest).

(** *** The conversation cache ([const conversations = new Map()])

    The cache is a [Map] from context keys to message arrays. *)

Inductive Role : Type := user | assistant.

Record Message : Type := { role : Role; content : string }.

Definition Conversations : Type := list (string * list Message).

(** The [for (const [key, messages] of conversations)] loop of
    [cleanupConversations]: [entries] are the entries not yet visited and
    [size] is [conversations.size] at this point; deleting the visited
    entry lowers [size] and leaves the rest of the iteration alone. *)
Fixpoint cleanup_loop (entries : Conversations) (size : nat) : Conversations :=
  match entries with
  | [] => []
  | (key, messages) :: rest =>
      if (length messages =? 0)%nat then cleanup_loop rest (size - 1)%nat
      else if (100 <? size)%nat then cleanup_loop rest (size - 1)%nat
      else (key, messages) :: cleanup_loop rest size
  end.

Definition cleanupConversations (conversations : Conversations) : Conversations :=
  cleanup_loop conversations (length conversations).

(** [handler], from "Get conversation context" to the call of the LLM:
    the cache afterwards and the [history] array handed to [callClaude].
    [conversations.get] returns the stored array itself, so [push] and
    [splice] on [history] change the cache when the key is present; for
    an absent key [history] is a fresh array that is not in the cache
    yet. *)
Definition handler_history (conversations : Conversations)
           (contextKey text : string) : Conversations * list Message :=
  let history := default [] (Map_get contextKey conversations) in
  let history := history ++ [{| role := user; content := text |}] in
  let history :=
    if (20 <? length history)%nat
    then drop (length history - 20) history      (* splice(0, length - 20) *)
    else history in
  (match Map_get contextKey conversations with
   | Some _ => Map_set contextKey history conversations
   | None => conversations
   end, history).

(** [handler], from "Save to history" to the maintenance pass. *)
Definition handler_save (conversations : Conversations) (contextKey : string)
           (history : list Message) (response : string) : Conversations :=
  let history := history ++ [{| role := assistant; content := response |}] in
  cleanupConversations (Map_set contextKey history conversations).

(** One message handled for [contextKey] from the start of the handler
    to its end, no other invocation running while [callClaude] is awaited
    (invocations that overlap are the subject of [Overlap] below).
    [response] is what [callClaude] returned, [None] when it threw: the
    [catch] then skips the rest of the [try] block. *)
Definition handler_turn (conversations : Conversations)
           (contextKey text : string) (response : option string) : Conversations :=
  let '(conversations, history) := handler_history conversations contextKey text in
  match response with
  | Some response => handler_save conversations contextKey history response
  | None => conversations
  end.

(** The cache of a process that has handled [turns] one after the other,
    oldest first. *)
Definition run_from (conversations : Conversations)
           (turns : list (string * string * option string)) : Conversations :=
  fold_left (fun c '(contextKey, text, response) => handler_turn c contextKey text response)
            turns conversations.

Definition run (turns : list (string * string * option string)) : Conversations :=
  run_from [] turns.

(** The invariant of the cache: distinct keys, at most 100 of them, and
    every stored history holds between 1 and 21 entries. *)
Definition cache_inv (c : Conversations) : Prop :=
  NoDup (keys c) /\ (length c <= 100)%nat /\
  Forall (fun e => (1 <= length (snd e) <= 21)%nat) c.

(** The entries appended by completed exchanges, oldest first. *)
Definition appended (exchanges : list (string * string)) : list Message :=
  flat_map (fun '(text, response) =>
              [{| role := user; content := text |};
               {| role := assistant; content := response |}]) exchanges.

Definition exchanges_on (contextKey : string) (exchanges : list (string * string))
  : list (string * string * option string) :=
  map (fun '(text, response) => (contextKey, text, Some response)) exchanges.

(** The last [n] elements of a sequence, in order. *)
Definition last_n {A : Type} (n : nat) (l : list A) : list A :=
  drop (length l - n) l.

(** [conversations.get(key) || []] *)
Definition stored (key : string) (c : Conversations) : list Message :=
  default [] (Map_get key c).

Definition user_entry (text : string) : Message :=
  {| role := user; content := text |}.

Definition assistant_entry (text : string) : Message :=
  {| role := assistant; content := text |}.

(** A thread of thirteen questions and replies. *)
Definition thread_key : string := "C024BE91L:1712.0001".

Definition thirteen_exchanges : list (string * string) :=
  [("q1", "r1"); ("q2", "r2"); ("q3", "r3"); ("q4", "r4"); ("q5", "r5");
   ("q6", "r6"); ("q7", "r7"); ("q8", "r8"); ("q9", "r9"); ("q10", "r10");
   ("q11", "r11"); ("q12", "r12"); ("q13", "r13")].

End SlackClaude.

(** *** Invocations that overlap

    [handler] is an [async] function: it runs from its start to
    [await callClaude(history)] in one piece, is suspended there, and runs
    the rest of the [try] block in one piece when the call has returned;
    other invocations run in between. [history] is the array stored in
    the cache when the key is present, so the invocations of one thread
    that are suspended together hold the same array. Arrays are therefore
    kept in a store and named by references, their numbers in the store:
    the cache maps a context key to a reference, and so does every
    suspended invocation. *)

Module Overlap.

Import SlackClaude.

Record Store : Type := {
  arrays : list (list Message);          (* the arrays allocated, by reference *)
  conversations : list (string * nat);   (* [const conversations = new Map()] *)
  suspended : list (string * nat);       (* [contextKey] and [history] of the
                                            invocations waiting for
                                            [callClaude], oldest first *)
}.

Definition empty : Store :=
  {| arrays := []; conversations := []; suspended := [] |}.

(** The content of an array. *)
Definition array (arrays : list (list Message)) (r : nat) : list Message :=
  default [] (arrays !! r).

(** [conversations.get(key) || []], as a sequence of entries. *)
Definition stored (key : string) (st : Store) : list Message :=
  match Map_get key (conversations st) with
  | Some r => array (arrays st) r
  | None => []
  end.

(** [handler], from "Get conversation context" to the call of
    [callClaude(history)]: the store when the invocation is suspended, and
    the entries of [history] at the call. For an absent key [history] is a
    new array, which is not in the cache yet. *)
Definition handler_call (st : Store) (contextKey text : string)
  : Store * list Message :=
  let '(arrays0, history) :=
    match Map_get contextKey (conversations st) with
    | Some r => (arrays st, r)
    | None => (arrays st ++ [[]], length (arrays st))
    end in
  let entries := array arrays0 history ++ [user_entry text] in        (* push *)
  let entries :=
    if (20 <? length entries)%nat
    then drop (length entries - 20) entries        (* splice(0, length - 20) *)
    else entries in
  ({| arrays := <[history := entries]> arrays0;
      conversations := conversations st;
      suspended := suspended st ++ [(contextKey, history)] |},
   entries).

(** The loop of [cleanupConversations] over the entries of the cache;
    [messages.length] is read from the store. *)
Fixpoint cleanup_loop (arrays : list (list Message)) (entries : list (string * nat))
         (size : nat) : list (string * nat) :=
  match entries with
  | [] => []
  | (key, messages) :: rest =>
      if (length (array arrays messages) =? 0)%nat
      then cleanup_loop arrays rest (size - 1)%nat
      else if (100 <? size)%nat then cleanup_loop arrays rest (size - 1)%nat
      else (key, messages) :: cleanup_loop arrays rest size
  end.

(** The invocation suspended at position [i] goes on: [callClaude] has
    returned [response], or has thrown ([None]) and the [catch] skips the
    rest of the [try] block. *)
Definition handler_resume (st : Store) (i : nat) (response : option string) : Store :=
  match suspended st !! i with
  | None => st
  | Some (contextKey, history) =>
      match response with
      | None =>
          {| arrays := arrays st; conversations := conversations st;
             suspended := delete i (suspended st) |}
      | Some response =>
          let arrays' :=
            <[history := array (arrays st) history ++ [assistant_entry response]]>
              (arrays st) in                                            (* push *)
          let conversations' := Map_set contextKey history (conversations st) in
          {| arrays := arrays';
             conversations :=
               cleanup_loop arrays' conversations' (length conversations');
             suspended := delete i (suspended st) |}
      end
  end.

(** What happens to the process: a message arrives for a thread, or a
    suspended invocation goes on. *)
Inductive Event : Type :=
| Arrives (contextKey text : string)
| Resumes (i : nat) (response : option string).

Definition step (st : Store) (event : Event) : Store :=
  match event with
  | Arrives contextKey text => fst (handler_call st contextKey text)
  | Resumes i response => handler_resume st i response
  end.

Definition run_from (st : Store) (events : list Event) : Store :=
  fold_left step events st.

Definition run (events : list Event) : Store := run_from empty events.

(** The largest number of invocations suspended together in the course
    of [events]. *)
Fixpoint peak_from (st : Store) (events : list Event) : nat :=
  match events with
  | [] => length (suspended st)
  | event :: events' =>
      Nat.max (length (suspended st)) (peak_from (step st event) events')
  end.

Definition peak (events : list Event) : nat := peak_from empty events.

(** Invocations that do not overlap: every message is handled to the end
    before the next one arrives. *)
Definition one_by_one (turns : list (string * string * option string)) : list Event :=
  flat_map (fun '(contextKey, text, response) =>
              [Arrives contextKey text; Resumes 0 response]) turns.

(** The cache as a map from keys to sequences of entries. *)
Definition view (st : Store) : Conversations :=
  map (fun '(key, r) => (key, array (arrays st) r)) (conversations st).

End Overlap.

(** References are allocated before they are used. *)
Definition allocated (st : Overlap.Store) : Prop :=
  Forall (fun e => (snd e < length (Overlap.arrays st))%nat) (Overlap.conversations st) /\
  Forall (fun e => (snd e < length (Overlap.arrays st))%nat) (Overlap.suspended st).

(** The invocations of a list that hold the array [r]. *)
Definition holders (r : nat) (l : list (string * nat)) : nat :=
  length (filter (fun e => snd e = r) l).

(** Every array has room for the replies of the invocations that hold
    it. *)
Definition bounded (n : nat) (st : Overlap.Store) : Prop :=
  forall r h, Overlap.arrays st !! r = Some h ->
              (length h + holders r (Overlap.suspended st) <= 20 + n)%nat.

(** No invocation is suspended and no two keys share an array. *)
Definition settled (st : Overlap.Store) : Prop :=
  Overlap.suspended st = [] /\ NoDup (map snd (Overlap.conversations st)) /\ allocated st.

(** An entry of the cache read in a store. *)
Definition read (arrays : list (list SlackClaude.Message)) (e : string * nat)
  : string * list SlackClaude.Message :=
  (fst e, Overlap.array arrays (snd e)).

(** ** Request signatures ([verifySlackSignature], the same function in
       api/slack-commands.js, api/slack-actions.js and api/slack-claude.js) *)

(** [parseInt(s)]: leading white space, a sign, an optional [0x], then the
    longest run of digits; [None] is [NaN]. *)
Definition is_white_space (c : ascii) : bool :=
  existsb (N.eqb (N_of_ascii c)) [9; 10; 11; 12; 13; 32; 160]%N.

Fixpoint skip_white_space (s : string) : string :=
  match s with
  | String c s' => if is_white_space c then skip_white_space s' else s
  | EmptyString => s
  end.

Definition digit_value (radix : Z) (c : ascii) : option Z :=
  let n := Z.of_N (N_of_ascii c) in
  let d := if (48 <=? n) && (n <=? 57) then Some (n - 48)
           else if (97 <=? n) && (n <=? 122) then Some (n - 87)
           else if (65 <=? n) && (n <=? 90) then Some (n - 55)
           else None in
  match d with
  | Some v => if v <? radix then Some v else None
  | None => None
  end.

Fixpoint parse_digits (radix : Z) (s : string) (acc : option Z) : option Z :=
  match s with
  | String c s' =>
      match digit_value radix c with
      | Some d => parse_digits radix s' (Some (default 0 acc * radix + d))
      | None => acc
      end
  | EmptyString => acc
  end.

Definition parseInt (s : string) : option Z :=
  let s := skip_white_space s in
  let '(sign, s) := match s with
                    | String "-" s' => (-1, s')
                    | String "+" s' => (1, s')
                    | _ => (1, s)
                    end in
  let '(radix, s) := match s with
                     | String "0" (String "x" s') | String "0" (String "X" s') => (16, s')
                     | _ => (10, s)
                     end in
  match parse_digits radix s None with
  | Some v => Some (sign * v)
  | None => None
  end.

(** [Buffer.from(s)]: the UTF-8 bytes of the code units of [s]. *)
Definition utf8 (c : ascii) : list Z :=
  let n := Z.of_N (N_of_ascii c) in
  if n <? 128 then [n] else [192 + n / 64; 128 + n mod 64].

Definition Buffer_from (s : string) : list Z :=
  flat_map utf8 (list_ascii_of_string s).

(** [crypto.timingSafeEqual(a, b)] throws on buffers of different
    lengths. *)
Definition timingSafeEqual (a b : list Z) : result bool :=
  if (length a =? length b)%nat then Ok (bool_decide (a = b))
  else Throw RangeError.

(** [!v] for a header or environment variable that may be absent. *)
Definition absent (v : option string) : bool :=
  match v with
  | None | Some EmptyString => true
  | Some _ => false
  end.

Section Signature.

Context `{Runtime}.

(** The [body] that is signed: the request body when it is a string, its
    [JSON.stringify] otherwise, as the template literal renders it. *)
Definition signed_body (req : Request) : string :=
  match req_body req with
  | JStr s => s
  | v => default "undefined" (JSON_stringify v)
  end.

Definition sigBasestring (timestamp : string) (req : Request) : string :=
  "v0:" +:+ timestamp +:+ ":" +:+ signed_body req.

Definition expected_signature (signingSecret timestamp : string) (req : Request)
  : string :=
  "v0=" +:+ createHmac_sha256_hex signingSecret (sigBasestring timestamp req).

(** [verifySlackSignature(req)], with [now] the value of
    [Math.floor(Date.now() / 1000)]. A timestamp that is not a number
    passes the window test, [NaN > 300] being false. *)
Definition verifySlackSignature (env : Env) (now : Z) (req : Request) : result bool :=
  let timestamp := req_headers req !! "x-slack-request-timestamp" in
  let signature := req_headers req !! "x-slack-signature" in
  let signingSecret := env !! "SLACK_SIGNING_SECRET" in
  match timestamp, signature, signingSecret with
  | Some timestamp, Some signature, Some signingSecret =>
      if absent (Some timestamp) || absent (Some signature)
         || absent (Some signingSecret)
      then Ok false
      else if match parseInt timestamp with
              | Some t => Z.abs (now - t) >? 300
              | None => false
              end
      then Ok false
      else
        let mySignature := expected_signature signingSecret timestamp req in
        timingSafeEqual (Buffer_from mySignature) (Buffer_from signature)
  | _, _, _ => Ok false
  end.

End Signature.

(** ** The slash-command endpoint (api/slack-commands.js) *)

Module SlackCommands.

(** The six command handlers reach the tracker, the CI and the LLM; the
    dispatcher depends on them only through the message each returns or
    the error it throws. *)
Class Commands : Type := {
  handleBugCommand : JSValue -> JSValue -> Eff JSValue;
  handleFeatureCommand : JSValue -> JSValue -> Eff JSValue;
  handleAskClaudeCommand : JSValue -> JSValue -> Eff JSValue;
  handleBugStatusCommand : JSValue -> Eff JSValue;
  handleDeployCommand : JSValue -> JSValue -> Eff JSValue;
  handleApprovePRCommand : JSValue -> JSValue -> Eff JSValue;
}.

Section Handler.

Context `{Runtime} `{World} `{Commands}.

Definition respond (status : Z) (body : JSValue) : Eff unit :=
  emit (Respond status body).

(** [if (response_url) await fetch(response_url, ..)] *)
Definition post_back (response_url message : JSValue) : Eff unit :=
  if truthy response_url then
    url ← lift (to_string response_url);
    _ ← fetch url message;
    mret tt
  else mret tt.

(** The [switch (command)]. *)
Definition dispatch (command text user_name : JSValue) : Eff JSValue :=
  if is_string command "/bug" then handleBugCommand text user_name
  else if is_string command "/feature" then handleFeatureCommand text user_name
  else if is_string command "/ask-claude" then handleAskClaudeCommand text user_name
  else if is_string command "/bug-status" then handleBugStatusCommand text
  else if is_string command "/deploy" then handleDeployCommand text user_name
  else if is_string command "/approve-pr" then handleApprovePRCommand text user_name
  else
    name ← lift (to_string command);
    mret (JObj [("response_type", JStr "ephemeral");
                ("text", JStr ("Unknown command: `" +:+ name +:+
                   "`. Available commands: /bug, /feature, /ask-claude, /bug-status, /deploy, /approve-pr"))]).

(** What follows the signature check. *)
Definition process (req : Request) : Eff unit :=
  command ← lift (get_prop (req_body req) "command");
  text ← lift (get_prop (req_body req) "text");
  user_name ← lift (get_prop (req_body req) "user_name");
  response_url ← lift (get_prop (req_body req) "response_url");
  name ← lift (to_string command);
  _ ← respond 200 (JObj [("response_type", JStr "ephemeral");
                         ("text", JStr ("Processing your `" +:+ name +:+ "` command..."))]);
  try_catch
    (result ← dispatch command text user_name;
     post_back response_url result)
    (fun error =>
       _ ← emit (ConsoleError "Command processing error:");
       post_back response_url
         (JObj [("response_type", JStr "ephemeral");
                ("text", JStr ("Error processing command: " +:+ error_message error))])).

(** [handler(req, res)] *)
Definition handler (env : Env) (now : Z) (req : Request) : Eff unit :=
  if negb (String.eqb (req_method req) "POST") then
    respond 405 (JObj [("error", JStr "Method not allowed")])
  else if absent (env !! "SLACK_SIGNING_SECRET") then process req
  else
    verified ← lift (verifySlackSignature env now req);
    if (verified : bool) then process req
    else respond 401 (JObj [("error", JStr "Invalid signature")]).

End Handler.

End SlackCommands.

(** ** The button endpoint (api/slack-actions.js) *)

Module SlackActions.

(** The action handlers, as for the commands. *)
Class Actions : Type := {
  handleTriggerAIAnalysis : JSValue -> Eff JSValue;
  handleApproveMergePR : JSValue -> JSValue -> Eff JSValue;
  handleRejectPR : JSValue -> JSValue -> Eff JSValue;
  handleConfirmDeploy : JSValue -> JSValue -> Eff JSValue;
  handleAcknowledgeIncident : JSValue -> JSValue -> Eff JSValue;
  handleAddToRoadmap : JSValue -> Eff JSValue;
}.

Section Handler.

Context `{Runtime} `{World} `{Actions}.

Definition respond (status : Z) (body : JSValue) : Eff unit :=
  emit (Respond status body).

(** The payload: the body itself, or the JSON text it is or carries. *)
Definition payload_of (body : JSValue) : result JSValue :=
  match body with
  | JStr s => JSON_parse s
  | _ =>
      field ← get_prop body "payload";
      if truthy field then
        source ← to_string field;
        JSON_parse source
      else Ok body
  end.

(** [v[0]] for a truthy [v]. *)
Definition first_of (v : JSValue) : JSValue :=
  match v with
  | JArr (x :: _) => x
  | JStr (String c _) => JStr (String c EmptyString)
  | JObj props => default JUndefined (Map_get "0" props)
  | _ => JUndefined
  end.

(** The [switch (action.action_id)]. *)
Definition dispatch (action user : JSValue) : Eff JSValue :=
  action_id ← lift (get_prop action "action_id");
  value ← lift (get_prop action "value");
  if is_string action_id "trigger_ai_analysis" then handleTriggerAIAnalysis value
  else if is_string action_id "approve_merge_pr" then handleApproveMergePR value user
  else if is_string action_id "reject_pr" then handleRejectPR value user
  else if is_string action_id "confirm_deploy" then handleConfirmDeploy value user
  else if is_string action_id "cancel_deploy" then
    mret (JObj [("replace_original", JBool true);
                ("text", JStr "âŒ Deployment cancelled.")])
  else if is_string action_id "acknowledge_incident" then
    handleAcknowledgeIncident value user
  else if is_string action_id "add_to_roadmap" then handleAddToRoadmap value
  else
    name ← lift (to_string action_id);
    mret (JObj [("text", JStr ("Unknown action: " +:+ name))]).

Definition post_back (responseUrl message : JSValue) : Eff unit :=
  url ← lift (to_string responseUrl);
  _ ← fetch url message;
  mret tt.

(** What follows the signature check. *)
Definition process (payload : JSValue) : Eff unit :=
  _ ← respond 200 JUndefined;
  responseUrl ← lift (get_prop payload "response_url");
  actions ← lift (get_prop payload "actions");
  let action := if truthy actions then first_of actions else actions in
  if negb (truthy action) then mret tt
  else
    try_catch
      (user ← lift (get_prop payload "user");
       result ← dispatch action user;
       if truthy responseUrl && truthy result then post_back responseUrl result
       else mret tt)
      (fun error =>
         _ ← emit (ConsoleError "Action processing error:");
         if truthy responseUrl then
           post_back responseUrl
             (JObj [("text", JStr ("Error: " +:+ error_message error))])
         else mret tt).

(** [handler(req, res)] *)
Definition handler (env : Env) (now : Z) (req : Request) : Eff unit :=
  if negb (String.eqb (req_method req) "POST") then
    respond 405 (JObj [("error", JStr "Method not allowed")])
  else
    match payload_of (req_body req) with
    | Throw _ => respond 400 (JObj [("error", JStr "Invalid payload")])
    | Ok payload =>
        if absent (env !! "SLACK_SIGNING_SECRET") then process payload
        else
          verified ← lift (verifySlackSignature env now req);
          if (verified : bool) then process payload
          else respond 401 (JObj [("error", JStr "Invalid signature")])
    end.

End Handler.

End SlackActions.

(** ** The error intake (api/report-error.js) *)

Module ReportError.

Section WithRuntime.

Context `{Runtime}.

(** [{...err, count: 1}]: the own properties of [err] (the characters of
    a string and the elements of an array under their indices), then
    [count]. *)
Definition indexed (items : list JSValue) : list (string * JSValue) :=
  imap (fun i v => (Z_to_string (Z.of_nat i), v)) items.

Definition own_properties (err : JSValue) : list (string * JSValue) :=
  match err with
  | JObj props => props
  | JArr items => indexed items
  | JStr s =>
      indexed (map (fun c => JStr (String c EmptyString)) (list_ascii_of_string s))
  | _ => []
  end.

(** The key of a report, [`${err.type}:${err.message}`]. *)
Definition group_key (err : JSValue) : result string :=
  type ← get_prop err "type";
  type ← to_string type;
  message ← get_prop err "message";
  message ← to_string message;
  Ok (type +:+ ":" +:+ message).

(** [groups[key].count++] *)
Definition increment_count (group : JSValue) : JSValue :=
  match group with
  | JObj props =>
      match Map_get "count" props with
      | Some (JNum n) => JObj (Map_set "count" (JNum (n + 1)) props)
      | _ => group
      end
  | _ => group
  end.

(** [group.count] when it is a number. *)
Definition count_of (group : JSValue) : option Z :=
  match group with
  | JObj props =>
      match Map_get "count" props with
      | Some (JNum n) => Some n
      | _ => None
      end
  | _ => None
  end.

(** What the loop maintains: one group per key met so far, and each group
    counts the reports of its key. *)
Definition tallies (groups : list (string * JSValue)) (seen : list string) : Prop :=
  NoDup (keys groups) /\
  (forall k, k ∈ keys groups <-> k ∈ seen) /\
  (forall k group, Map_get k groups = Some group ->
     count_of group = Some (Z.of_nat (count_occ String.string_dec seen k))).

(** The body of the [for (const err of errors)] loop. A key holds a colon,
    so [groups[key]] never finds an inherited property and is the own
    property or [undefined] (see [group_key_not_inherited]). *)
Definition group_step (groups : list (string * JSValue)) (err : JSValue)
  : result (list (string * JSValue)) :=
  key ← group_key err;
  match Map_get key groups with
  | None => Ok (Map_set key (JObj (Map_set "count" (JNum 1) (own_properties err))) groups)
  | Some group => Ok (Map_set key (increment_count group) groups)
  end.

Fixpoint group_loop (groups : list (string * JSValue)) (errors : list JSValue)
  : result (list (string * JSValue)) :=
  match errors with
  | [] => Ok groups
  | err :: errors' => group_step groups err ≫= fun groups => group_loop groups errors'
  end.

(** [groupErrors(errors)]; [Object.values] lists the groups in insertion
    order, no key being an array index. *)
Definition groupErrors (errors : list JSValue) : result (list JSValue) :=
  groups ← group_loop [] errors;
  Ok (map snd groups).

(** [severityEmoji[errorGroup.severity] || red], as a string. *)
Definition severity_emoji (severity : JSValue) : result string :=
  key ← to_string severity;
  match Map_get key [("error", "🔴"); ("warning", "🟡"); ("info", "🔵")] with
  | Some emoji => Ok emoji
  | None =>
      match Object_prototype key with
      | Some member => Ok (inherited_to_string member)
      | None => Ok "🔴"
      end
  end.

(** [cond ? `${label}${value}${close}` : ''] *)
Definition optional_line (label : string) (value : JSValue) (close : string)
  : result string :=
  if truthy value then
    v ← to_string value; Ok (label +:+ v +:+ close)
  else Ok EmptyString.

(** The request of [createGitHubIssue]: title, body and labels. The
    lines of the body are the elements of the array literal: strings, and
    [errorGroup.message] as it is; [filter(Boolean)] keeps the truthy
    elements and [join] turns them into text. *)
Definition issue_request (errorGroup environment : JSValue) : result JSValue :=
  severity ← get_prop errorGroup "severity";
  emoji ← severity_emoji severity;
  type ← get_prop errorGroup "type";
  type_s ← to_string type;
  message ← get_prop errorGroup "message";
  short ← truncate message 80;
  short_s ← to_string short;
  let title := emoji +:+ " [Auto-Detected] " +:+ type_s +:+ ": " +:+ short_s in
  severity_s ← to_string severity;
  count ← get_prop errorGroup "count";
  count_s ← to_string count;
  timestamp ← get_prop errorGroup "timestamp";
  timestamp_s ← to_string timestamp;
  source ← get_prop errorGroup "source";
  source_l ← optional_line "**Source:** `" source "`";
  line ← get_prop errorGroup "line";
  line_l ← optional_line "**Line:** " line EmptyString;
  column ← get_prop errorGroup "column";
  column_l ← optional_line "**Column:** " column EmptyString;
  stack ← get_prop errorGroup "stack";
  stack_l ← (if truthy stack then
               stack_s ← to_string stack;
               Ok (join JSString.nl ["### Stack Trace"; EmptyString; "```"; stack_s; "```"])
             else Ok EmptyString);
  url ← get_prop environment "url"; url ← to_string url;
  userAgent ← get_prop environment "userAgent"; userAgent ← to_string userAgent;
  screenSize ← get_prop environment "screenSize"; screenSize ← to_string screenSize;
  viewportSize ← get_prop environment "viewportSize"; viewportSize ← to_string viewportSize;
  sessionId ← get_prop environment "sessionId"; sessionId ← to_string sessionId;
  env_timestamp ← get_prop environment "timestamp"; env_timestamp ← to_string env_timestamp;
  let lines :=
    [JStr "## Auto-Detected Error Report";
     JStr EmptyString;
     JStr ("**Type:** `" +:+ type_s +:+ "`");
     JStr ("**Severity:** " +:+ severity_s);
     JStr ("**Occurrences:** " +:+ count_s);
     JStr ("**First Seen:** " +:+ timestamp_s);
     JStr EmptyString;
     JStr "### Error Details";
     JStr EmptyString;
     JStr "```";
     message;
     JStr "```";
     JStr EmptyString;
     JStr source_l;
     JStr line_l;
     JStr column_l;
     JStr EmptyString;
     JStr stack_l;
     JStr EmptyString;
     JStr "### Environment";
     JStr EmptyString;
     JStr ("- **URL:** " +:+ url);
     JStr ("- **User Agent:** " +:+ userAgent);
     JStr ("- **Screen:** " +:+ screenSize);
     JStr ("- **Viewport:** " +:+ viewportSize);
     JStr ("- **Session:** `" +:+ sessionId +:+ "`");
     JStr ("- **Timestamp:** " +:+ env_timestamp);
     JStr EmptyString;
     JStr "---";
     JStr "*This issue was automatically created by the error detection system.*";
     JStr "*Label this issue with `ai-analyze` to trigger automatic AI analysis and fix proposal.*"] in
  body ← join_values JSString.nl (filter (fun v => truthy v = true) lines);
  let high := is_string severity "error" || is_string severity "critical" in
  let labels := [JStr "bug"; JStr "auto-detected"]
                ++ (if high then [JStr "priority:high"] else []) in
  Ok (JObj [("title", JStr title); ("body", JStr body); ("labels", JArr labels)]).

Context `{World}.

Definition respond (status : Z) (body : JSValue) : Eff unit :=
  emit (Respond status body).

(** [createGitHubIssue(token, owner, repo, errorGroup, environment)] *)
Definition createGitHubIssue (owner repo : string) (errorGroup environment : JSValue)
  : Eff JSValue :=
  request ← lift (issue_request errorGroup environment);
  response ← fetch ("https://api.github.com/repos/" +:+ owner +:+ "/" +:+ repo +:+ "/issues")
                   request;
  if resp_ok response then mret (resp_json response)
  else lift (Throw (GenericError ("GitHub API error: " +:+ Z_to_string (resp_status response)
                                  +:+ " " +:+ resp_text response))).

(** The payload of [notifySlack(webhookUrl, errorGroup, issue)]. *)
Definition slack_payload (errorGroup issue : JSValue) : result JSValue :=
  message ← get_prop errorGroup "message";
  short ← truncate message 60;
  short ← to_string short;
  type ← get_prop errorGroup "type"; type ← to_string type;
  severity ← get_prop errorGroup "severity"; severity ← to_string severity;
  count ← get_prop errorGroup "count"; count ← to_string count;
  html_url ← get_prop issue "html_url";
  html_url_s ← to_string html_url;
  number ← get_prop issue "number"; number ← to_string number;
  let mrkdwn t := JObj [("type", JStr "mrkdwn"); ("text", JStr t)] in
  let plain t := JObj [("type", JStr "plain_text"); ("text", JStr t)] in
  Ok (JObj [("blocks", JArr [
    JObj [("type", JStr "header");
          ("text", plain ("🚨 Auto-Detected Bug: " +:+ short))];
    JObj [("type", JStr "section");
          ("fields", JArr [
             mrkdwn ("*Type:*" +:+ JSString.nl +:+ "`" +:+ type +:+ "`");
             mrkdwn ("*Severity:*" +:+ JSString.nl +:+ severity);
             mrkdwn ("*Occurrences:*" +:+ JSString.nl +:+ count);
             mrkdwn ("*Issue:*" +:+ JSString.nl +:+ "<" +:+ html_url_s +:+ "|#" +:+ number +:+ ">")])];
    JObj [("type", JStr "actions");
          ("elements", JArr [
             JObj [("type", JStr "button"); ("text", plain "View Issue");
                   ("url", html_url); ("style", JStr "primary")];
             JObj [("type", JStr "button"); ("text", plain "Trigger AI Analysis");
                   ("action_id", JStr "trigger_ai_analysis");
                   ("value", JStr number)]])]])]).

(** The [for (const group of grouped)] loop; [results] collects the
    issues. *)
Fixpoint create_issues (env : Env) (owner repo : string) (environment : JSValue)
         (grouped results : list JSValue) : Eff (list JSValue) :=
  match grouped with
  | [] => mret results
  | group :: grouped' =>
      issue ← createGitHubIssue owner repo group environment;
      _ ← (match env !! "SLACK_WEBHOOK_URL" with
           | Some (String c url as webhookUrl) =>
               payload ← lift (slack_payload group issue);
               _ ← fetch webhookUrl payload;
               mret tt
           | _ => mret tt
           end);
      create_issues env owner repo environment grouped' (results ++ [issue])
  end.

Definition issue_summary (r : JSValue) : result JSValue :=
  number ← get_prop r "number";
  html_url ← get_prop r "html_url";
  Ok (JObj [("id", number); ("url", html_url)]).

Fixpoint map_result {A B : Type} (f : A -> result B) (l : list A) : result (list B) :=
  match l with
  | [] => Ok []
  | x :: l' => y ← f x; ys ← map_result f l'; Ok (y :: ys)
  end.

(** [handler(req, res)] *)
Definition handler (env : Env) (req : Request) : Eff unit :=
  _ ← emit (SetHeader "Access-Control-Allow-Origin" "*");
  _ ← emit (SetHeader "Access-Control-Allow-Methods" "POST, OPTIONS");
  _ ← emit (SetHeader "Access-Control-Allow-Headers" "Content-Type");
  if String.eqb (req_method req) "OPTIONS" then respond 200 JUndefined
  else if negb (String.eqb (req_method req) "POST") then
    respond 405 (JObj [("error", JStr "Method not allowed")])
  else
    try_catch
      (errors ← lift (get_prop (req_body req) "errors");
       environment ← lift (get_prop (req_body req) "environment");
       match errors with
       | JArr (err :: errors') =>
           match env !! "GITHUB_TOKEN", env !! "GITHUB_OWNER", env !! "GITHUB_REPO" with
           | Some (String _ _), Some (String _ _ as githubOwner),
             Some (String _ _ as githubRepo) =>
               grouped ← lift (groupErrors (err :: errors'));
               results ← create_issues env githubOwner githubRepo environment grouped [];
               issues ← lift (map_result issue_summary results);
               respond 200 (JObj [("success", JBool true);
                                  ("issuesCreated", JNum (Z.of_nat (length results)));
                                  ("issues", JArr issues)])
           | _, _, _ =>
               _ ← emit (ConsoleError "Missing GitHub configuration environment variables");
               respond 500 (JObj [("error", JStr "Server configuration error")])
           end
       | _ => respond 400 (JObj [("error", JStr "No errors provided")])
       end)
      (fun error =>
         _ ← emit (ConsoleError "Error processing report:");
         respond 500 (JObj [("error", JStr "Internal server error")])).

End WithRuntime.

End ReportError.

(** ** The notifier (/api/slack-notify, the second handler of
       api/slack-actions.js) *)

Module SlackNotify.

(** The two readings of the clock in the builders. *)
Record Clock : Type := {
  toLocaleDateString : string;      (* new Date().toLocaleDateString() *)
  toISOString : string;             (* new Date().toISOString() *)
}.

Section Builders.

Context `{Runtime}.

Definition plain_text (t : string) : JSValue :=
  JObj [("type", JStr "plain_text"); ("text", JStr t)].

Definition mrkdwn (t : string) : JSValue :=
  JObj [("type", JStr "mrkdwn"); ("text", JStr t)].

Definition header (t : string) : JSValue :=
  JObj [("type", JStr "header"); ("text", plain_text t)].

(** [{ type: 'mrkdwn', text: `${label}\n${value || fallback}` }] *)
Definition field (label : string) (value fallback : JSValue) : result JSValue :=
  v ← to_string (or_else value fallback);
  Ok (mrkdwn (label +:+ JSString.nl +:+ v)).

(** [JSON.stringify({ [name]: value })] as a property value. *)
Definition stringified (name : string) (value : JSValue) : JSValue :=
  match JSON_stringify (JObj [(name, value)]) with
  | Some s => JStr s
  | None => JUndefined
  end.

(** [array.filter(Boolean)] *)
Definition filter_Boolean (l : list JSValue) : list JSValue :=
  filter (fun v => truthy v = true) l.

(** The field or button that links the issue. *)
Definition issue_field (issueUrl issueNumber : JSValue) : result JSValue :=
  if truthy issueUrl then
    url ← to_string issueUrl;
    number ← to_string issueNumber;
    Ok (mrkdwn ("*Issue:*" +:+ JSString.nl +:+ "<" +:+ url +:+ "|#" +:+ number +:+ ">"))
  else Ok (mrkdwn ("*Issue:*" +:+ JSString.nl +:+ "Pending")).

Definition view_issue_button (issueUrl : JSValue) : JSValue :=
  if truthy issueUrl then
    JObj [("type", JStr "button"); ("text", plain_text "View Issue");
          ("url", issueUrl); ("style", JStr "primary")]
  else JNull.

Definition buildBugMessage (data : JSValue) : result JSValue :=
  title ← get_prop data "title";
  title ← truncate title 60;
  title ← to_string title;
  severity ← get_prop data "severity";
  severity ← field "*Severity:*" severity (JStr "unknown");
  source ← get_prop data "source";
  source ← field "*Source:*" source (JStr "user report");
  status ← get_prop data "status";
  status ← field "*Status:*" status (JStr "new");
  issueUrl ← get_prop data "issueUrl";
  issueNumber ← get_prop data "issueNumber";
  issue ← issue_field issueUrl issueNumber;
  description ← get_prop data "description";
  description ← (if truthy description then
                   short ← truncate description 300;
                   Ok (JObj [("type", JStr "section");
                             ("text", JObj [("type", JStr "mrkdwn"); ("text", short)])])
                 else Ok JNull);
  Ok (JObj [("blocks", JArr (filter_Boolean [
    header ("🐛 Bug: " +:+ title);
    JObj [("type", JStr "section");
          ("fields", JArr [severity; source; status; issue])];
    description;
    JObj [("type", JStr "actions");
          ("elements", JArr (filter_Boolean [
             view_issue_button issueUrl;
             JObj [("type", JStr "button"); ("text", plain_text "AI Analyze");
                   ("action_id", JStr "trigger_ai_analysis");
                   ("value", stringified "issueNumber" issueNumber)]]))]]))]).

Definition buildFeatureMessage (data : JSValue) : result JSValue :=
  title ← get_prop data "title";
  title ← truncate title 60;
  title ← to_string title;
  priority ← get_prop data "priority";
  priority ← field "*Priority:*" priority (JStr "normal");
  votes ← get_prop data "votes";
  votes ← field "*Votes:*" votes (JNum 0);
  issueUrl ← get_prop data "issueUrl";
  issueNumber ← get_prop data "issueNumber";
  issue ← issue_field issueUrl issueNumber;
  useCase ← get_prop data "useCase";
  useCase ← (if truthy useCase then
               short ← truncate useCase 300;
               short ← to_string short;
               Ok (JObj [("type", JStr "section");
                         ("text", mrkdwn ("*Use Case:*" +:+ JSString.nl +:+ short))])
             else Ok JNull);
  Ok (JObj [("blocks", JArr (filter_Boolean [
    header ("✨ Feature: " +:+ title);
    JObj [("type", JStr "section"); ("fields", JArr [priority; votes; issue])];
    useCase;
    JObj [("type", JStr "actions");
          ("elements", JArr (filter_Boolean [
             view_issue_button issueUrl;
             JObj [("type", JStr "button"); ("text", plain_text "Add to Roadmap");
                   ("action_id", JStr "add_to_roadmap");
                   ("value", stringified "issueNumber" issueNumber)]]))]]))]).

(** [statusEmoji[data.status] || box], as a string. *)
Definition status_emoji (status : JSValue) : result string :=
  key ← to_string status;
  match Map_get key [("success", "✅"); ("failed", "❌"); ("pending", "⏳");
                     ("rollback", "⏪")] with
  | Some emoji => Ok emoji
  | None =>
      match Object_prototype key with
      | Some member => Ok (inherited_to_string member)
      | None => Ok "📦"
      end
  end.

Definition buildDeploymentMessage (data : JSValue) : result JSValue :=
  status ← get_prop data "status";
  emoji ← status_emoji status;
  status_s ← to_string status;
  environment ← get_prop data "environment";
  environment ← field "*Environment:*" environment (JStr "production");
  branch ← get_prop data "branch";
  branch ← to_string (or_else branch (JStr "main"));
  commit ← get_prop data "commit";
  commit ← truncate commit 8;
  commit ← to_string commit;
  author ← get_prop data "author";
  author ← field "*Author:*" author (JStr "unknown");
  changes ← get_prop data "changes";
  changes ← (if truthy changes then
               short ← truncate changes 300;
               short ← to_string short;
               Ok (JObj [("type", JStr "section");
                         ("text", mrkdwn ("*Changes:*" +:+ JSString.nl +:+ short))])
             else Ok JNull);
  url ← get_prop data "url";
  Ok (JObj [("blocks", JArr (filter_Boolean [
    header (emoji +:+ " Deployment: " +:+ status_s);
    JObj [("type", JStr "section");
          ("fields", JArr [
             environment;
             mrkdwn ("*Branch:*" +:+ JSString.nl +:+ "`" +:+ branch +:+ "`");
             mrkdwn ("*Commit:*" +:+ JSString.nl +:+ "`" +:+ commit +:+ "`");
             author])];
    changes;
    if truthy url then
      JObj [("type", JStr "actions");
            ("elements", JArr [
               JObj [("type", JStr "button"); ("text", plain_text "View Deployment");
                     ("url", url); ("style", JStr "primary")]])]
    else JNull]))]).

(** One line of the top issues, [`${idx + 1}. <${i.url}|${i.title}>`]. *)
Definition top_issue_line (idx : nat) (i : JSValue) : result string :=
  url ← get_prop i "url"; url ← to_string url;
  title ← get_prop i "title"; title ← to_string title;
  Ok (Z_to_string (Z.of_nat idx + 1) +:+ ". <" +:+ url +:+ "|" +:+ title +:+ ">").

Fixpoint top_issue_lines (idx : nat) (items : list JSValue) : result (list string) :=
  match items with
  | [] => Ok []
  | i :: items' =>
      line ← top_issue_line idx i;
      lines ← top_issue_lines (S idx) items';
      Ok (line :: lines)
  end.

Definition buildDigestMessage (clock : Clock) (data : JSValue) : result JSValue :=
  newBugs ← get_prop data "newBugs";
  newBugs ← field "*New Bugs:*" newBugs (JNum 0);
  bugsFixed ← get_prop data "bugsFixed";
  bugsFixed ← field "*Bugs Fixed:*" bugsFixed (JNum 0);
  featureRequests ← get_prop data "featureRequests";
  featureRequests ← field "*Feature Requests:*" featureRequests (JNum 0);
  deployments ← get_prop data "deployments";
  deployments ← field "*Deployments:*" deployments (JNum 0);
  openIssues ← get_prop data "openIssues";
  openIssues ← field "*Open Issues:*" openIssues (JNum 0);
  prsMerged ← get_prop data "prsMerged";
  prsMerged ← field "*PRs Merged:*" prsMerged (JNum 0);
  avgFixTime ← get_prop data "avgFixTime";
  avgFixTime ← field "*Avg Fix Time:*" avgFixTime (JStr "N/A");
  satisfaction ← get_prop data "satisfaction";
  satisfaction ← field "*User Satisfaction:*" satisfaction (JStr "N/A");
  topIssues ← get_prop data "topIssues";
  topIssues ← (if truthy topIssues then
                 match topIssues with
                 | JArr items =>
                     lines ← top_issue_lines 0 items;
                     Ok (JObj [("type", JStr "section");
                               ("text", mrkdwn ("*Top Issues:*" +:+ JSString.nl
                                                +:+ join JSString.nl lines))])
                 | _ => Throw TypeError          (* topIssues.map is not a function *)
                 end
               else Ok JNull);
  Ok (JObj [("blocks", JArr (filter_Boolean [
    header ("📊 Daily Digest - " +:+ toLocaleDateString clock);
    JObj [("type", JStr "section");
          ("fields", JArr [newBugs; bugsFixed; featureRequests; deployments])];
    JObj [("type", JStr "section");
          ("fields", JArr [openIssues; prsMerged; avgFixTime; satisfaction])];
    topIssues]))]).

Definition buildIncidentMessage (clock : Clock) (data : JSValue) : result JSValue :=
  title ← get_prop data "title";
  title ← truncate title 50;
  title ← to_string title;
  severity ← get_prop data "severity";
  severity ← to_string (or_else severity (JStr "HIGH"));
  impact ← get_prop data "impact";
  impact ← to_string (or_else impact (JStr "Unknown"));
  startedAt ← get_prop data "startedAt";
  startedAt ← to_string (or_else startedAt (JStr (toISOString clock)));
  description ← get_prop data "description";
  id ← get_prop data "id";
  issueUrl ← get_prop data "issueUrl";
  Ok (JObj [("blocks", JArr (filter_Boolean [
    header ("🚨 INCIDENT: " +:+ title);
    JObj [("type", JStr "section");
          ("text", mrkdwn ("*Severity:* " +:+ severity +:+ JSString.nl +:+
                           "*Impact:* " +:+ impact +:+ JSString.nl +:+
                           "*Started:* " +:+ startedAt))];
    if truthy description then
      JObj [("type", JStr "section");
            ("text", JObj [("type", JStr "mrkdwn"); ("text", description)])]
    else JNull;
    JObj [("type", JStr "actions");
          ("elements", JArr (filter_Boolean [
             JObj [("type", JStr "button"); ("text", plain_text "Acknowledge");
                   ("action_id", JStr "acknowledge_incident");
                   ("value", stringified "incidentId" id);
                   ("style", JStr "danger")];
             if truthy issueUrl then
               JObj [("type", JStr "button"); ("text", plain_text "View Issue");
                     ("url", issueUrl)]
             else JNull]))]]))]).

Definition buildPRMessage (data : JSValue) : result JSValue :=
  title ← get_prop data "title";
  title ← truncate title 60;
  title ← to_string title;
  author ← get_prop data "author";
  author ← field "*Author:*" author (JStr "AI");
  status ← get_prop data "status";
  status ← field "*Status:*" status (JStr "open");
  filesChanged ← get_prop data "filesChanged";
  filesChanged ← field "*Files Changed:*" filesChanged (JStr "N/A");
  issueNumber ← get_prop data "issueNumber";
  fixes ← (if truthy issueNumber then
             number ← to_string issueNumber;
             Ok (mrkdwn ("*Fixes:*" +:+ JSString.nl +:+ "#" +:+ number))
           else Ok JNull);
  description ← get_prop data "description";
  description ← (if truthy description then
                   short ← truncate description 300;
                   Ok (JObj [("type", JStr "section");
                             ("text", JObj [("type", JStr "mrkdwn"); ("text", short)])])
                 else Ok JNull);
  prUrl ← get_prop data "prUrl";
  prNumber ← get_prop data "prNumber";
  Ok (JObj [("blocks", JArr [
    header ("🔀 PR: " +:+ title);
    JObj [("type", JStr "section");
          ("fields", JArr (filter_Boolean [author; status; filesChanged; fixes]))];
    description;
    JObj [("type", JStr "actions");
          ("elements", JArr [
             JObj [("type", JStr "button"); ("text", plain_text "Review PR");
                   ("url", prUrl); ("style", JStr "primary")];
             JObj [("type", JStr "button"); ("text", plain_text "Approve & Merge");
                   ("action_id", JStr "approve_merge_pr");
                   ("value", stringified "prNumber" prNumber);
                   ("style", JStr "primary")];
             JObj [("type", JStr "button"); ("text", plain_text "Reject");
                   ("action_id", JStr "reject_pr");
                   ("value", stringified "prNumber" prNumber);
                   ("style", JStr "danger")]])]])]).

(** The closed set of kinds. *)
Inductive Kind : Type := bug | feature | deployment | digest | incident | pr.

(** The own properties of the [builders] literal. *)
Definition builders (key : string) : option Kind :=
  Map_get key [("bug", bug); ("feature", feature); ("deployment", deployment);
               ("digest", digest); ("incident", incident); ("pr", pr)].

Definition builder (clock : Clock) (kind : Kind) : JSValue -> result JSValue :=
  match kind with
  | bug => buildBugMessage
  | feature => buildFeatureMessage
  | deployment => buildDeploymentMessage
  | digest => buildDigestMessage clock
  | incident => buildIncidentMessage clock
  | pr => buildPRMessage
  end.

(** The fallback message, [{ text: `[${type}] ${JSON.stringify(data)}` }]. *)
Definition fallback (type data : JSValue) : result JSValue :=
  type ← to_string type;
  Ok (JObj [("text", JStr ("[" +:+ type +:+ "] "
                            +:+ default "undefined" (JSON_stringify data)))]).

(** [buildMessage(type, data)]. [builders[type]] is an own property, or a
    member that the literal inherits, or [undefined]; only the last is
    falsy. *)
Definition buildMessage (clock : Clock) (type data : JSValue) : result JSValue :=
  key ← to_string type;
  match builders key with
  | Some kind => builder clock kind data
  | None =>
      match Object_prototype key with
      | Some member => call_inherited member data
      | None => fallback type data
      end
  end.

Context `{World}.

(** [a || b] for two environment variables. *)
Definition env_or (a b : option string) : option string :=
  if absent a then b else a.

(** [getWebhookUrl(type)]: the address as a string; an inherited member of
    the [webhooks] literal is truthy and is what [fetch] is given. *)
Definition getWebhookUrl (env : Env) (type : JSValue) : result (option string) :=
  key ← to_string type;
  let default_url := env !! "SLACK_WEBHOOK_URL" in
  let own :=
    Map_get key [("bug", env_or (env !! "SLACK_BUGS_WEBHOOK") default_url);
                 ("feature", env_or (env !! "SLACK_FEATURES_WEBHOOK") default_url);
                 ("deployment", env_or (env !! "SLACK_DEPLOYMENTS_WEBHOOK") default_url);
                 ("digest", default_url); ("incident", default_url);
                 ("pr", default_url)] in
  match own with
  | Some url => Ok (env_or url default_url)
  | None =>
      match Object_prototype key with
      | Some member => Ok (Some (inherited_to_string member))
      | None => Ok default_url
      end
  end.

Definition respond (status : Z) (body : JSValue) : Eff unit :=
  emit (Respond status body).

(** [handler(req, res)] of /api/slack-notify *)
Definition handler (env : Env) (clock : Clock) (req : Request) : Eff unit :=
  _ ← emit (SetHeader "Access-Control-Allow-Origin" "*");
  _ ← emit (SetHeader "Access-Control-Allow-Methods" "POST, OPTIONS");
  _ ← emit (SetHeader "Access-Control-Allow-Headers" "Content-Type");
  if String.eqb (req_method req) "OPTIONS" then respond 200 JUndefined
  else if negb (String.eqb (req_method req) "POST") then
    respond 405 (JObj [("error", JStr "Method not allowed")])
  else
    try_catch
      (type ← lift (get_prop (req_body req) "type");
       data ← lift (get_prop (req_body req) "data");
       if negb (truthy type) then
         respond 400 (JObj [("error", JStr "Missing notification type")])
       else
         webhookUrl ← lift (getWebhookUrl env type);
         if absent webhookUrl then
           respond 500 (JObj [("error", JStr "Slack webhook not configured")])
         else
           message ← lift (buildMessage clock type data);
           response ← fetch (default EmptyString webhookUrl) message;
           if resp_ok response then respond 200 (JObj [("success", JBool true)])
           else lift (Throw (GenericError ("Slack API error: "
                                           +:+ Z_to_string (resp_status response)))))
      (fun error =>
         _ ← emit (ConsoleError "Slack notification error:");
         respond 500 (JObj [("error", JStr "Failed to send notification")])).

End Builders.

End SlackNotify.

(** ** More of the runtime *)

(** The characters of [s], last first. *)
Definition reverse (s : string) : string :=
  string_of_list_ascii (rev (list_ascii_of_string s)).

(** [s.trim()]: white space and line terminators are removed at both
    ends. *)
Definition trim (s : string) : string :=
  reverse (skip_white_space (reverse (skip_white_space s))).

(** [`${process.env.NAME}`] *)
Definition env_text (v : option string) : string := default "undefined" v.

(** ** The command handlers (api/slack-commands.js) *)

Module CommandHandlers.

Section WithRuntime.

Context `{Runtime} `{World}.

Definition ephemeral (text : string) : JSValue :=
  JObj [("response_type", JStr "ephemeral"); ("text", JStr text)].

Definition button (label : string) (rest : list (string * JSValue)) : JSValue :=
  JObj ([("type", JStr "button"); ("text", SlackNotify.plain_text label)] ++ rest).

Definition section (text : string) : JSValue :=
  JObj [("type", JStr "section"); ("text", SlackNotify.mrkdwn text)].

(** [createGitHubIssue(title, body, labels)] *)
Definition createGitHubIssue (env : Env) (title body : string) (labels : list string)
  : Eff JSValue :=
  response ← fetch ("https://api.github.com/repos/" +:+ env_text (env !! "GITHUB_OWNER")
                    +:+ "/" +:+ env_text (env !! "GITHUB_REPO") +:+ "/issues")
                   (JObj [("title", JStr title); ("body", JStr body);
                          ("labels", JArr (JStr <$> labels))]);
  if resp_ok response then mret (resp_json response)
  else lift (Throw (GenericError ("GitHub API error: "
                                  +:+ Z_to_string (resp_status response)))).

(** [handleBugCommand(text, userName)] *)
Definition handleBugCommand (env : Env) (clock : SlackNotify.Clock)
           (text userName : JSValue) : Eff JSValue :=
  if negb (truthy text) then mret (ephemeral "Usage: `/bug <description of the bug>`")
  else
    text_s ← lift (to_string text);
    userName_s ← lift (to_string userName);
    issue ← createGitHubIssue env ("🐛 [Slack] " +:+ text_s)
              (join JSString.nl
                 ["## Bug Report (from Slack)";
                  EmptyString;
                  "**Reported by:** @" +:+ userName_s;
                  "**Description:** " +:+ text_s;
                  "**Reported at:** " +:+ SlackNotify.toISOString clock;
                  EmptyString;
                  "---";
                  "*Reported via Slack /bug command*"])
              ["bug"; "slack-reported"];
    html_url ← lift (get_prop issue "html_url");
    html_url_s ← lift (to_string html_url);
    number ← lift (get_prop issue "number");
    number_s ← lift (to_string number);
    mret (JObj [("response_type", JStr "in_channel");
                ("blocks", JArr [
                   section ("🐛 *Bug reported by @" +:+ userName_s +:+ "*" +:+ JSString.nl
                            +:+ ">" +:+ text_s +:+ JSString.nl +:+ JSString.nl
                            +:+ "GitHub Issue: <" +:+ html_url_s +:+ "|#" +:+ number_s +:+ ">");
                   JObj [("type", JStr "actions");
                         ("elements", JArr [
                            button "View Issue" [("url", html_url)];
                            button "AI Analyze" [("action_id", JStr "trigger_ai_analysis");
                                                 ("value", JStr number_s)]])]])]).

(** [handleFeatureCommand(text, userName)] *)
Definition handleFeatureCommand (env : Env) (clock : SlackNotify.Clock)
           (text userName : JSValue) : Eff JSValue :=
  if negb (truthy text) then
    mret (ephemeral "Usage: `/feature <description of the feature>`")
  else
    text_s ← lift (to_string text);
    userName_s ← lift (to_string userName);
    issue ← createGitHubIssue env ("✨ [Slack] " +:+ text_s)
              (join JSString.nl
                 ["## Feature Request (from Slack)";
                  EmptyString;
                  "**Requested by:** @" +:+ userName_s;
                  "**Description:** " +:+ text_s;
                  "**Requested at:** " +:+ SlackNotify.toISOString clock;
                  EmptyString;
                  "👍 React to upvote this feature!";
                  EmptyString;
                  "---";
                  "*Requested via Slack /feature command*"])
              ["enhancement"; "slack-requested"];
    html_url ← lift (get_prop issue "html_url");
    html_url_s ← lift (to_string html_url);
    number ← lift (get_prop issue "number");
    number_s ← lift (to_string number);
    mret (JObj [("response_type", JStr "in_channel");
                ("blocks", JArr [
                   section ("✨ *Feature requested by @" +:+ userName_s +:+ "*" +:+ JSString.nl
                            +:+ ">" +:+ text_s +:+ JSString.nl +:+ JSString.nl
                            +:+ "GitHub Issue: <" +:+ html_url_s +:+ "|#" +:+ number_s +:+ ">"
                            +:+ JSString.nl +:+ "React with 👍 to upvote!");
                   JObj [("type", JStr "actions");
                         ("elements", JArr [
                            button "View Issue" [("url", html_url)];
                            button "Add to Roadmap" [("action_id", JStr "add_to_roadmap");
                                                     ("value", JStr number_s)]])]])]).

(** [text ? text.trim() : fallback]; only a string has [trim]. *)
Definition trimmed_or (text fallback : JSValue) : result JSValue :=
  if truthy text then
    match text with
    | JStr s => Ok (JStr (trim s))
    | _ => Throw TypeError
    end
  else Ok fallback.

(** [JSON.stringify(v)] as a property value. *)
Definition stringify_value (v : JSValue) : JSValue :=
  match JSON_stringify v with
  | Some s => JStr s
  | None => JUndefined
  end.

(** [handleDeployCommand(text, userName)] *)
Definition handleDeployCommand (text userName : JSValue) : result JSValue :=
  branch ← trimmed_or text (JStr "main");
  userName_s ← to_string userName;
  branch_s ← to_string branch;
  Ok (JObj [("response_type", JStr "in_channel");
            ("blocks", JArr [
               section ("🚀 *Deployment requested by @" +:+ userName_s +:+ "*" +:+ JSString.nl
                        +:+ "*Branch:* `" +:+ branch_s +:+ "`" +:+ JSString.nl
                        +:+ "*Environment:* production");
               JObj [("type", JStr "actions");
                     ("elements", JArr [
                        button "Confirm Deploy"
                          [("action_id", JStr "confirm_deploy");
                           ("value", stringify_value
                                       (JObj [("branch", branch);
                                              ("requestedBy", userName)]));
                           ("style", JStr "primary")];
                        button "Cancel"
                          [("action_id", JStr "cancel_deploy");
                           ("style", JStr "danger")]])]])]).

End WithRuntime.

End CommandHandlers.

(** ** The feedback endpoint (api/submit-feedback, bundled after
       api/slack-commands.js) *)

Module SubmitFeedback.

Section WithRuntime.

Context `{Runtime}.

(** [`${map[value] || value}`] for a literal [map] of non-empty strings:
    the own property, or the member that the literal inherits, or the
    value itself. *)
Definition label_of (map : list (string * string)) (value : JSValue) : result string :=
  key ← to_string value;
  match Map_get key map with
  | Some label => Ok label
  | None =>
      match Object_prototype key with
      | Some member => Ok (inherited_to_string member)
      | None => Ok key
      end
  end.

(** [value ? `${label}${value}${close}` : ''] as an element of the body. *)
Definition optional_line (label : string) (value : JSValue) (close : string)
  : result JSValue :=
  if truthy value then
    v ← to_string value; Ok (JStr (label +:+ v +:+ close))
  else Ok (JStr EmptyString).

(** The title, body and labels that [createBugIssue] hands to
    [createGitHubIssue]. The title is an element of the body as it is, so
    [filter(Boolean)] sees the value and [join] its string. *)
Definition bug_request (feedback : JSValue) : result JSValue :=
  title ← get_prop feedback "title";
  title_s ← to_string title;
  severity ← get_prop feedback "severity";
  severity_l ← label_of [("low", "🟢 Low"); ("medium", "🟡 Medium");
                         ("high", "🟠 High"); ("critical", "🔴 Critical")] severity;
  timestamp ← get_prop feedback "timestamp"; timestamp ← to_string timestamp;
  email ← get_prop feedback "email";
  email_l ← optional_line "**Contact:** " email EmptyString;
  steps ← get_prop feedback "steps";
  steps_l ← (if truthy steps then
               s ← join_values JSString.nl
                     [JStr "### Steps to Reproduce"; JStr EmptyString; steps];
               Ok (JStr s)
             else Ok (JStr EmptyString));
  url ← get_prop feedback "url"; url ← to_string url;
  userAgent ← get_prop feedback "userAgent"; userAgent ← to_string userAgent;
  sessionId ← get_prop feedback "sessionId";
  sessionId_l ← optional_line "- **Session:** `" sessionId "`";
  screenshot ← get_prop feedback "screenshot";
  screenshot_l ← (if truthy screenshot then
                    size ← get_prop screenshot "length";
                    size ← to_string size;
                    Ok (JStr (join JSString.nl
                                ["### Screenshot";
                                 EmptyString;
                                 "> A screenshot was attached to this report.";
                                 "> Data URI length: " +:+ size +:+ " characters"]))
                  else Ok (JStr EmptyString));
  body ← join_values JSString.nl
           (SlackNotify.filter_Boolean
              [JStr "## User-Reported Bug";
               JStr EmptyString;
               JStr ("**Severity:** " +:+ severity_l);
               JStr ("**Reported at:** " +:+ timestamp);
               email_l;
               JStr EmptyString;
               JStr "### Description";
               JStr EmptyString;
               title;
               JStr EmptyString;
               steps_l;
               JStr EmptyString;
               JStr "### Context";
               JStr EmptyString;
               JStr ("- **Page:** " +:+ url);
               JStr ("- **Browser:** " +:+ userAgent);
               sessionId_l;
               JStr EmptyString;
               screenshot_l;
               JStr EmptyString;
               JStr "---";
               JStr "*This issue was created from user feedback via the in-app widget.*"]);
  let high := is_string severity "high" || is_string severity "critical" in
  let labels := [JStr "bug"; JStr "user-reported"]
                ++ (if high then [JStr "priority:high"] else []) in
  Ok (JObj [("title", JStr ("🐛 [User Report] " +:+ title_s));
            ("body", JStr body); ("labels", JArr labels)]).

(** The same for [createFeatureIssue]. *)
Definition feature_request (feedback : JSValue) : result JSValue :=
  title ← get_prop feedback "title";
  title_s ← to_string title;
  priority ← get_prop feedback "priority";
  priority_l ← label_of [("nice-to-have", "💭 Nice to have"); ("important", "⭐ Important");
                         ("critical", "🔥 Critical for workflow")] priority;
  timestamp ← get_prop feedback "timestamp"; timestamp ← to_string timestamp;
  email ← get_prop feedback "email";
  email_l ← optional_line "**Contact:** " email EmptyString;
  useCase ← get_prop feedback "useCase";
  useCase_l ← (if truthy useCase then
                 s ← join_values JSString.nl
                       [JStr "### Use Case"; JStr EmptyString; useCase];
                 Ok (JStr s)
               else Ok (JStr EmptyString));
  url ← get_prop feedback "url"; url ← to_string url;
  body ← join_values JSString.nl
           (SlackNotify.filter_Boolean
              [JStr "## Feature Request";
               JStr EmptyString;
               JStr ("**Priority:** " +:+ priority_l);
               JStr ("**Requested at:** " +:+ timestamp);
               email_l;
               JStr EmptyString;
               JStr "### Feature Description";
               JStr EmptyString;
               title;
               JStr EmptyString;
               useCase_l;
               JStr EmptyString;
               JStr "### Context";
               JStr EmptyString;
               JStr ("- **Page:** " +:+ url);
               JStr EmptyString;
               JStr "---";
               JStr "*This feature request was submitted via the in-app feedback widget.*";
               JStr EmptyString;
               JStr "**Voting:** React with 👍 to upvote this feature request."]);
  Ok (JObj [("title", JStr ("✨ [Feature Request] " +:+ title_s));
            ("body", JStr body);
            ("labels", JArr [JStr "enhancement"; JStr "user-requested"])]).

(** The payload of [notifySlack(webhookUrl, feedback, issue)]. *)
Definition slack_payload (feedback issue : JSValue) : result JSValue :=
  type ← get_prop feedback "type";
  let isBug := is_string type "bug" in
  title ← get_prop feedback "title";
  short ← truncate title 60;
  short ← to_string short;
  level ← get_prop feedback (if isBug then "severity" else "priority");
  level ← to_string level;
  html_url ← get_prop issue "html_url";
  html_url_s ← to_string html_url;
  number ← get_prop issue "number"; number ← to_string number;
  email ← get_prop feedback "email";
  contact ← (if truthy email then
               e ← to_string email;
               Ok ("*Contact:*" +:+ JSString.nl +:+ e)
             else Ok ("*Contact:*" +:+ JSString.nl +:+ "Not provided"));
  steps ← get_prop feedback "steps";
  steps_b ← (if isBug && truthy steps then
               s ← truncate steps 200; s ← to_string s;
               Ok (JObj [("type", JStr "section");
                         ("text", SlackNotify.mrkdwn
                                    ("*Steps to Reproduce:*" +:+ JSString.nl +:+ s))])
             else Ok JNull);
  useCase ← get_prop feedback "useCase";
  useCase_b ← (if negb isBug && truthy useCase then
                 s ← truncate useCase 200; s ← to_string s;
                 Ok (JObj [("type", JStr "section");
                           ("text", SlackNotify.mrkdwn
                                      ("*Use Case:*" +:+ JSString.nl +:+ s))])
               else Ok JNull);
  Ok (JObj [("blocks", JArr (SlackNotify.filter_Boolean [
    SlackNotify.header
      ((if isBug then "🐛 New Bug Report: " else "✨ Feature Request: ") +:+ short);
    JObj [("type", JStr "section");
          ("fields", JArr [
             SlackNotify.mrkdwn ("*Type:*" +:+ JSString.nl
                                 +:+ (if isBug then "Bug Report" else "Feature Request"));
             SlackNotify.mrkdwn ("*" +:+ (if isBug then "Severity" else "Priority")
                                 +:+ ":*" +:+ JSString.nl +:+ level);
             SlackNotify.mrkdwn ("*Issue:*" +:+ JSString.nl +:+ "<" +:+ html_url_s
                                 +:+ "|#" +:+ number +:+ ">");
             SlackNotify.mrkdwn contact])];
    steps_b;
    useCase_b;
    JObj [("type", JStr "actions");
          ("elements", JArr [
             JObj [("type", JStr "button");
                   ("text", SlackNotify.plain_text "View Issue");
                   ("url", html_url); ("style", JStr "primary")]])]]))]).

Context `{World}.

Definition respond (status : Z) (body : JSValue) : Eff unit :=
  emit (Respond status body).

(** [createGitHubIssue(token, owner, repo, title, body, labels)] *)
Definition createGitHubIssue (owner repo : string) (request : JSValue) : Eff JSValue :=
  response ← fetch ("https://api.github.com/repos/" +:+ owner +:+ "/" +:+ repo +:+ "/issues")
                   request;
  if resp_ok response then mret (resp_json response)
  else lift (Throw (GenericError ("GitHub API error: " +:+ Z_to_string (resp_status response)
                                  +:+ " " +:+ resp_text response))).

Definition createBugIssue (owner repo : string) (feedback : JSValue) : Eff JSValue :=
  request ← lift (bug_request feedback);
  createGitHubIssue owner repo request.

Definition createFeatureIssue (owner repo : string) (feedback : JSValue) : Eff JSValue :=
  request ← lift (feature_request feedback);
  createGitHubIssue owner repo request.

(** [handler(req, res)] of /api/submit-feedback *)
Definition handler (env : Env) (req : Request) : Eff unit :=
  _ ← emit (SetHeader "Access-Control-Allow-Origin" "*");
  _ ← emit (SetHeader "Access-Control-Allow-Methods" "POST, OPTIONS");
  _ ← emit (SetHeader "Access-Control-Allow-Headers" "Content-Type");
  if String.eqb (req_method req) "OPTIONS" then respond 200 JUndefined
  else if negb (String.eqb (req_method req) "POST") then
    respond 405 (JObj [("error", JStr "Method not allowed")])
  else
    try_catch
      (let feedback := req_body req in
       let missing := respond 400 (JObj [("error",
                                          JStr "Missing required fields: title, type")]) in
       if negb (truthy feedback) then missing
       else
         title ← lift (get_prop feedback "title");
         if negb (truthy title) then missing
         else
           type ← lift (get_prop feedback "type");
           if negb (truthy type) then missing
           else
             match env !! "GITHUB_TOKEN", env !! "GITHUB_OWNER", env !! "GITHUB_REPO" with
             | Some (String _ _), Some (String _ _ as githubOwner),
               Some (String _ _ as githubRepo) =>
                 issue ← (if is_string type "bug"
                          then createBugIssue githubOwner githubRepo feedback
                          else createFeatureIssue githubOwner githubRepo feedback);
                 _ ← (match env !! "SLACK_WEBHOOK_URL" with
                      | Some (String _ _ as webhookUrl) =>
                          payload ← lift (slack_payload feedback issue);
                          _ ← fetch webhookUrl payload;
                          mret tt
                      | _ => mret tt
                      end);
                 html_url ← lift (get_prop issue "html_url");
                 number ← lift (get_prop issue "number");
                 respond 200 (JObj [("success", JBool true); ("issueUrl", html_url);
                                    ("issueNumber", number)])
             | _, _, _ =>
                 _ ← emit (ConsoleError "Missing GitHub configuration");
                 respond 500 (JObj [("error", JStr "Server configuration error")])
             end)
      (fun error =>
         _ ← emit (ConsoleError "Error processing feedback:");
         respond 500 (JObj [("error", JStr "Internal server error")])).

End WithRuntime.

End SubmitFeedback.

(** ** The action handlers (api/slack-actions.js) *)

Module ActionHandlers.

Section WithRuntime.

Context `{Runtime} `{World}.

(** [JSON.parse(value)]: the argument is converted to a string first. *)
Definition parse_value (value : JSValue) : result JSValue :=
  text ← to_string value;
  JSON_parse text.

(** [typeof value === 'string' && value.startsWith('{')
     ? JSON.parse(value).issueNumber : value] *)
Definition issueNumber_of (value : JSValue) : result JSValue :=
  match value with
  | JStr s =>
      if String.prefix "{" s then
        data ← JSON_parse s;
        get_prop data "issueNumber"
      else Ok value
  | _ => Ok value
  end.

(** [user.name || user.username] inside a template literal *)
Definition user_name (user : JSValue) : result string :=
  name ← get_prop user "name";
  username ← get_prop user "username";
  to_string (or_else name username).

Definition in_channel (text : string) : JSValue :=
  JObj [("response_type", JStr "in_channel"); ("text", JStr text)].

(** The address of an issue's labels. *)
Definition labels_url (env : Env) (issueNumber : string) : string :=
  "https://api.github.com/repos/" +:+ env_text (env !! "GITHUB_OWNER") +:+ "/"
  +:+ env_text (env !! "GITHUB_REPO") +:+ "/issues/" +:+ issueNumber +:+ "/labels".

(** [handleTriggerAIAnalysis(value)] *)
Definition handleTriggerAIAnalysis (env : Env) (value : JSValue) : Eff JSValue :=
  issueNumber ← lift (issueNumber_of value);
  issueNumber ← lift (to_string issueNumber);
  _ ← fetch (labels_url env issueNumber) (JObj [("labels", JArr [JStr "ai-analyze"])]);
  mret (in_channel ("ðŸ¤– AI analysis triggered for issue #" +:+ issueNumber
                    +:+ ". Claude will analyze the bug and propose a fix.")).

(** [handleAddToRoadmap(value)] *)
Definition handleAddToRoadmap (env : Env) (value : JSValue) : Eff JSValue :=
  issueNumber ← lift (issueNumber_of value);
  issueNumber ← lift (to_string issueNumber);
  _ ← fetch (labels_url env issueNumber) (JObj [("labels", JArr [JStr "roadmap"])]);
  mret (in_channel ("ðŸ“‹ Issue #" +:+ issueNumber +:+ " added to the roadmap!")).

(** [handleConfirmDeploy(value, user)] *)
Definition handleConfirmDeploy (env : Env) (value user : JSValue) : Eff JSValue :=
  data ← lift (parse_value value);
  branch ← lift (get_prop data "branch");
  name ← lift (get_prop user "name");
  username ← lift (get_prop user "username");
  response ← fetch ("https://api.github.com/repos/" +:+ env_text (env !! "GITHUB_OWNER")
                    +:+ "/" +:+ env_text (env !! "GITHUB_REPO")
                    +:+ "/actions/workflows/deploy.yml/dispatches")
                   (JObj [("ref", or_else branch (JStr "main"));
                          ("inputs", JObj [("deployer", or_else name username)])]);
  if negb (resp_ok response) then
    mret (JObj [("replace_original", JBool true);
                ("text", JStr "âŒ Deployment failed to start. Check GitHub Actions permissions.")])
  else
    branch_s ← lift (to_string (or_else branch (JStr "main")));
    deployer ← lift (user_name user);
    mret (JObj [("replace_original", JBool true);
                ("text", JStr ("ðŸš€ Deployment started!" +:+ JSString.nl
                               +:+ "*Branch:* `" +:+ branch_s +:+ "`" +:+ JSString.nl
                               +:+ "*Started by:* " +:+ deployer +:+ JSString.nl
                               +:+ "*Status:* Check GitHub Actions for progress."))]).

End WithRuntime.

End ActionHandlers.

(** ** The chat endpoint (api/slack-claude.js) *)

Module ClaudeChat.

(** *** [event.text.replace(/<@[A-Z0-9]+>/g, '').trim()] *)

Definition is_id_char (c : ascii) : bool :=
  let n := Z.of_N (N_of_ascii c) in
  ((48 <=? n) && (n <=? 57)) || ((65 <=? n) && (n <=? 90)).

(** The number of characters of [[A-Z0-9]] at the head of [s]. *)
Fixpoint id_run (s : string) : nat :=
  match s with
  | String c s' => if is_id_char c then S (id_run s') else O
  | EmptyString => O
  end.

(** The length of the match of [<@[A-Z0-9]+>] that starts at the head of
    [s]: the run of identifier characters is matched whole, none of them
    being [>]. *)
Definition mention_length (s : string) : option nat :=
  match s with
  | String "<" (String "@" s') =>
      match id_run s', JSString.drop (id_run s') s' with
      | S n, String ">" _ => Some (S n + 3)%nat
      | _, _ => None
      end
  | _ => None
  end.

(** The global replacement, left to right: [skip] counts the characters
    of the current match that are still to be dropped. *)
Fixpoint strip_mentions_from (skip : nat) (s : string) : string :=
  match s with
  | EmptyString => EmptyString
  | String c s' =>
      match skip with
      | S skip' => strip_mentions_from skip' s'
      | O =>
          match mention_length s with
          | Some n => strip_mentions_from (n - 1) s'
          | None => String c (strip_mentions_from 0 s')
          end
      end
  end.

Definition strip_mentions (s : string) : string := strip_mentions_from 0 s.

(** Only a string has [replace]. *)
Definition clean_text (text : JSValue) : result string :=
  match text with
  | JStr s => Ok (trim (strip_mentions s))
  | _ => Throw TypeError
  end.

Section Handler.

Context `{Runtime} `{World}.

Definition respond (status : Z) (body : JSValue) : Eff unit :=
  emit (Respond status body).

(** [handler(req, res)] up to the context key. [respond_to] stands for
    the rest of the [try] block, from "Get conversation context" on: it is
    given the cleaned text, the channel, the thread and the context key
    (the cache is the subject of [SlackClaude] and [Overlap], the reply
    that of [SlackClaude.postToSlack]). *)
Definition handler (respond_to : string -> JSValue -> JSValue -> string -> Eff unit)
           (env : Env) (now : Z) (req : Request) : Eff unit :=
  if negb (String.eqb (req_method req) "POST") then
    respond 405 (JObj [("error", JStr "Method not allowed")])
  else
    type ← lift (get_prop (req_body req) "type");
    if is_string type "url_verification" then
      challenge ← lift (get_prop (req_body req) "challenge");
      respond 200 (JObj [("challenge", challenge)])
    else
      verified ← (if absent (env !! "SLACK_SIGNING_SECRET") then mret true
                  else lift (verifySlackSignature env now req));
      if negb verified then respond 401 (JObj [("error", JStr "Invalid signature")])
      else
        _ ← respond 200 JUndefined;
        try_catch
          (event ← lift (get_prop (req_body req) "event");
           if negb (truthy event) then mret tt
           else
             event_type ← lift (get_prop event "type");
             channel_type ← lift (get_prop event "channel_type");
             if negb (is_string event_type "app_mention")
                && negb (is_string channel_type "im")
             then mret tt
             else
               bot_id ← lift (get_prop event "bot_id");
               if truthy bot_id then mret tt
               else
                 text ← lift (get_prop event "text");
                 text ← lift (clean_text text);
                 thread_ts ← lift (get_prop event "thread_ts");
                 ts ← lift (get_prop event "ts");
                 let threadTs := or_else thread_ts ts in
                 channel ← lift (get_prop event "channel");
                 channel_s ← lift (to_string channel);
                 threadTs_s ← lift (to_string threadTs);
                 respond_to text channel threadTs (channel_s +:+ ":" +:+ threadTs_s))
          (fun error => emit (ConsoleError "Claude chat error:")).

End Handler.

End ClaudeChat.

(** ** The error logger of the page (scripts/error-logger.js)

    The logger is a closure over [CONFIG] and four variables; the
    variables are the fields of [State]. [Date.now()] and the result of
    [getEnvironmentInfo()] are arguments, and what [sendToApi] is given is
    the output of a step. The configuration is an argument too: it is
    [CONFIG] until [window.ErrorLogger.configure] changes it, and a run of
    the logger is for one configuration. *)

Module ErrorLogger.

Record Config : Type := {
  apiEndpoint : string;
  maxErrorsPerMinute : Z;
  batchInterval : Z;
  enableConsoleCapture : bool;
  enableNetworkCapture : bool;
  ignoredErrors : list string;
  ignoredUrls : list string;
}.

Definition CONFIG : Config := {|
  apiEndpoint := "/api/report-error";
  maxErrorsPerMinute := 10;
  batchInterval := 5000;
  enableConsoleCapture := true;
  enableNetworkCapture := true;
  ignoredErrors := ["ResizeObserver loop limit exceeded";
                    "Script error.";
                    "Non-Error promise rejection captured"];
  ignoredUrls := ["extensions://"; "chrome-extension://"; "moz-extension://"];
|}.

Record State : Type := {
  errorQueue : list JSValue;
  errorCount : Z;
  lastErrorReset : Z;
  batchTimer : bool;           (* a timer is pending *)
}.

(** The state when the script has run, at time [now]. *)
Definition initial (now : Z) : State :=
  {| errorQueue := []; errorCount := 0; lastErrorReset := now; batchTimer := false |}.

(** [isRateLimited()]: the answer and the state it leaves. *)
Definition isRateLimited (config : Config) (now : Z) (st : State) : bool * State :=
  let st := if now - lastErrorReset st >? 60000
            then {| errorQueue := errorQueue st; errorCount := 0;
                    lastErrorReset := now; batchTimer := batchTimer st |}
            else st in
  let st := {| errorQueue := errorQueue st; errorCount := errorCount st + 1;
               lastErrorReset := lastErrorReset st; batchTimer := batchTimer st |} in
  (errorCount st >? maxErrorsPerMinute config, st).

(** [scheduleBatchSend()] *)
Definition scheduleBatchSend (st : State) : State :=
  if batchTimer st then st
  else {| errorQueue := errorQueue st; errorCount := errorCount st;
          lastErrorReset := lastErrorReset st; batchTimer := true |}.

(** [captureError(errorData)] *)
Definition captureError (config : Config) (now : Z) (errorData : JSValue) (st : State)
  : State :=
  let '(limited, st) := isRateLimited config now st in
  if (limited : bool) then st
  else scheduleBatchSend
         {| errorQueue := errorQueue st ++ [errorData]; errorCount := errorCount st;
            lastErrorReset := lastErrorReset st; batchTimer := batchTimer st |}.

(** [flushErrors()]: the state it leaves and the payload handed to
    [sendToApi], if any. *)
Definition flushErrors (environment : JSValue) (st : State) : State * option JSValue :=
  match errorQueue st with
  | [] => (st, None)
  | errors =>
      ({| errorQueue := []; errorCount := errorCount st;
          lastErrorReset := lastErrorReset st; batchTimer := batchTimer st |},
       Some (JObj [("errors", JArr errors);
                   ("environment", environment);
                   ("errorCount", JNum (Z.of_nat (length errors)))]))
  end.

(** The callback of the timer: [flushErrors(); batchTimer = null]. *)
Definition timer_callback (environment : JSValue) (st : State) : State * option JSValue :=
  let '(st, sent) := flushErrors environment st in
  ({| errorQueue := errorQueue st; errorCount := errorCount st;
      lastErrorReset := lastErrorReset st; batchTimer := false |}, sent).

(** What happens to the logger: an error is captured at some time, the
    pending timer fires, or the page asks for a flush ([beforeunload],
    [ErrorLogger.flush]). *)
Inductive Event : Type :=
| Capture (now : Z) (errorData : JSValue)
| TimerFires (environment : JSValue)
| Flush (environment : JSValue).

(** One event; a timer fires only while it is pending. *)
Definition step (config : Config) (st : State) (event : Event) : State * option JSValue :=
  match event with
  | Capture now errorData => (captureError config now errorData st, None)
  | TimerFires environment =>
      if batchTimer st then timer_callback environment st else (st, None)
  | Flush environment => flushErrors environment st
  end.

(** A sequence of events: the final state and the payloads sent, in
    order. *)
Fixpoint run (config : Config) (st : State) (events : list Event)
  : State * list JSValue :=
  match events with
  | [] => (st, [])
  | event :: events' =>
      let '(st, sent) := step config st event in
      let '(st, sent') := run config st events' in
      (st, match sent with Some payload => payload :: sent' | None => sent' end)
  end.

(** The errors of a payload. *)
Definition errors_of (payload : JSValue) : list JSValue :=
  match get_prop payload "errors" with
  | Ok (JArr errors) => errors
  | _ => []
  end.

End ErrorLogger.

(** ** A runtime to evaluate the embedding with

    HMAC-SHA256 (FIPS 180-4, RFC 2104), [JSON.stringify] and [JSON.parse]
    are computed, the last for the texts whose value is in the model: it
    rejects a number with a fraction or an exponent and an escape above
    U+00FF. The other two primitives are stand-ins: a string denotes a
    number only when it is a run of decimal digits, and only the message
    of a thrown [Error] is told. *)

Module SHA256.

Definition w32 (x : Z) : Z := x mod 4294967296.
Definition rotr (n x : Z) : Z := Z.lor (Z.shiftr x n) (w32 (Z.shiftl x (32 - n))).
Definition shr (n x : Z) : Z := Z.shiftr x n.
Definition Ch (x y z : Z) : Z := Z.lxor (Z.land x y) (Z.land (Z.lxor x 4294967295) z).
Definition Maj (x y z : Z) : Z := Z.lxor (Z.lxor (Z.land x y) (Z.land x z)) (Z.land y z).
Definition Sigma0 x := Z.lxor (Z.lxor (rotr 2 x) (rotr 13 x)) (rotr 22 x).
Definition Sigma1 x := Z.lxor (Z.lxor (rotr 6 x) (rotr 11 x)) (rotr 25 x).
Definition sigma0 x := Z.lxor (Z.lxor (rotr 7 x) (rotr 18 x)) (shr 3 x).
Definition sigma1 x := Z.lxor (Z.lxor (rotr 17 x) (rotr 19 x)) (shr 10 x).

(** The round constants and the initial hash value of FIPS 180-4, in
    decimal. *)
Definition K : list Z :=
  [1116352408; 1899447441; 3049323471; 3921009573;
   961987163; 1508970993; 2453635748; 2870763221;
   3624381080; 310598401; 607225278; 1426881987;
   1925078388; 2162078206; 2614888103; 3248222580;
   3835390401; 4022224774; 264347078; 604807628;
   770255983; 1249150122; 1555081692; 1996064986;
   2554220882; 2821834349; 2952996808; 3210313671;
   3336571891; 3584528711; 113926993; 338241895;
   666307205; 773529912; 1294757372; 1396182291;
   1695183700; 1986661051; 2177026350; 2456956037;
   2730485921; 2820302411; 3259730800; 3345764771;
   3516065817; 3600352804; 4094571909; 275423344;
   430227734; 506948616; 659060556; 883997877;
   958139571; 1322822218; 1537002063; 1747873779;
   1955562222; 2024104815; 2227730452; 2361852424;
   2428436474; 2756734187; 3204031479; 3329325298].

Definition H0 : list Z :=
  [1779033703; 3144134277; 1013904242; 2773480762;
   1359893119; 2600822924; 528734635; 1541459225].

(** The big-endian bytes of a word of [w] bytes. *)
Fixpoint be_bytes (w : nat) (x : Z) : list Z :=
  match w with
  | O => []
  | S w' => (Z.shiftr x (8 * Z.of_nat w')) mod 256 :: be_bytes w' x
  end.

Definition pad (msg : list Z) : list Z :=
  let len := Z.of_nat (length msg) in
  let zeros := Z.to_nat ((55 - len) mod 64) in
  msg ++ [128] ++ repeat 0 zeros ++ be_bytes 8 (8 * len).

Fixpoint words (bytes : list Z) (n : nat) : list Z :=
  match n, bytes with
  | S n', a :: b :: c :: d :: rest => (((a * 256 + b) * 256 + c) * 256 + d) :: words rest n'
  | _, _ => []
  end.

(** The message schedule, most recent word first. *)
Fixpoint schedule (n : nat) (rev_w : list Z) : list Z :=
  match n with
  | O => rev_w
  | S n' =>
      let w2 := nth 1 rev_w 0 in
      let w7 := nth 6 rev_w 0 in
      let w15 := nth 14 rev_w 0 in
      let w16 := nth 15 rev_w 0 in
      schedule n' (w32 (sigma1 w2 + w7 + sigma0 w15 + w16) :: rev_w)
  end.

Definition round (st : list Z) (kw : Z * Z) : list Z :=
  match st with
  | [a; b; c; d; e; f; g; h] =>
      let t1 := w32 (h + Sigma1 e + Ch e f g + fst kw + snd kw) in
      let t2 := w32 (Sigma0 a + Maj a b c) in
      [w32 (t1 + t2); a; b; c; w32 (d + t1); e; f; g]
  | _ => st
  end.

Definition compress (h : list Z) (block : list Z) : list Z :=
  let w := rev (schedule 48 (rev (words block 16))) in
  let st := fold_left round (combine K w) h in
  map (fun p => w32 (fst p + snd p)) (combine h st).

Fixpoint blocks (n : nat) (bytes : list Z) (h : list Z) : list Z :=
  match n with
  | O => h
  | S n' =>
      match bytes with
      | [] => h
      | _ => blocks n' (skipn 64 bytes) (compress h (firstn 64 bytes))
      end
  end.

Definition sha256 (msg : list Z) : list Z :=
  let p := pad msg in
  flat_map (be_bytes 4) (blocks (length p) p H0).

Definition hmac (key msg : list Z) : list Z :=
  let key := if (64 <? length key)%nat then sha256 key else key in
  let key := key ++ repeat 0 (64 - length key) in
  sha256 (map (Z.lxor 92) key ++ sha256 (map (Z.lxor 54) key ++ msg)).

Definition hex_digit (n : Z) : ascii :=
  ascii_of_N (Z.to_N (if n <? 10 then 48 + n else 87 + n)).

Definition hex (bytes : list Z) : string :=
  string_of_list_ascii (flat_map (fun b => [hex_digit (b / 16); hex_digit (b mod 16)]) bytes).

End SHA256.

Module JSONText.

Definition code (c : ascii) : Z := Z.of_N (N_of_ascii c).

Definition char (n : Z) : ascii := ascii_of_N (Z.to_N n).

Fixpoint skip_ws (s : string) : string :=
  match s with
  | String c s' =>
      if existsb (Z.eqb (code c)) [32; 9; 10; 13] then skip_ws s' else s
  | EmptyString => s
  end.

(** What follows the literal [lit] at the head of [s]. *)
Definition after (lit s : string) : option string :=
  if String.prefix lit s then Some (JSString.drop (String.length lit) s) else None.

(** The characters of a string up to the closing quote, escapes decoded. *)
Fixpoint chars (s : string) : option (string * string) :=
  match s with
  | EmptyString => None
  | String c s' =>
      let put (d : ascii) (r : option (string * string)) :=
        match r with
        | Some (t, rest) => Some (String d t, rest)
        | None => None
        end in
      if code c =? 34 then Some (EmptyString, s')
      else if code c <? 32 then None
      else if code c =? 92 then
        match s' with
        | String e s'' =>
            if existsb (Z.eqb (code e)) [34; 92; 47] then put e (chars s'')
            else if code e =? 98 then put (char 8) (chars s'')
            else if code e =? 102 then put (char 12) (chars s'')
            else if code e =? 110 then put (char 10) (chars s'')
            else if code e =? 114 then put (char 13) (chars s'')
            else if code e =? 116 then put (char 9) (chars s'')
            else if code e =? 117 then
              match s'' with
              | String h1 (String h2 (String h3 (String h4 rest))) =>
                  match digit_value 16 h1, digit_value 16 h2,
                        digit_value 16 h3, digit_value 16 h4 with
                  | Some 0, Some 0, Some d3, Some d4 =>
                      put (char (16 * d3 + d4)) (chars rest)
                  | _, _, _, _ => None
                  end
              | _ => None
              end
            else None
        | EmptyString => None
        end
      else put c (chars s')
  end.

(** An integer: a sign, then 0 or a run of digits that does not start with
    0, and neither a fraction nor an exponent after it. *)
Definition number (s : string) : option (JSValue * string) :=
  let '(sign, s) := match s with
                    | String "-" s' => (-1, s')
                    | _ => (1, s)
                    end in
  let digits := (fix run (s : string) : string :=
                   match s with
                   | String c s' =>
                       match digit_value 10 c with
                       | Some _ => String c (run s')
                       | None => EmptyString
                       end
                   | EmptyString => EmptyString
                   end) s in
  let rest := JSString.drop (String.length digits) s in
  match digits, rest with
  | EmptyString, _ => None
  | String "0" (String _ _), _ => None
  | _, String "." _ | _, String "e" _ | _, String "E" _ => None
  | _, _ =>
      match parse_digits 10 digits None with
      | Some v => Some (JNum (sign * v), rest)
      | None => None
      end
  end.

(** An array index as a property name, and the order of own properties:
    the indices in ascending order, then the other names as inserted. *)
Definition index_of (name : string) : option Z :=
  match number name with
  | Some (JNum n, EmptyString) =>
      if (0 <=? n) && (n <? 4294967295) && String.eqb (Z_to_string n) name
      then Some n else None
  | _ => None
  end.

Fixpoint insert_index (n : Z) (p : string * JSValue) (l : list (Z * (string * JSValue)))
  : list (Z * (string * JSValue)) :=
  match l with
  | [] => [(n, p)]
  | (m, q) :: l' => if n <? m then (n, p) :: l else (m, q) :: insert_index n p l'
  end.

Definition property_order (props : list (string * JSValue)) : list (string * JSValue) :=
  let indexed := fold_left (fun acc p =>
                              match index_of (fst p) with
                              | Some n => insert_index n p acc
                              | None => acc
                              end) props [] in
  map snd indexed
  ++ filter (fun p => index_of (fst p) = None) props.

Fixpoint value (fuel : nat) (s : string) : option (JSValue * string) :=
  match fuel with
  | O => None
  | S fuel' =>
      match skip_ws s with
      | String c s' =>
          if code c =? 34 then
            match chars s' with
            | Some (t, rest) => Some (JStr t, rest)
            | None => None
            end
          else if code c =? 91 then
            match skip_ws s' with
            | String "]" rest => Some (JArr [], rest)
            | s1 =>
                match (fix elements (n : nat) (s : string)
                         : option (list JSValue * string) :=
                         match n with
                         | O => None
                         | S n' =>
                             match value fuel' s with
                             | Some (v, r) =>
                                 match skip_ws r with
                                 | String "," r' =>
                                     match elements n' r' with
                                     | Some (vs, r'') => Some (v :: vs, r'')
                                     | None => None
                                     end
                                 | String "]" r' => Some ([v], r')
                                 | _ => None
                                 end
                             | None => None
                             end
                         end) fuel' s1 with
                | Some (vs, rest) => Some (JArr vs, rest)
                | None => None
                end
            end
          else if code c =? 123 then
            match skip_ws s' with
            | String "}" rest => Some (JObj [], rest)
            | s1 =>
                match (fix members (n : nat) (s : string) (acc : list (string * JSValue))
                         : option (list (string * JSValue) * string) :=
                         match n with
                         | O => None
                         | S n' =>
                             match skip_ws s with
                             | String q s2 =>
                                 if code q =? 34 then
                                   match chars s2 with
                                   | Some (k, r) =>
                                       match skip_ws r with
                                       | String ":" r1 =>
                                           match value fuel' r1 with
                                           | Some (v, r2) =>
                                               let acc := Map_set k v acc in
                                               match skip_ws r2 with
                                               | String "," r3 => members n' r3 acc
                                               | String "}" r3 => Some (acc, r3)
                                               | _ => None
                                               end
                                           | None => None
                                           end
                                       | _ => None
                                       end
                                   | None => None
                                   end
                                 else None
                             | EmptyString => None
                             end
                         end) fuel' s1 [] with
                | Some (props, rest) => Some (JObj (property_order props), rest)
                | None => None
                end
            end
          else
            match after "true" (String c s'), after "false" (String c s'),
                  after "null" (String c s') with
            | Some rest, _, _ => Some (JBool true, rest)
            | _, Some rest, _ => Some (JBool false, rest)
            | _, _, Some rest => Some (JNull, rest)
            | _, _, _ => number (String c s')
            end
      | EmptyString => None
      end
  end.

Definition parse (text : string) : result JSValue :=
  match value (S (String.length text)) text with
  | Some (v, rest) =>
      match skip_ws rest with
      | EmptyString => Ok v
      | _ => Throw SyntaxError
      end
  | None => Throw SyntaxError
  end.

End JSONText.

Module Sample.

Definition hmac_sha256_hex (key data : string) : string :=
  SHA256.hex (SHA256.hmac (Buffer_from key) (Buffer_from data)).

(** [JSON.stringify] on strings: quotes, and escapes for the quote, the
    backslash and the control characters. *)
Definition escape (c : ascii) : string :=
  let n := Z.of_N (N_of_ascii c) in
  if n =? 34 then "\" +:+ String c EmptyString
  else if n =? 92 then "\\"
  else if n =? 8 then "\b"
  else if n =? 12 then "\f"
  else if n =? 10 then "\n"
  else if n =? 13 then "\r"
  else if n =? 9 then "\t"
  else if n <? 32 then "\u00" +:+ SHA256.hex [n]
  else String c EmptyString.

Fixpoint quote_chars (s : string) : string :=
  match s with
  | EmptyString => EmptyString
  | String c s' => escape c +:+ quote_chars s'
  end.

Definition double_quote : string := String (ascii_of_N 34) EmptyString.

Definition quote (s : string) : string :=
  double_quote +:+ quote_chars s +:+ double_quote.

Fixpoint stringify (v : JSValue) : option string :=
  match v with
  | JUndefined => None
  | JNull => Some "null"
  | JBool true => Some "true"
  | JBool false => Some "false"
  | JNum n => Some (Z_to_string n)
  | JStr s => Some (quote s)
  | JArr items =>
      Some ("[" +:+ join ","
              ((fix elements (l : list JSValue) : list string :=
                  match l with
                  | [] => []
                  | x :: l' => default "null" (stringify x) :: elements l'
                  end) items) +:+ "]")
  | JObj props =>
      Some ("{" +:+ join ","
              ((fix members (l : list (string * JSValue)) : list string :=
                  match l with
                  | [] => []
                  | (k, x) :: l' =>
                      match stringify x with
                      | Some s => (quote k +:+ ":" +:+ s) :: members l'
                      | None => members l'
                      end
                  end) props) +:+ "}")
  end.

Definition decimal_value (s : string) : option Z :=
  if forallb (fun c => match digit_value 10 c with Some _ => true | None => false end)
             (list_ascii_of_string s)
  then parse_digits 10 s None
  else None.

#[global] Instance runtime : Runtime := {|
  createHmac_sha256_hex := hmac_sha256_hex;
  JSON_stringify := stringify;
  JSON_parse := JSONText.parse;
  StringToNumber_gt := fun s n =>
    match decimal_value s with
    | Some v => v >? n
    | None => false
    end;
  error_message := fun e =>
    match e with
    | GenericError message => message
    | _ => "error"
    end;
|}.

(** Every remote service answers 200 with an issue numbered 7; what is
    not an address is refused. *)
#[global] Instance world : World := {|
  fetch_response := fun _ url _ =>
    if String.prefix "https://" url then
      Ok {| resp_ok := true; resp_status := 200;
            resp_json := JObj [("number", JNum 7);
                               ("html_url", JStr "https://github.com/o/r/issues/7")];
            resp_text := "ok" |}
    else Throw TypeError;
|}.

Definition reply (t : string) : Eff JSValue :=
  mret (JObj [("response_type", JStr "in_channel"); ("text", JStr t)]).

#[global] Instance commands : SlackCommands.Commands := {|
  SlackCommands.handleBugCommand := fun _ _ => reply "bug filed";
  SlackCommands.handleFeatureCommand := fun _ _ => reply "feature filed";
  SlackCommands.handleAskClaudeCommand := fun _ _ => reply "answer";
  SlackCommands.handleBugStatusCommand := fun _ => reply "status";
  SlackCommands.handleDeployCommand := fun _ _ => reply "confirm deploy";
  SlackCommands.handleApprovePRCommand := fun _ _ => reply "approved";
|}.

#[global] Instance actions : SlackActions.Actions := {|
  SlackActions.handleTriggerAIAnalysis := fun _ => reply "analysis started";
  SlackActions.handleApproveMergePR := fun _ _ => reply "merged";
  SlackActions.handleRejectPR := fun _ _ => reply "closed";
  SlackActions.handleConfirmDeploy := fun _ _ => reply "deploying";
  SlackActions.handleAcknowledgeIncident := fun _ _ => reply "acknowledged";
  SlackActions.handleAddToRoadmap := fun _ => reply "on the roadmap";
|}.

(** A slash command as the platform delivers it. *)
Definition secret : string := "8f742231b10e8888abcd99yyyzzz85a5".

Definition env : Env := {[ "SLACK_SIGNING_SECRET" := secret ]}.

Definition command_body : JSValue :=
  JObj [("command", JStr "/deploy"); ("text", JStr EmptyString); ("user_name", JStr "ada");
        ("response_url", JStr "https://hooks.slack.com/commands/1234")].

Definition now : Z := 1712000100.

Definition timestamp : string := "1712000000".

Definition signed (timestamp signature : string) : Request :=
  {| req_method := "POST";
     req_headers := {[ "x-slack-request-timestamp" := timestamp;
                       "x-slack-signature" := signature ]};
     req_body := command_body |}.

Definition unsigned (method : string) (body : JSValue) : Request :=
  {| req_method := method; req_headers := ∅; req_body := body |}.

(** The signature of the command at [timestamp] under [secret], and the
    same with its last digit changed. *)
Definition good_signature : string :=
  "v0=05d34cbef7617b7a8eb65809d1e042a0abe16dd90d48452049c5a5dfa86d03b0".

Definition forged_signature : string :=
  "v0=05d34cbef7617b7a8eb65809d1e042a0abe16dd90d48452049c5a5dfa86d03b1".

(** The form parser of the platform: fields separated by [&], name and
    value by [=], [%XX] and [+] decoded. *)
Fixpoint percent_decode (s : string) : string :=
  match s with
  | String "%" (String h1 (String h2 rest)) =>
      match digit_value 16 h1, digit_value 16 h2 with
      | Some d1, Some d2 => String (JSONText.char (16 * d1 + d2)) (percent_decode rest)
      | _, _ => String "%" (String h1 (String h2 (percent_decode rest)))
      end
  | String "+" rest => String " " (percent_decode rest)
  | String c rest => String c (percent_decode rest)
  | EmptyString => EmptyString
  end.

(** The pieces of [s] between occurrences of [sep]; [piece] is the piece
    being read, in reverse. *)
Fixpoint split_on (sep : ascii) (s : string) (piece : list ascii) : list string :=
  match s with
  | EmptyString => [string_of_list_ascii (rev piece)]
  | String c rest =>
      if Ascii.eqb c sep then string_of_list_ascii (rev piece) :: split_on sep rest []
      else split_on sep rest (c :: piece)
  end.

(** [s] up to the first [sep], and what follows it. *)
Fixpoint cut_at (sep : ascii) (s : string) : string * option string :=
  match s with
  | EmptyString => (EmptyString, None)
  | String c rest =>
      if Ascii.eqb c sep then (EmptyString, Some rest)
      else let '(head, tail) := cut_at sep rest in (String c head, tail)
  end.

Definition form_field (field : string) : string * JSValue :=
  let '(name, value) := cut_at "=" field in
  (percent_decode name, JStr (percent_decode (default EmptyString value))).

Definition form_decode (raw : string) : JSValue :=
  JObj (fold_left (fun props field => let '(name, value) := form_field field in
                                      Map_set name value props)
                  (split_on "&" raw []) []).

(** The same command as the platform receives it, form-encoded, and the
    signature of that text at [timestamp] under [secret]. *)
Definition raw_body : string :=
  "command=%2Fdeploy&text=&user_name=ada&response_url=https%3A%2F%2Fhooks.slack.com%2Fcommands%2F1234".

Definition slack_signature : string :=
  "v0=620a5224f30fd9219b8982500f1f7bedc13852a4dcc71b876e523d10f7b780d6".

(** [good_signature] with the top bit of its last byte flipped. *)
Definition flipped_signature : string :=
  JSString.take 66 good_signature +:+ String (ascii_of_N 176) EmptyString.

(** A button click. *)
Definition action_body : JSValue :=
  JObj [("actions", JArr [JObj [("action_id", JStr "cancel_deploy");
                                ("value", JStr "{}")]]);
        ("user", JObj [("name", JStr "ada")]);
        ("response_url", JStr "https://hooks.slack.com/actions/1234")].

(** The same click as the platform delivers it, in the field [payload] of
    a form. *)
Definition action_form : JSValue :=
  JObj [("payload", JStr (default EmptyString (stringify action_body)))].

(** Two reports of different type and message, and two reports of the same
    error at different times. *)
Definition report (type message timestamp : string) : JSValue :=
  JObj [("type", JStr type); ("message", JStr message);
        ("severity", JStr "error"); ("timestamp", JStr timestamp)].

Definition report_body (errors : list JSValue) : JSValue :=
  JObj [("errors", JArr errors);
        ("environment", JObj [("url", JStr "https://app.example/")]);
        ("errorCount", JNum (Z.of_nat (length errors)))].

Definition notifier_env : Env :=
  {[ "SLACK_WEBHOOK_URL" := "https://hooks.slack.com/services/T0/B0/x" ]}.

Definition tracker_env : Env :=
  {[ "GITHUB_TOKEN" := "ghp_token"; "GITHUB_OWNER" := "o"; "GITHUB_REPO" := "r" ]}.

Definition clock : SlackNotify.Clock :=
  {| SlackNotify.toLocaleDateString := "4/1/2024";
     SlackNotify.toISOString := "2024-04-01T19:35:00.000Z" |}.

End Sample.

(** ** Vocabulary of the properties *)

Section Vocabulary.

Context `{Runtime} `{World}.

(** *** Traces *)

Definition is_Respond (e : Effect) : bool :=
  match e with Respond _ _ => true | _ => false end.

Definition is_Fetch (e : Effect) : bool :=
  match e with Fetch _ _ => true | _ => false end.

Definition is_ConsoleError (e : Effect) : bool :=
  match e with ConsoleError _ => true | _ => false end.

Definition cors_headers : list Effect :=
  [SetHeader "Access-Control-Allow-Origin" "*";
   SetHeader "Access-Control-Allow-Methods" "POST, OPTIONS";
   SetHeader "Access-Control-Allow-Headers" "Content-Type"].

(** The requests made for a group of reports: the issue, and the
    notification when a webhook is configured. *)
Definition requests_per_issue (env : Env) : nat :=
  if absent (env !! "SLACK_WEBHOOK_URL") then 1 else 2.

(** *** Groups of reports *)

(** The distinct elements of a list in the order of their first
    occurrence. *)
Definition first_occurrences (ks : list string) : list string :=
  fold_left (fun acc k => if bool_decide (k ∈ acc) then acc else acc ++ [k]) ks [].

(** The first of [errors] whose key, listed in [ks], is [key]. *)
Fixpoint first_report (key : string) (errors : list JSValue) (ks : list string)
  : option JSValue :=
  match errors, ks with
  | err :: errors', k :: ks' =>
      if String.eqb k key then Some err else first_report key errors' ks'
  | _, _ => None
  end.

Definition occurrences (key : string) (ks : list string) : Z :=
  Z.of_nat (count_occ String.string_dec ks key).

(** What the grouping loop has built from the reports [errors] with keys
    [ks]: one group per distinct key, in the order in which the keys first
    occur, made of the first report of the key and the number of reports
    of the key. *)
Definition grouped_as (groups : list (string * JSValue))
           (errors : list JSValue) (ks : list string) : Prop :=
  keys groups = first_occurrences ks /\
  forall k group, Map_get k groups = Some group ->
    exists err, first_report k errors ks = Some err /\
      group = JObj (Map_set "count" (JNum (occurrences k ks)) (ReportError.own_properties err)).

(** *** Feedback *)

(** The address of the tracker's issues. *)
Definition issues_url (owner repo : string) : string :=
  "https://api.github.com/repos/" +:+ owner +:+ "/" +:+ repo +:+ "/issues".

(** The request for a piece of feedback: a bug report when its type is
    "bug", a feature request otherwise. *)
Definition feedback_request (feedback : JSValue) : result JSValue :=
  match get_prop feedback "type" with
  | Ok type =>
      if is_string type "bug" then SubmitFeedback.bug_request feedback
      else SubmitFeedback.feature_request feedback
  | Throw e => Throw e
  end.

(** *** Buttons *)

(** The buttons of a message: the [action_id] and the [value] of every
    element of its blocks. *)
Definition element_entry (element : JSValue) : list (string * JSValue) :=
  match get_prop element "action_id", get_prop element "value" with
  | Ok (JStr action_id), Ok value => [(action_id, value)]
  | _, _ => []
  end.

Definition block_buttons (block : JSValue) : list (string * JSValue) :=
  match get_prop block "elements" with
  | Ok (JArr elements) => flat_map element_entry elements
  | _ => []
  end.

Definition button_values (message : JSValue) : list (string * JSValue) :=
  match get_prop message "blocks" with
  | Ok (JArr blocks) => flat_map block_buttons blocks
  | _ => []
  end.

(** The address that starts the deployment workflow. *)
Definition dispatches_url (env : Env) : string :=
  "https://api.github.com/repos/" +:+ env_text (env !! "GITHUB_OWNER") +:+ "/"
  +:+ env_text (env !! "GITHUB_REPO") +:+ "/actions/workflows/deploy.yml/dispatches".

(** The address of the issues of the tracker that the commands use. *)
Definition tracker_issues_url (env : Env) : string :=
  issues_url (env_text (env !! "GITHUB_OWNER")) (env_text (env !! "GITHUB_REPO")).

(** *** Events of the chat *)

(** A property read as the code reads it where that cannot throw. *)
Definition prop (v : JSValue) (name : string) : JSValue :=
  match get_prop v name with
  | Ok x => x
  | Throw _ => JUndefined
  end.

(** The events the chat endpoint answers: a mention of the bot or a
    direct message, not sent by a bot. *)
Definition addressed (event : JSValue) : bool :=
  truthy event
  && (is_string (prop event "type") "app_mention"
      || is_string (prop event "channel_type") "im")
  && negb (truthy (prop event "bot_id")).

(** Every character of [s] satisfies [p]. *)
Fixpoint all_chars (p : ascii -> bool) (s : string) : bool :=
  match s with
  | EmptyString => true
  | String c s' => p c && all_chars p s'
  end.

(** *** The logger *)

(** The errors handed to [captureError] in the course of [events]. *)
Definition captured (events : list ErrorLogger.Event) : list JSValue :=
  flat_map (fun event => match event with
                         | ErrorLogger.Capture _ errorData => [errorData]
                         | _ => []
                         end) events.

(** Every error is captured within a minute of [start]. *)
Definition within_a_minute (start : Z) (events : list ErrorLogger.Event) : Prop :=
  Forall (fun event => match event with
                       | ErrorLogger.Capture now _ => now - start <= 60000
                       | _ => True
                       end) events.

(** A payload as [flushErrors] builds it. *)
Definition well_formed (payload : JSValue) : Prop :=
  exists errors environment,
    errors <> [] /\
    payload = JObj [("errors", JArr errors); ("environment", environment);
                    ("errorCount", JNum (Z.of_nat (length errors)))].

End Vocabulary.

(** ** More sample data *)

Module Sample2.
(** A cache that is full: a hundred threads of one exchange each. *)
Definition hundred_threads : list (string * string * option string) :=
  map (fun i => (JSString.replicate i "k", "hello", Some "hi")) (seq 1 100).
End Sample2.

(** The value of a normal completion. *)
Definition value_or {A : Type} (d : A) (r : result A) : A :=
  match r with
  | Ok a => a
  | Throw _ => d
  end.

Module Sample3.

(** Three reports, two of them of the same error. *)
Definition three_reports : list JSValue :=
  [Sample.report "TypeError" "x is undefined" "2024-04-01T19:35:00.000Z";
   Sample.report "RangeError" "too deep" "2024-04-01T19:35:01.000Z";
   Sample.report "TypeError" "x is undefined" "2024-04-01T19:35:02.000Z"].

Definition report_request : Request :=
  Sample.unsigned "POST" (Sample.report_body three_reports).

(** A notification of a bug with its issue. *)
Definition bug_data : JSValue :=
  JObj [("title", JStr "Player stops after the first video");
        ("severity", JStr "high");
        ("issueUrl", JStr "https://github.com/o/r/issues/7");
        ("issueNumber", JNum 7)].

Definition notify_request : Request :=
  Sample.unsigned "POST" (JObj [("type", JStr "bug"); ("data", bug_data)]).

(** A pull request without a description. *)
Definition pr_data : JSValue :=
  JObj [("prNumber", JNum 12); ("title", JStr "Fix the player");
        ("prUrl", JStr "https://github.com/o/r/pull/12")].

(** A bug reported through the feedback form. *)
Definition feedback : JSValue :=
  JObj [("type", JStr "bug"); ("title", JStr "Player stops after the first video");
        ("description", JStr "The second video never starts.");
        ("severity", JStr "high")].

Definition feedback_request : Request := Sample.unsigned "POST" feedback.

(** A deployment asked for by ada. *)
Definition deploy_value : string :=
  default EmptyString
    (Sample.stringify (JObj [("branch", JStr "staging"); ("requestedBy", JStr "ada")])).

Definition ada : JSValue := JObj [("name", JStr "ada")].

Definition issue_value : string :=
  default EmptyString (Sample.stringify (JObj [("issueNumber", JNum 7)])).

(** A mention of the bot in a channel, and a continuation that posts the
    text back. *)
Definition mention : Request :=
  Sample.unsigned "POST"
    (JObj [("type", JStr "event_callback");
           ("event", JObj [("type", JStr "app_mention"); ("text", JStr "<@U024BE7LH> hello");
                           ("channel", JStr "C024BE91L"); ("ts", JStr "1712.0001")])]).

Definition post_back (text : string) (channel threadTs : JSValue) (key : string)
  : Eff unit :=
  _ ← fetch "https://slack.com/api/chat.postMessage"
        (JObj [("channel", channel); ("text", JStr text); ("thread_ts", threadTs)]);
  mret tt.

(** The page as the logger sees it, a burst of twelve errors within a
    second and the flush of the timer, and three errors followed by the
    flush on leaving the page. *)
Definition page : JSValue := JObj [("url", JStr "https://app.example/")].

Definition burst : list ErrorLogger.Event :=
  map (fun i => ErrorLogger.Capture (1712000000000 + 80 * Z.of_nat i)
                  (Sample.report "TypeError" "x is undefined" (Z_to_string (Z.of_nat i))))
      (seq 0 12)
  ++ [ErrorLogger.TimerFires page].

Definition leaving : list ErrorLogger.Event :=
  map (ErrorLogger.Capture 1712000000500) three_reports ++ [ErrorLogger.Flush page].

End Sample3.

(* ================================================================== *)
(** * Part II. Properties                                              *)
(* ================================================================== *)

(** A closed statement about sample inputs is settled by evaluating the
    embedding. *)
Ltac evaluate :=
  intros;
  repeat match goal with
         | |- _ /\ _ => split
         | |- exists _, _ => eexists
         end;
  vm_compute; first [reflexivity | discriminate | lia].

(** ** Strings *)

Section StringFacts.

Lemma str_length_nonneg s : 0 <= JSString.length s.
Proof. unfold JSString.length. lia. Qed.

Lemma str_append_cons c s t : String c s +:+ t = String c (s +:+ t).
Proof. reflexivity. Qed.

Lemma str_append_nil_l t : EmptyString +:+ t = t.
Proof. reflexivity. Qed.

Lemma str_append_nil_r s : s +:+ EmptyString = s.
Proof.
  induction s as [|c s IH]; [reflexivity|]. now rewrite str_append_cons, IH.
Qed.

Lemma str_append_assoc s t u : (s +:+ t) +:+ u = s +:+ (t +:+ u).
Proof.
  induction s as [|c s IH]; [reflexivity|]. now rewrite !str_append_cons, IH.
Qed.

Lemma str_length_append s t :
  String.length (s +:+ t) = (String.length s + String.length t)%nat.
Proof.
  induction s as [|c s IH]; [reflexivity|].
  rewrite str_append_cons. simpl. now rewrite IH.
Qed.

Lemma str_take_drop n s : JSString.take n s +:+ JSString.drop n s = s.
Proof.
  revert s. induction n as [|n IH]; intros [|c s]; simpl; try reflexivity.
  now rewrite str_append_cons, IH.
Qed.

Lemma str_length_take n s :
  String.length (JSString.take n s) = Nat.min n (String.length s).
Proof.
  revert s. induction n as [|n IH]; intros [|c s]; simpl; try reflexivity.
  now rewrite IH.
Qed.

Lemma str_length_drop n s :
  String.length (JSString.drop n s) = (String.length s - n)%nat.
Proof.
  revert s. induction n as [|n IH]; intros [|c s]; simpl; try reflexivity.
  apply IH.
Qed.

Lemma str_take_all n s : (String.length s <= n)%nat -> JSString.take n s = s.
Proof.
  revert s. induction n as [|n IH]; intros [|c s]; simpl; intros H;
    try reflexivity; try lia.
  f_equal. apply IH. lia.
Qed.

Lemma str_drop_0 s : JSString.drop 0 s = s.
Proof. now destruct s. Qed.

(** [substring(0, n)] and [substring(n)] for an index inside the string. *)
Lemma substring_prefix s n :
  0 <= n <= JSString.length s ->
  JSString.substring s 0 n = JSString.take (Z.to_nat n) s.
Proof.
  intros H. unfold JSString.substring.
  rewrite Z.max_id, (Z.min_l 0) by apply str_length_nonneg.
  rewrite (Z.max_l n 0), (Z.min_l n) by lia.
  rewrite Z.min_l, Z.max_r by lia.
  now rewrite Z.sub_0_r, str_drop_0.
Qed.

Lemma substring_suffix s n :
  0 <= n <= JSString.length s ->
  JSString.substring_from s n = JSString.drop (Z.to_nat n) s.
Proof.
  intros H. unfold JSString.substring_from, JSString.substring.
  rewrite (Z.max_l n 0), (Z.min_l n) by lia.
  rewrite (Z.max_l (JSString.length s)), Z.min_id by lia.
  rewrite Z.min_l, Z.max_r by lia.
  apply str_take_all. rewrite str_length_drop. unfold JSString.length in *. lia.
Qed.

End StringFacts.

(** ** Truncation *)

Section Truncation.

Context `{Runtime}.

Lemma truncate_short s n :
  JSString.length s <= n -> truncate (JStr s) n = Ok (JStr s).
Proof.
  intros Hle. unfold truncate. simpl.
  destruct (String.eqb_spec s EmptyString) as [->|_]; [reflexivity|]. simpl.
  destruct (Z.gtb_spec (JSString.length s) n); [lia | reflexivity].
Qed.

Lemma truncate_long s n :
  0 <= n < JSString.length s ->
  truncate (JStr s) n = Ok (JStr (JSString.take (Z.to_nat n) s +:+ "...")).
Proof.
  intros Hlt. unfold truncate. simpl.
  destruct (String.eqb_spec s EmptyString) as [->|_].
  - unfold JSString.length in Hlt. simpl in Hlt. lia.
  - simpl. destruct (Z.gtb_spec (JSString.length s) n); [|lia].
    rewrite substring_prefix by lia. reflexivity.
Qed.

End Truncation.

Lemma drop_append_exact s t n :
  String.length s = n -> JSString.drop n (s +:+ t) = t.
Proof.
  revert n. induction s as [|c s IH]; intros n <-; [apply str_drop_0|].
  rewrite str_append_cons. simpl. now apply IH.
Qed.

(** C9. For every string [s] and limit [n]: a string of length at most [n]
    is returned unchanged; one longer than the (non-negative) limit becomes
    its first [n] characters followed by "...", of length [n + 3]. A
    300-character title cut at 60 is 63 characters long and ends in "...". *)
Theorem truncate_spec `{Runtime} :
  (forall s n, JSString.length s <= n -> truncate (JStr s) n = Ok (JStr s)) /\
  (forall s n, 0 <= n < JSString.length s ->
     exists t, truncate (JStr s) n = Ok (JStr t) /\
               t = JSString.take (Z.to_nat n) s +:+ "..." /\
               JSString.length t = n + 3) /\
  (forall s, JSString.length s = 300 ->
     exists t, truncate (JStr s) 60 = Ok (JStr t) /\
               JSString.length t = 63 /\
               JSString.drop 60 t = "...").
Proof.
  split; [exact truncate_short|]. split.
  - intros s n Hn. eexists. split; [now apply truncate_long|].
    split; [reflexivity|].
    unfold JSString.length in *. rewrite str_length_append, str_length_take.
    simpl String.length. lia.
  - intros s Hs. eexists. split; [apply truncate_long; lia|]. split.
    + unfold JSString.length in *. rewrite str_length_append, str_length_take.
      simpl String.length. lia.
    + apply drop_append_exact. rewrite str_length_take.
      unfold JSString.length in Hs. lia.
Qed.

(** A short title is kept, a long one is cut, and a title of 300 letters
    cut at 60 has 63 characters. *)
Lemma truncate_spec_witness :
  truncate (JStr "Video") 60 = Ok (JStr "Video") /\
  truncate (JStr "Video will not pause") 5 = Ok (JStr "Video...") /\
  exists t, truncate (JStr (JSString.replicate 300 "a")) 60 = Ok (JStr t) /\
            JSString.length t = 63 /\ JSString.drop 60 t = "...".
Proof.
  destruct (@truncate_spec Sample.runtime) as (Hshort & Hlong & Htitle).
  split; [|split].
  - apply (Hshort "Video" 60). vm_compute. discriminate.
  - destruct (Hlong "Video will not pause" 5) as (t & Ht & -> & _);
      [vm_compute; split; [discriminate | reflexivity] | exact Ht].
  - apply (Htitle (JSString.replicate 300 "a")). vm_compute. reflexivity.
Defined.

(** ** Splitting a reply into chunks *)

Section Splitting.

Import SlackClaude.

Lemma lastIndexOf_down_eq s search k :
  JSString.lastIndexOf_down s search k =
  if String.prefix search (JSString.drop k s) then Z.of_nat k
  else match k with
       | O => -1
       | S k' => JSString.lastIndexOf_down s search k'
       end.
Proof. destruct k; reflexivity. Qed.

Lemma lastIndexOf_down_range s search k :
  -1 <= JSString.lastIndexOf_down s search k <= Z.of_nat k.
Proof.
  induction k as [|k IH]; rewrite lastIndexOf_down_eq;
    destruct (String.prefix search _); lia.
Qed.

Lemma lastIndexOf_down_found s search k r :
  JSString.lastIndexOf_down s search k = r -> 0 <= r ->
  JSString.occurs_at s search (Z.to_nat r) /\
  forall i, (Z.to_nat r < i <= k)%nat -> ~ JSString.occurs_at s search i.
Proof.
  revert r. induction k as [|k IH]; intros r Hr Hpos;
    rewrite lastIndexOf_down_eq in Hr;
    destruct (String.prefix search _) eqn:E.
  - subst r. split; [exact E | intros i Hi; lia].
  - lia.
  - subst r. rewrite Nat2Z.id. split; [exact E | intros i Hi; lia].
  - destruct (IH r Hr Hpos) as [Hocc Hnone]. split; [exact Hocc|].
    intros i Hi. destruct (Nat.eq_dec i (S k)) as [->|Hne].
    + unfold JSString.occurs_at. rewrite E. discriminate.
    + apply Hnone. lia.
Qed.

Lemma lastIndexOf_down_none s search k :
  JSString.lastIndexOf_down s search k = -1 ->
  forall i, (i <= k)%nat -> ~ JSString.occurs_at s search i.
Proof.
  induction k as [|k IH]; rewrite lastIndexOf_down_eq;
    destruct (String.prefix search _) eqn:E;
    intros Hr i Hi; try lia.
  - assert (i = 0%nat) as -> by lia. unfold JSString.occurs_at. rewrite E. discriminate.
  - destruct (Nat.eq_dec i (S k)) as [->|Hne].
    + unfold JSString.occurs_at. rewrite E. discriminate.
    + apply IH; [assumption | lia].
Qed.

Lemma prefix_single a t :
  String.prefix (String a EmptyString) t =
  match t with
  | String c _ => if ascii_dec a c then true else false
  | EmptyString => false
  end.
Proof.
  destruct t as [|c t]; [reflexivity|]. cbn [String.prefix].
  destruct (ascii_dec a c); [now destruct t | reflexivity].
Qed.

Lemma get_drop i s :
  String.get i s =
  match JSString.drop i s with
  | String c _ => Some c
  | EmptyString => None
  end.
Proof.
  revert s. induction i as [|i IH]; intros [|c s]; simpl; try reflexivity.
  apply IH.
Qed.

(** A newline occurs at [i] exactly when the character at [i] is one. *)
Lemma occurs_at_nl s i :
  JSString.occurs_at s JSString.nl i <-> String.get i s = Some "010"%char.
Proof.
  unfold JSString.occurs_at, JSString.nl. rewrite prefix_single, get_drop.
  destruct (JSString.drop i s) as [|c t]; [split; discriminate|].
  destruct (ascii_dec "010" c) as [<-|Hne].
  - split; reflexivity.
  - split; [discriminate | intros [= ->]; now destruct Hne].
Qed.

Lemma half_maxLen : maxLen / 2 = 1950.
Proof. reflexivity. Qed.

Lemma lastIndexOf_le s search pos :
  -1 <= JSString.lastIndexOf s search pos <= Z.max pos 0.
Proof.
  unfold JSString.lastIndexOf.
  destruct (Z.ltb_spec (JSString.length s) (JSString.length search)); [lia|].
  pose proof (lastIndexOf_down_range s search
    (Z.to_nat (Z.min (Z.max pos 0) (JSString.length s - JSString.length search)))).
  lia.
Qed.

(** The split index lies between half the limit and the limit. *)
Lemma splitIdx_range remaining :
  1950 <= splitIdx remaining <= 3900.
Proof.
  unfold splitIdx. rewrite half_maxLen.
  pose proof (lastIndexOf_le remaining JSString.nl maxLen) as H.
  unfold maxLen in *.
  destruct (Z.ltb_spec (JSString.lastIndexOf remaining JSString.nl 3900) 1950); lia.
Qed.

(** One iteration cuts [remaining] in two without losing a character,
    pushes at most [maxLen] characters and removes at least half of
    [maxLen] from [remaining]. *)
Lemma split_step_spec remaining :
  maxLen < JSString.length remaining ->
  fst (split_step remaining) +:+ snd (split_step remaining) = remaining /\
  JSString.length (fst (split_step remaining)) = splitIdx remaining /\
  JSString.length (snd (split_step remaining))
    = JSString.length remaining - splitIdx remaining.
Proof.
  intros Hlen. pose proof (splitIdx_range remaining) as Hr.
  unfold maxLen in Hlen. unfold split_step. simpl fst. simpl snd.
  rewrite substring_prefix, substring_suffix by lia.
  split; [apply str_take_drop|].
  unfold JSString.length in *. rewrite str_length_take, str_length_drop. lia.
Qed.

(** Where the cut falls: at the last newline at or before index
    [maxLen] when that newline is not in the first half, at [maxLen]
    otherwise. *)
Lemma splitIdx_newline remaining j :
  maxLen < JSString.length remaining ->
  1950 <= Z.of_nat j <= 3900 ->
  String.get j remaining = Some "010"%char ->
  String.get (Z.to_nat (splitIdx remaining)) remaining = Some "010"%char /\
  Z.of_nat j <= splitIdx remaining <= 3900.
Proof.
  intros Hlen Hj Hnl. apply occurs_at_nl in Hnl.
  pose proof (splitIdx_range remaining) as Hr.
  unfold splitIdx in *. rewrite half_maxLen in *.
  unfold JSString.lastIndexOf, maxLen in *.
  change (JSString.length JSString.nl) with 1 in *.
  destruct (Z.ltb_spec (JSString.length remaining) 1); [lia|].
  replace (Z.min (Z.max 3900 0) (JSString.length remaining - 1)) with 3900 in * by lia.
  remember (JSString.lastIndexOf_down remaining JSString.nl (Z.to_nat 3900)) as r eqn:Er.
  symmetry in Er. destruct (Z.eq_dec r (-1)) as [->|Hne].
  - exfalso. apply (lastIndexOf_down_none _ _ _ Er j); [lia | exact Hnl].
  - pose proof (lastIndexOf_down_range remaining JSString.nl (Z.to_nat 3900)) as Hrange.
    rewrite Er in Hrange.
    destruct (lastIndexOf_down_found _ _ _ _ Er ltac:(lia)) as [Hocc Hnone].
    assert (Z.of_nat j <= r).
    { destruct (Z.le_gt_cases (Z.of_nat j) r) as [|Hgt]; [assumption|].
      exfalso. apply (Hnone j); [lia | exact Hnl]. }
    destruct (Z.ltb_spec r 1950); [lia|].
    split; [now apply occurs_at_nl | lia].
Qed.

Lemma splitIdx_hard_cut remaining :
  maxLen < JSString.length remaining ->
  (forall j, 1950 <= Z.of_nat j <= 3900 ->
             String.get j remaining <> Some "010"%char) ->
  splitIdx remaining = 3900.
Proof.
  intros Hlen Hno. unfold splitIdx. rewrite half_maxLen.
  destruct (Z.ltb_spec (JSString.lastIndexOf remaining JSString.nl maxLen) 1950) as [|Hge];
    [reflexivity|].
  exfalso. revert Hge. unfold JSString.lastIndexOf, maxLen in *.
  change (JSString.length JSString.nl) with 1.
  destruct (Z.ltb_spec (JSString.length remaining) 1); [lia|].
  replace (Z.min (Z.max 3900 0) (JSString.length remaining - 1)) with 3900 by lia.
  intros Hge.
  pose proof (lastIndexOf_down_range remaining JSString.nl (Z.to_nat 3900)) as Hrange.
  edestruct (lastIndexOf_down_found remaining JSString.nl (Z.to_nat 3900))
    as [Hocc _]; [reflexivity | lia |].
  apply occurs_at_nl in Hocc. revert Hocc. apply Hno. lia.
Qed.

(** The accumulator [chunks] only collects. *)
Lemma split_loop_acc fuel acc remaining :
  split_loop fuel acc remaining = (app acc) <$> split_loop fuel [] remaining.
Proof.
  revert acc remaining. induction fuel as [|fuel IH]; intros acc remaining; simpl.
  - destruct (_ >? 0); [destruct (_ <=? maxLen)|]; simpl;
      rewrite ?app_nil_r; reflexivity.
  - destruct (_ >? 0); [destruct (_ <=? maxLen)|]; simpl;
      rewrite ?app_nil_r; try reflexivity.
    rewrite IH, (IH [_]). destruct (split_loop fuel [] _); simpl; [|reflexivity].
    now rewrite <- app_assoc.
Qed.

(** Unfolding of the loop with an empty accumulator. *)
Lemma split_loop_short fuel remaining :
  0 < JSString.length remaining <= maxLen ->
  split_loop fuel [] remaining = Some [remaining].
Proof.
  intros H. destruct fuel; simpl;
    destruct (Z.gtb_spec (JSString.length remaining) 0); try lia;
    destruct (Z.leb_spec (JSString.length remaining) maxLen); try lia; reflexivity.
Qed.

Lemma split_loop_empty fuel :
  split_loop fuel [] EmptyString = Some [].
Proof. now destruct fuel. Qed.

Lemma split_loop_long fuel remaining :
  maxLen < JSString.length remaining ->
  split_loop (S fuel) [] remaining =
  cons (fst (split_step remaining)) <$> split_loop fuel [] (snd (split_step remaining)).
Proof.
  intros H. unfold maxLen in H. simpl.
  destruct (Z.gtb_spec (JSString.length remaining) 0); [|lia].
  destruct (Z.leb_spec (JSString.length remaining) maxLen); [unfold maxLen in *; lia|].
  now rewrite split_loop_acc.
Qed.

Lemma str_length_zero s : JSString.length s <= 0 -> s = EmptyString.
Proof. destruct s; [reflexivity|]. unfold JSString.length. simpl. lia. Qed.

(** Enough fuel: one unit per 1950 characters beyond the first 3900. *)
Lemma split_loop_enough fuel remaining :
  JSString.length remaining <= 3900 + 1950 * Z.of_nat fuel ->
  exists chunks,
    split_loop fuel [] remaining = Some chunks /\
    JSString.concat chunks = remaining /\
    Forall (fun c => JSString.length c <= 3900) chunks.
Proof.
  revert remaining. induction fuel as [|fuel IH]; intros remaining Hlen.
  - destruct (Z.le_gt_cases (JSString.length remaining) 0) as [Hz|Hp].
    + rewrite (str_length_zero _ Hz). exists []. now rewrite split_loop_empty.
    + exists [remaining]. rewrite split_loop_short by (unfold maxLen; lia).
      split; [reflexivity|]. split; [apply str_append_nil_r|].
      constructor; [lia | constructor].
  - destruct (Z.le_gt_cases (JSString.length remaining) 0) as [Hz|Hp];
      [|destruct (Z.le_gt_cases (JSString.length remaining) 3900) as [Hs|Hl]].
    + rewrite (str_length_zero _ Hz). exists []. now rewrite split_loop_empty.
    + exists [remaining]. rewrite split_loop_short by (unfold maxLen; lia).
      split; [reflexivity|]. split; [apply str_append_nil_r|].
      constructor; [lia | constructor].
    + assert (Hm : maxLen < JSString.length remaining) by (unfold maxLen; lia).
      destruct (split_step_spec remaining Hm) as (Hcat & Hfst & Hsnd).
      pose proof (splitIdx_range remaining) as Hr.
      destruct (IH (snd (split_step remaining))) as (cs & Hcs & Hconcat & Hall);
        [lia|].
      exists (fst (split_step remaining) :: cs).
      rewrite split_loop_long, Hcs by assumption.
      split; [reflexivity|]. split.
      * simpl. now rewrite Hconcat.
      * constructor; [lia | assumption].
Qed.

(** More fuel does not change a result. *)
Lemma split_loop_more_fuel fuel fuel' remaining chunks :
  split_loop fuel [] remaining = Some chunks -> (fuel <= fuel')%nat ->
  split_loop fuel' [] remaining = Some chunks.
Proof.
  revert fuel' remaining chunks.
  induction fuel as [|fuel IH]; intros fuel' remaining chunks Hrun Hle.
  - destruct (Z.le_gt_cases (JSString.length remaining) 0) as [Hz|Hp];
      [|destruct (Z.le_gt_cases (JSString.length remaining) 3900) as [Hs|Hl]].
    + rewrite (str_length_zero _ Hz) in *. now rewrite split_loop_empty in *.
    + rewrite split_loop_short in * by (unfold maxLen; lia). assumption.
    + exfalso. simpl in Hrun.
      destruct (Z.gtb_spec (JSString.length remaining) 0); [|lia].
      destruct (Z.leb_spec (JSString.length remaining) maxLen);
        [unfold maxLen in *; lia | discriminate].
  - destruct (Z.le_gt_cases (JSString.length remaining) 0) as [Hz|Hp];
      [|destruct (Z.le_gt_cases (JSString.length remaining) 3900) as [Hs|Hl]].
    + rewrite (str_length_zero _ Hz) in *. now rewrite split_loop_empty in *.
    + rewrite split_loop_short in * by (unfold maxLen; lia). assumption.
    + destruct fuel' as [|fuel']; [lia|].
      rewrite split_loop_long in * by (unfold maxLen; lia).
      destruct (split_loop fuel [] _) as [cs|] eqn:E; [|discriminate].
      rewrite (IH fuel' _ cs E) by lia. assumption.
Qed.

Lemma split_chunks_total text :
  exists chunks,
    split_chunks text = Some chunks /\
    JSString.concat chunks = text /\
    Forall (fun c => JSString.length c <= 3900) chunks.
Proof.
  apply split_loop_enough. unfold JSString.length. lia.
Qed.

(** The first chunk of a long text ends at its split index and the
    other chunks are those of the rest. *)
Lemma split_chunks_long text :
  maxLen < JSString.length text ->
  exists rest,
    split_chunks (snd (split_step text)) = Some rest /\
    split_chunks text = Some (fst (split_step text) :: rest).
Proof.
  intros Hlen. destruct (split_chunks_total (snd (split_step text))) as (rest & Hrest & _).
  exists rest. split; [assumption|].
  destruct (split_step_spec text Hlen) as (_ & _ & Hsnd).
  pose proof (splitIdx_range text) as Hr.
  unfold split_chunks in *.
  destruct (String.length text) as [|n] eqn:En.
  - unfold JSString.length, maxLen in Hlen. lia.
  - rewrite split_loop_long by assumption.
    rewrite (split_loop_more_fuel _ n _ _ Hrest); [reflexivity|].
    unfold JSString.length in Hsnd. lia.
Qed.

Lemma splitIdx_prefers_newline remaining :
  maxLen < JSString.length remaining ->
  prefers_newline remaining (splitIdx remaining).
Proof.
  intros Hlen. pose proof (splitIdx_range remaining) as Hr.
  unfold prefers_newline, newline_at. rewrite half_maxLen. unfold maxLen at 1 2 3.
  split; [lia|]. split.
  - intros j Hj [Hj0 Hnl].
    destruct (splitIdx_newline remaining (Z.to_nat j) Hlen ltac:(lia) Hnl) as [Hi Hle].
    split; [split; [lia | exact Hi] | lia].
  - intros Hno. apply splitIdx_hard_cut; [assumption|].
    intros j Hj Hnl. apply (Hno (Z.of_nat j)); [unfold maxLen; lia|].
    split; [lia | now rewrite Nat2Z.id].
Qed.

Lemma split_loop_refines fuel remaining chunks :
  split_loop fuel [] remaining = Some chunks ->
  split_at_newlines remaining chunks.
Proof.
  revert remaining chunks.
  induction fuel as [|fuel IH]; intros remaining chunks Hrun;
    (destruct (Z.le_gt_cases (JSString.length remaining) 0) as [Hz|Hp];
     [|destruct (Z.le_gt_cases (JSString.length remaining) 3900) as [Hs|Hl]]).
  1, 4: rewrite (str_length_zero _ Hz) in *; rewrite split_loop_empty in Hrun;
        injection Hrun as <-; constructor.
  1, 3: rewrite split_loop_short in Hrun by (unfold maxLen; lia);
        injection Hrun as <-; constructor; unfold maxLen; lia.
  - exfalso. simpl in Hrun.
    destruct (Z.gtb_spec (JSString.length remaining) 0); [|lia].
    destruct (Z.leb_spec (JSString.length remaining) maxLen);
      [unfold maxLen in *; lia | discriminate].
  - assert (Hm : maxLen < JSString.length remaining) by (unfold maxLen; lia).
    rewrite split_loop_long in Hrun by assumption.
    destruct (split_loop fuel [] _) as [cs|] eqn:E; [|discriminate].
    injection Hrun as <-. apply split_cut; [assumption | | now apply IH].
    now apply splitIdx_prefers_newline.
Qed.

End Splitting.

(** What [post_all] sends: one request per chunk, in order, up to the
    first request that is rejected. *)
Lemma post_all_effects `{World} channel threadTs chunks t :
  exists n,
    fst (run_eff (SlackClaude.post_all channel threadTs chunks) t)
    = t ++ map (fun chunk => Fetch "https://slack.com/api/chat.postMessage"
                               (SlackClaude.post_request channel threadTs chunk))
               (take n chunks).
Proof.
  revert t. induction chunks as [|chunk chunks IH]; intros t.
  - exists 0%nat. simpl. now rewrite app_nil_r.
  - simpl. destruct (fetch_response t _ _) as [r|e].
    + destruct (IH (t ++ [Fetch "https://slack.com/api/chat.postMessage"
                            (SlackClaude.post_request channel threadTs chunk)]))
        as [n Hn].
      exists (S n). rewrite Hn. simpl. now rewrite <- app_assoc.
    + exists 1%nat. simpl. now destruct chunks.
Qed.

(** C6. Every reply is posted as chunks of at most 3900 characters each,
    one [chat.postMessage] request per chunk in order (up to a request
    that is rejected), and every cut is placed at the last newline of the
    admissible range (indices 1950 to 3900 of what is left) when there is
    one, and at 3900 only when there is none. *)
Theorem postToSlack_chunks `{World} (token channel text threadTs : string) :
  token <> EmptyString ->
  exists chunks,
    SlackClaude.postToSlack (Some token) channel text threadTs
      = Some (SlackClaude.post_all channel threadTs chunks) /\
    Forall (fun c => JSString.length c <= 3900) chunks /\
    SlackClaude.split_at_newlines text chunks /\
    exists n,
      effects (SlackClaude.post_all channel threadTs chunks)
      = map (fun chunk => Fetch "https://slack.com/api/chat.postMessage"
                            (SlackClaude.post_request channel threadTs chunk))
            (take n chunks).
Proof.
  intros Htoken. destruct (split_chunks_total text) as (chunks & Hrun & _ & Hall).
  exists chunks. split; [|split; [assumption|split]].
  - unfold SlackClaude.postToSlack. destruct token; [contradiction|].
    now rewrite Hrun.
  - now apply (split_loop_refines (String.length text)).
  - apply (post_all_effects channel threadTs chunks []).
Qed.

Lemma postToSlack_chunks_witness :
  exists chunks,
    SlackClaude.postToSlack (Some "xoxb-test") "C024BE91L" "Try `git bisect`." "1712.0001"
      = Some (SlackClaude.post_all "C024BE91L" "1712.0001" chunks) /\
    Forall (fun c => JSString.length c <= 3900) chunks /\
    SlackClaude.split_at_newlines "Try `git bisect`." chunks /\
    exists n,
      effects (SlackClaude.post_all "C024BE91L" "1712.0001" chunks)
      = map (fun chunk => Fetch "https://slack.com/api/chat.postMessage"
                            (SlackClaude.post_request "C024BE91L" "1712.0001" chunk))
            (take n chunks).
Proof. apply (@postToSlack_chunks Sample.world). discriminate. Defined.

(** C10. The splitting loop terminates on every text: the text's length
    is enough fuel, and so is any fuel that allows one iteration per 1950
    characters beyond the first 3900, because an iteration that splits
    removes at least 1950 characters. The chunks, concatenated in order,
    are the text. *)
Theorem split_loop_terminates :
  (forall text, exists chunks,
     SlackClaude.split_chunks text = Some chunks /\
     JSString.concat chunks = text) /\
  (forall fuel text,
     JSString.length text <= 3900 + 1950 * Z.of_nat fuel ->
     exists chunks,
       SlackClaude.split_loop fuel [] text = Some chunks /\
       JSString.concat chunks = text) /\
  (forall remaining,
     SlackClaude.maxLen < JSString.length remaining ->
     JSString.length (snd (SlackClaude.split_step remaining))
       + SlackClaude.maxLen / 2 <= JSString.length remaining).
Proof.
  split; [|split].
  - intros text. destruct (split_chunks_total text) as (chunks & H1 & H2 & _). eauto.
  - intros fuel text H. destruct (split_loop_enough fuel text H) as (chunks & H1 & H2 & _).
    eauto.
  - intros remaining H. destruct (split_step_spec remaining H) as (_ & _ & Hsnd).
    pose proof (splitIdx_range remaining). rewrite half_maxLen. lia.
Qed.

Lemma split_loop_terminates_witness :
  (exists chunks,
     SlackClaude.split_loop 1 [] (JSString.replicate 5000 "a") = Some chunks /\
     JSString.concat chunks = JSString.replicate 5000 "a") /\
  JSString.length (snd (SlackClaude.split_step (JSString.replicate 5000 "a")))
    + SlackClaude.maxLen / 2 <= JSString.length (JSString.replicate 5000 "a").
Proof.
  destruct split_loop_terminates as (_ & Hfuel & Hstep). split.
  - apply Hfuel. vm_compute. discriminate.
  - apply Hstep. vm_compute. reflexivity.
Defined.

(** ** Keyed collections *)

Section KeyedCollections.

Context {V : Type}.
Implicit Types (m : list (string * V)) (key : string) (h : V).

Lemma Map_get_None key m : Map_get key m = None <-> key ∉ keys m.
Proof.
  induction m as [|[k v] m IH]; simpl.
  - split; [intros _; apply not_elem_of_nil | reflexivity].
  - destruct (String.eqb_spec k key) as [->|Hne].
    + split; [discriminate | intros H; destruct H; left].
    + rewrite IH. rewrite not_elem_of_cons. intuition congruence.
Qed.

Lemma Map_get_Some_elem key m h : Map_get key m = Some h -> (key, h) ∈ m.
Proof.
  induction m as [|[k v] m IH]; simpl; [discriminate|].
  destruct (String.eqb_spec k key) as [->|Hne].
  - intros [= ->]. left.
  - intros H. right. auto.
Qed.

Lemma Map_set_absent key h m :
  Map_get key m = None -> Map_set key h m = m ++ [(key, h)].
Proof.
  induction m as [|[k v] m IH]; simpl; [reflexivity|].
  destruct (String.eqb_spec k key); [discriminate|].
  intros H. now rewrite IH.
Qed.

Lemma Map_set_present_keys key h m :
  Map_get key m <> None -> keys (Map_set key h m) = keys m.
Proof.
  induction m as [|[k v] m IH]; simpl; [congruence|].
  destruct (String.eqb_spec k key); [reflexivity|].
  intros H. simpl. now rewrite IH.
Qed.

Lemma Map_set_present_length key h m :
  Map_get key m <> None -> length (Map_set key h m) = length m.
Proof.
  intros H. rewrite <- (length_map fst (Map_set key h m)), <- (length_map fst m).
  f_equal. now apply Map_set_present_keys.
Qed.

Lemma Map_get_set key h m : Map_get key (Map_set key h m) = Some h.
Proof.
  induction m as [|[k v] m IH]; simpl.
  - now rewrite String.eqb_refl.
  - destruct (String.eqb_spec k key) as [->|Hne]; simpl.
    + now rewrite String.eqb_refl.
    + destruct (String.eqb_spec k key); [contradiction | assumption].
Qed.

Lemma Map_get_set_ne key key' h m :
  key <> key' -> Map_get key' (Map_set key h m) = Map_get key' m.
Proof.
  intros Hne. induction m as [|[k v] m IH]; simpl.
  - destruct (String.eqb_spec key key'); [contradiction | reflexivity].
  - destruct (String.eqb_spec k key) as [->|Hk]; simpl.
    + destruct (String.eqb_spec key key'); [contradiction | reflexivity].
    + now rewrite IH.
Qed.

Lemma Map_set_Forall (P : string * V -> Prop) key h m :
  Forall P m -> (forall k, P (k, h)) -> Forall P (Map_set key h m).
Proof.
  intros Hm Hh. induction Hm as [|[k v] m Hx Hm IH]; simpl.
  - constructor; [apply Hh | constructor].
  - destruct (String.eqb k key); constructor; auto.
Qed.

Lemma Map_get_app_last key h m :
  key ∉ keys m -> Map_get key (m ++ [(key, h)]) = Some h.
Proof.
  induction m as [|[k v] m IH]; simpl; intros Hnot.
  - now rewrite String.eqb_refl.
  - apply not_elem_of_cons in Hnot as [Hne Hnot].
    destruct (String.eqb_spec k key); [congruence | auto].
Qed.

End KeyedCollections.

(** ** The conversation cache *)

Section ConversationCache.

Import SlackClaude.

Implicit Types (c : Conversations) (key : string) (h : list Message).

(** *** The maintenance pass *)

(** With [kept] entries already passed over, the pass never keeps more
    than 100. *)
Lemma cleanup_loop_length entries size kept :
  size = (kept + length entries)%nat -> (kept <= 100)%nat ->
  (kept + length (cleanup_loop entries size) <= 100)%nat.
Proof.
  revert size kept. induction entries as [|[k v] rest IH];
    intros size kept Hsize Hkept; simpl in *; [lia|].
  destruct (Nat.eqb_spec (length v) 0).
  - apply IH; lia.
  - destruct (Nat.ltb_spec 100 size).
    + apply IH; lia.
    + simpl. specialize (IH size (S kept)). lia.
Qed.

Lemma cleanup_loop_sublist entries size :
  sublist (cleanup_loop entries size) entries.
Proof.
  revert size. induction entries as [|[k v] rest IH]; intros size; simpl.
  - constructor.
  - destruct (length v =? 0)%nat; [apply sublist_cons, IH|].
    destruct (100 <? size)%nat; [apply sublist_cons, IH | apply sublist_skip, IH].
Qed.

Lemma Forall_of_sublist {A} (P : A -> Prop) (l1 l2 : list A) :
  sublist l1 l2 -> Forall P l2 -> Forall P l1.
Proof.
  induction 1 as [|x l1 l2 _ IH|x l1 l2 _ IH]; intros Hall.
  - constructor.
  - inversion Hall; subst. constructor; auto.
  - inversion Hall; subst. auto.
Qed.

(** When no stored history is empty the pass drops the oldest entries,
    as many as there are above 100. *)
Lemma cleanup_loop_drop entries size :
  Forall (fun e => (1 <= length (snd e))%nat) entries ->
  cleanup_loop entries size = drop (size - 100) entries.
Proof.
  intros Hne. revert size. induction Hne as [|[k v] rest Hv Hrest IH];
    intros size; simpl in *.
  - now rewrite drop_nil.
  - destruct (Nat.eqb_spec (length v) 0); [lia|].
    destruct (Nat.ltb_spec 100 size).
    + rewrite IH. replace (size - 100)%nat with (S (size - 1 - 100)) by lia.
      reflexivity.
    + rewrite IH. replace (size - 100)%nat with 0%nat by lia. reflexivity.
Qed.

Lemma cleanupConversations_length c :
  (length (cleanupConversations c) <= 100)%nat.
Proof.
  pose proof (cleanup_loop_length c (length c) 0 eq_refl). unfold cleanupConversations. lia.
Qed.

(** *** The window kept by [splice] *)

Lemma last_n_length {A} n (l : list A) :
  length (last_n n l) = Nat.min n (length l).
Proof. unfold last_n. rewrite length_drop. lia. Qed.

Lemma last_n_all {A} n (l : list A) : (length l <= n)%nat -> last_n n l = l.
Proof.
  intros H. unfold last_n. now replace (length l - n)%nat with 0%nat by lia.
Qed.

Lemma last_n_app {A} (n k : nat) (l l' : list A) :
  (n <= k + length l')%nat ->
  last_n n (last_n k l ++ l') = last_n n (l ++ l').
Proof.
  intros H. unfold last_n.
  rewrite <- (drop_app_le l l') by lia.
  rewrite drop_drop, length_drop, !length_app. f_equal. lia.
Qed.

Lemma trim_last_n h :
  (if (20 <? length h)%nat then drop (length h - 20) h else h) = last_n 20 h.
Proof.
  destruct (Nat.ltb_spec 20 (length h)); [reflexivity|].
  symmetry. now apply last_n_all.
Qed.

(** *** One turn *)

Lemma handler_history_snd c key text :
  snd (handler_history c key text) = last_n 20 (stored key c ++ [user_entry text]).
Proof. unfold handler_history. simpl. apply trim_last_n. Qed.

Lemma handler_history_snd_length c key text :
  (1 <= length (snd (handler_history c key text)) <= 20)%nat.
Proof.
  rewrite handler_history_snd, last_n_length, length_app. cbn [length]. lia.
Qed.

(** The array handed to the LLM is the stored one when the key is
    present. *)
Lemma handler_history_alias c key text :
  Map_get key c <> None ->
  Map_get key (fst (handler_history c key text))
    = Some (snd (handler_history c key text)).
Proof.
  intros H. unfold handler_history. simpl.
  destruct (Map_get key c) eqn:E; [|congruence].
  rewrite <- E. apply Map_get_set.
Qed.

Lemma handler_history_inv c key text :
  cache_inv c -> cache_inv (fst (handler_history c key text)).
Proof.
  intros (Hnd & Hlen & Hall).
  pose proof (handler_history_snd_length c key text) as Hh.
  unfold handler_history in *. cbn [fst snd] in *.
  destruct (Map_get key c) eqn:E; [|now repeat split].
  assert (Hp : Map_get key c <> None) by congruence.
  split; [|split].
  - now rewrite Map_set_present_keys.
  - now rewrite Map_set_present_length.
  - apply Map_set_Forall; [assumption|]. intros k. cbn [snd]. lia.
Qed.

Lemma handler_history_keys c key text :
  keys (fst (handler_history c key text)) = keys c.
Proof.
  unfold handler_history. simpl.
  destruct (Map_get key c) eqn:E; [|reflexivity].
  apply Map_set_present_keys. congruence.
Qed.

Lemma handler_history_other c key key' text :
  key <> key' ->
  Map_get key' (fst (handler_history c key text)) = Map_get key' c.
Proof.
  intros Hne. unfold handler_history. simpl.
  destruct (Map_get key c); [now apply Map_get_set_ne | reflexivity].
Qed.

Lemma cache_inv_nonempty c :
  cache_inv c -> Forall (fun e => (1 <= length (snd e))%nat) c.
Proof.
  intros (_ & _ & Hall). eapply Forall_impl; [exact Hall|]. simpl. lia.
Qed.

Lemma handler_save_drop c key h response :
  cache_inv c -> (1 <= length h <= 20)%nat ->
  handler_save c key h response =
  let c' := Map_set key (h ++ [assistant_entry response]) c in
  drop (length c' - 100) c'.
Proof.
  intros Hinv Hh. unfold handler_save, cleanupConversations.
  apply cleanup_loop_drop. apply Map_set_Forall.
  - now apply cache_inv_nonempty.
  - intros k. cbn [snd]. rewrite length_app. cbn [length]. lia.
Qed.

Lemma handler_save_inv c key h response :
  cache_inv c -> (1 <= length h <= 20)%nat ->
  cache_inv (handler_save c key h response).
Proof.
  intros Hinv Hh. split; [|split].
  - rewrite handler_save_drop by assumption. cbv zeta.
    destruct Hinv as (Hnd & Hlen & _). unfold keys. rewrite <- skipn_map.
    apply (sublist_NoDup _ (keys (Map_set key (h ++ [assistant_entry response]) c)));
      [|apply sublist_drop].
    destruct (Map_get key c) eqn:E.
    + rewrite Map_set_present_keys by congruence. assumption.
    + rewrite Map_set_absent by assumption. unfold keys. rewrite map_app. simpl.
      apply NoDup_app. split; [assumption|]. split.
      * intros x Hx Hl. apply list_elem_of_singleton in Hl as ->.
        now apply Map_get_None in E.
      * apply NoDup_singleton.
  - apply cleanupConversations_length.
  - unfold handler_save, cleanupConversations.
    eapply Forall_of_sublist; [apply cleanup_loop_sublist|].
    apply Map_set_Forall; [apply Hinv|].
    intros k. cbn [snd]. rewrite length_app. cbn [length]. lia.
Qed.

Lemma handler_turn_inv c key text response :
  cache_inv c -> cache_inv (handler_turn c key text response).
Proof.
  intros Hinv. unfold handler_turn.
  pose proof (handler_history_inv c key text Hinv) as H1.
  pose proof (handler_history_snd_length c key text) as H2.
  destruct (handler_history c key text) as [c1 h]. cbn [fst snd] in *.
  destruct response; [now apply handler_save_inv | assumption].
Qed.

Lemma run_from_inv turns c : cache_inv c -> cache_inv (run_from c turns).
Proof.
  revert c. induction turns as [|[[key text] response] turns IH]; intros c Hinv;
    [assumption|].
  simpl. apply IH. now apply handler_turn_inv.
Qed.

Lemma run_inv turns : cache_inv (run turns).
Proof.
  apply run_from_inv. repeat split; simpl; [constructor | lia | constructor].
Qed.

(** A completed exchange leaves, under its key, the trimmed history
    followed by the reply. *)
Lemma handler_turn_stored c key text response :
  cache_inv c ->
  Map_get key (handler_turn c key text (Some response))
    = Some (last_n 20 (stored key c ++ [user_entry text]) ++ [assistant_entry response]).
Proof.
  intros Hinv. unfold handler_turn.
  pose proof (handler_history_inv c key text Hinv) as H1.
  pose proof (handler_history_snd_length c key text) as H2.
  pose proof (handler_history_snd c key text) as H3.
  destruct (handler_history c key text) as [c1 h]. cbn [fst snd] in *. subst h.
  rewrite handler_save_drop by assumption. cbv zeta.
  set (h' := last_n 20 _ ++ _).
  destruct H1 as (Hnd & Hlen & _).
  destruct (Map_get key c1) eqn:E.
  - rewrite Map_set_present_length by congruence.
    replace (length c1 - 100)%nat with 0%nat by lia. apply Map_get_set.
  - rewrite Map_set_absent by assumption. rewrite length_app. cbn [length].
    apply Map_get_None in E.
    rewrite drop_app_le by lia. apply Map_get_app_last.
    intros Hin. apply E. unfold keys in *. rewrite <- skipn_map in Hin.
    eapply elem_of_sublist; [exact Hin | apply sublist_drop].
Qed.

Lemma stored_length c key : cache_inv c -> (length (stored key c) <= 21)%nat.
Proof.
  intros (_ & _ & Hall). unfold stored.
  destruct (Map_get key c) as [h|] eqn:E; simpl; [|lia].
  apply Map_get_Some_elem in E. rewrite Forall_forall in Hall.
  apply (Hall _ E).
Qed.

(** The stored history after exchanges handled for one key: the last 21
    of everything appended under the key. *)
Lemma run_from_stored exchanges c key :
  cache_inv c ->
  stored key (run_from c (exchanges_on key exchanges))
    = last_n 21 (stored key c ++ appended exchanges).
Proof.
  revert c. induction exchanges as [|[text response] exchanges IH]; intros c Hinv.
  - simpl. rewrite app_nil_r. symmetry. apply last_n_all. now apply stored_length.
  - simpl. rewrite IH by now apply handler_turn_inv.
    unfold stored at 1. rewrite handler_turn_stored by assumption. simpl.
    fold (user_entry text) (assistant_entry response).
    rewrite <- (last_n_all 21 (last_n 20 _ ++ [_])).
    + rewrite (last_n_app 21 20) by (simpl; lia).
      rewrite (last_n_app 21 21) by lia.
      now rewrite <- !app_assoc.
    + rewrite length_app, last_n_length. cbn [length]. lia.
Qed.

Lemma run_from_present e exchanges c key :
  cache_inv c ->
  Map_get key (run_from c (exchanges_on key (e :: exchanges))) <> None.
Proof.
  destruct e as [text response]. simpl.
  intros Hinv. pose proof (handler_turn_stored c key text response Hinv) as Hs.
  pose proof (handler_turn_inv c key text (Some response) Hinv) as Hinv'.
  revert Hs Hinv'. generalize (handler_turn c key text (Some response)).
  generalize (last_n 20 (stored key c ++ [user_entry text]) ++ [assistant_entry response]).
  induction exchanges as [|[t r] exchanges IH]; intros h c' Hs Hinv'; simpl.
  - congruence.
  - eapply IH; [apply handler_turn_stored | apply handler_turn_inv]; assumption.
Qed.

End ConversationCache.

(** ** Invocations that overlap *)

Section OverlappingInvocations.

Import SlackClaude.

Implicit Types (st : Overlap.Store) (key : string) (r : nat).

Lemma array_fresh (arrays : list (list Message)) :
  Overlap.array (arrays ++ [[]]) (length arrays) = [].
Proof. unfold Overlap.array. now rewrite list_lookup_middle. Qed.

Lemma array_insert (arrays : list (list Message)) r h :
  (r < length arrays)%nat -> Overlap.array (<[r := h]> arrays) r = h.
Proof. intros Hr. unfold Overlap.array. now rewrite list_lookup_insert_eq. Qed.

Lemma array_insert_ne (arrays : list (list Message)) r r' h :
  r <> r' -> Overlap.array (<[r := h]> arrays) r' = Overlap.array arrays r'.
Proof. intros Hr. unfold Overlap.array. now rewrite list_lookup_insert_ne. Qed.

(** The history at the call: the last 20 of what the cache holds and the
    new message. *)
Lemma handler_call_snd st key text :
  snd (Overlap.handler_call st key text)
  = last_n 20 (Overlap.stored key st ++ [user_entry text]).
Proof.
  unfold Overlap.handler_call, Overlap.stored.
  destruct (Map_get key (Overlap.conversations st)) as [r|]; cbn [snd].
  - apply trim_last_n.
  - rewrite array_fresh. apply trim_last_n.
Qed.

Lemma store_cleanup_loop_sublist arrays (entries : list (string * nat)) size :
  sublist (Overlap.cleanup_loop arrays entries size) entries.
Proof.
  revert size. induction entries as [|[k v] rest IH]; intros size; simpl.
  - constructor.
  - destruct (length _ =? 0)%nat; [apply sublist_cons, IH|].
    destruct (100 <? size)%nat; [apply sublist_cons, IH | apply sublist_skip, IH].
Qed.

Lemma Forall_weaken_length (l : list (string * nat)) (n m : nat) :
  (n <= m)%nat -> Forall (fun e => (snd e < n)%nat) l -> Forall (fun e => (snd e < m)%nat) l.
Proof. intros Hnm Hl. eapply Forall_impl; [exact Hl|]. intros e He. simpl in *. lia. Qed.

Lemma handler_call_allocated st key text :
  allocated st -> allocated (fst (Overlap.handler_call st key text)).
Proof.
  intros [Hc Hs]. unfold Overlap.handler_call, allocated.
  destruct (Map_get key (Overlap.conversations st)) as [r|] eqn:E; cbn [fst Overlap.arrays
    Overlap.conversations Overlap.suspended]; rewrite length_insert.
  - split; [assumption|]. apply Forall_app. split; [assumption|].
    constructor; [|constructor]. cbn [snd].
    apply Map_get_Some_elem in E. rewrite Forall_forall in Hc. apply (Hc _ E).
  - rewrite length_app. cbn [length]. split.
    + eapply Forall_weaken_length; [|exact Hc]. lia.
    + apply Forall_app. split.
      * eapply Forall_weaken_length; [|exact Hs]. lia.
      * constructor; [|constructor]. cbn [snd]. lia.
Qed.

Lemma handler_resume_allocated st i response :
  allocated st -> allocated (Overlap.handler_resume st i response).
Proof.
  intros [Hc Hs]. unfold Overlap.handler_resume.
  destruct (Overlap.suspended st !! i) as [[key r]|] eqn:E; [|now split].
  assert (Hr : (r < length (Overlap.arrays st))%nat).
  { rewrite Forall_forall in Hs. apply (Hs (key, r)). eapply list_elem_of_lookup_2, E. }
  assert (Hd : Forall (fun e => (snd e < length (Overlap.arrays st))%nat)
                 (delete i (Overlap.suspended st))).
  { eapply Forall_of_sublist; [apply sublist_delete | exact Hs]. }
  destruct response as [response|]; unfold allocated;
    cbn [Overlap.arrays Overlap.conversations Overlap.suspended]; [|now split].
  rewrite length_insert. split; [|assumption].
  eapply Forall_of_sublist; [apply store_cleanup_loop_sublist|].
  apply Map_set_Forall; [assumption|]. intros k. exact Hr.
Qed.

Lemma run_from_allocated events st :
  allocated st -> allocated (Overlap.run_from st events).
Proof.
  revert st. induction events as [|[key text|i response] events IH]; intros st Hst;
    [assumption| |]; apply IH; simpl.
  - now apply handler_call_allocated.
  - now apply handler_resume_allocated.
Qed.

Lemma run_allocated events : allocated (Overlap.run events).
Proof. apply run_from_allocated. split; constructor. Qed.

(** While the call is pending the cache holds the history handed over,
    when the key is present. *)
Lemma handler_call_alias st key text :
  allocated st -> Map_get key (Overlap.conversations st) <> None ->
  Overlap.stored key (fst (Overlap.handler_call st key text))
  = snd (Overlap.handler_call st key text).
Proof.
  intros [Hc _] Hkey. unfold Overlap.handler_call, Overlap.stored.
  destruct (Map_get key (Overlap.conversations st)) as [r|] eqn:E; [|congruence].
  cbn [fst snd Overlap.arrays Overlap.conversations]. rewrite E.
  apply array_insert. apply Map_get_Some_elem in E.
  rewrite Forall_forall in Hc. apply (Hc _ E).
Qed.

End OverlappingInvocations.

Section Bound.

Import SlackClaude.

Implicit Types (st : Overlap.Store) (key : string) (r : nat).

Lemma holders_le r l : (holders r l <= length l)%nat.
Proof. unfold holders. apply length_filter. Qed.

Lemma holders_app r l l' : holders r (l ++ l') = (holders r l + holders r l')%nat.
Proof. unfold holders. now rewrite filter_app, length_app. Qed.

Lemma holders_delete r l i e :
  l !! i = Some e ->
  holders r l = (holders r (delete i l) + (if decide (snd e = r) then 1 else 0))%nat.
Proof.
  revert i. induction l as [|x l IH]; intros i; [discriminate|].
  destruct i as [|i]; simpl.
  - intros [= ->]. unfold holders. rewrite filter_cons.
    destruct (decide (snd e = r)); simpl; lia.
  - intros Hi. specialize (IH i Hi). unfold holders in *. rewrite !filter_cons.
    destruct (decide (snd x = r)); simpl; lia.
Qed.

Lemma trimmed_length (h : list Message) :
  (length (if (20 <? length h)%nat then drop (length h - 20) h else h) <= 20)%nat.
Proof. rewrite trim_last_n, last_n_length. lia. Qed.

Lemma handler_call_bounded n st key text :
  bounded n st ->
  (length (Overlap.suspended (fst (Overlap.handler_call st key text))) <= n)%nat ->
  bounded n (fst (Overlap.handler_call st key text)).
Proof.
  intros Hst. unfold Overlap.handler_call.
  destruct (Map_get key (Overlap.conversations st)) as [rr|];
    cbn [fst Overlap.arrays Overlap.suspended]; intros Hn r h Hh;
    cbn [Overlap.arrays Overlap.suspended] in *.
  - destruct (decide (rr = r)) as [->|Hne].
    + apply list_lookup_insert_Some in Hh as [(_ & <- & _)|[? _]]; [|congruence].
      pose proof (trimmed_length (Overlap.array (Overlap.arrays st) r ++ [user_entry text])).
      pose proof (holders_le r (Overlap.suspended st ++ [(key, r)])). lia.
    + rewrite list_lookup_insert_ne in Hh by assumption.
      rewrite holders_app. unfold holders at 2. rewrite filter_cons, filter_nil.
      cbn [snd]. case_decide; [congruence|]. specialize (Hst r h Hh).
      simpl. lia.
  - destruct (decide (length (Overlap.arrays st) = r)) as [<-|Hne].
    + apply list_lookup_insert_Some in Hh as [(_ & <- & _)|[? _]]; [|congruence].
      pose proof (trimmed_length
                    (Overlap.array (Overlap.arrays st ++ [[]]) (length (Overlap.arrays st))
                     ++ [user_entry text])) as H.
      pose proof (holders_le (length (Overlap.arrays st))
                    (Overlap.suspended st ++ [(key, length (Overlap.arrays st))])) as H0.
      eapply Nat.le_trans; [apply Nat.add_le_mono; [exact H | exact H0]|].
      apply Nat.add_le_mono_l. exact Hn.
    + rewrite list_lookup_insert_ne in Hh by assumption.
      assert (Hh' : Overlap.arrays st !! r = Some h).
      { apply lookup_app_Some in Hh as [Hh|[Hge Hh]]; [assumption|].
        apply list_lookup_singleton_Some in Hh as [Hr _]. lia. }
      rewrite holders_app. unfold holders at 2. rewrite filter_cons, filter_nil.
      cbn [snd]. case_decide; [congruence|].
      specialize (Hst r h Hh'). simpl. lia.
Qed.

Lemma handler_resume_bounded n st i response :
  bounded n st -> bounded n (Overlap.handler_resume st i response).
Proof.
  intros Hst. unfold Overlap.handler_resume.
  destruct (Overlap.suspended st !! i) as [[key rr]|] eqn:E; [|assumption].
  destruct response as [response|]; cbn [Overlap.arrays Overlap.suspended]; intros r h Hh;
    cbn [Overlap.arrays Overlap.suspended] in *.
  - pose proof (holders_delete r _ _ _ E) as Hd. cbn [snd] in Hd.
    destruct (decide (rr = r)) as [->|Hne].
    + apply list_lookup_insert_Some in Hh as [(_ & <- & Hr)|[? _]]; [|congruence].
      destruct (lookup_lt_is_Some_2 _ _ Hr) as [old Hold].
      specialize (Hst r old Hold).
      assert (Ho : Overlap.array (Overlap.arrays st) r = old)
        by (unfold Overlap.array; now rewrite Hold).
      rewrite Ho, length_app. cbn [length]. lia.
    + rewrite list_lookup_insert_ne in Hh by assumption.
      specialize (Hst r h Hh). lia.
  - pose proof (holders_delete r _ _ _ E) as Hd. specialize (Hst r h Hh). lia.
Qed.

Lemma peak_from_suspended st events :
  (length (Overlap.suspended st) <= Overlap.peak_from st events)%nat.
Proof. destruct events; simpl; lia. Qed.

Lemma run_from_bounded n events st :
  (Overlap.peak_from st events <= n)%nat -> bounded n st ->
  bounded n (Overlap.run_from st events).
Proof.
  revert st. induction events as [|event events IH]; intros st Hpeak Hst; [assumption|].
  simpl in *. pose proof (peak_from_suspended (Overlap.step st event) events) as Hs.
  apply IH; [lia|]. destruct event as [key text|i response]; simpl in *.
  - apply handler_call_bounded; [assumption | lia].
  - now apply handler_resume_bounded.
Qed.

Lemma run_bounded n events :
  (Overlap.peak events <= n)%nat ->
  Forall (fun h : list Message => (length h <= 20 + n)%nat) (Overlap.arrays (Overlap.run events)).
Proof.
  intros Hpeak. apply Forall_lookup. intros r h Hh.
  assert (Hb : bounded n (Overlap.run events)).
  { apply run_from_bounded; [assumption|]. intros r' h' Hh'. discriminate. }
  specialize (Hb r h Hh). lia.
Qed.

End Bound.

Section OneByOne.

Import SlackClaude.

Implicit Types (st : Overlap.Store) (key : string) (r : nat)
         (arrays : list (list Message)) (m : list (string * nat)).

Lemma view_read st :
  Overlap.view st = map (read (Overlap.arrays st)) (Overlap.conversations st).
Proof. unfold Overlap.view. apply map_ext. now intros [k r]. Qed.

Lemma Map_get_read arrays key m :
  Map_get key (map (read arrays) m) = Overlap.array arrays <$> Map_get key m.
Proof.
  induction m as [|[k r] m IH]; [reflexivity|]. simpl.
  destruct (String.eqb k key); [reflexivity | exact IH].
Qed.

Lemma stored_view key st : stored key (Overlap.view st) = Overlap.stored key st.
Proof.
  unfold stored, Overlap.stored. rewrite view_read, Map_get_read.
  now destruct (Map_get key (Overlap.conversations st)).
Qed.

Lemma Map_set_read arrays key r m :
  map (read arrays) (Map_set key r m)
  = Map_set key (Overlap.array arrays r) (map (read arrays) m).
Proof.
  induction m as [|[k r0] m IH]; [reflexivity|]. simpl.
  destruct (String.eqb k key); simpl; [reflexivity | now rewrite IH].
Qed.

Lemma Map_set_twice {V} key (h h' : V) (m : list (string * V)) :
  Map_set key h' (Map_set key h m) = Map_set key h' m.
Proof.
  induction m as [|[k v] m IH]; simpl.
  - now rewrite String.eqb_refl.
  - destruct (String.eqb k key) eqn:E; simpl; rewrite E; [reflexivity | now rewrite IH].
Qed.

Lemma Map_set_same {V} key (h : V) (m : list (string * V)) :
  Map_get key m = Some h -> Map_set key h m = m.
Proof.
  induction m as [|[k v] m IH]; simpl; [discriminate|].
  destruct (String.eqb k key); [now intros [= ->] | intros Hm; now rewrite IH].
Qed.

(** Arrays that no entry refers to do not show. *)
Lemma read_insert_other arrays r h m :
  r ∉ map snd m -> map (read (<[r := h]> arrays)) m = map (read arrays) m.
Proof.
  intros Hr. apply map_ext_in. intros [k r0] Hin. unfold read. cbn [fst snd].
  rewrite array_insert_ne; [reflexivity|]. intros ->. apply Hr.
  apply list_elem_of_In in Hin. apply (list_elem_of_fmap_2 snd) in Hin. exact Hin.
Qed.

Lemma read_app arrays arrays' m :
  Forall (fun e => (snd e < length arrays)%nat) m ->
  map (read (arrays ++ arrays')) m = map (read arrays) m.
Proof.
  intros Hm. apply map_ext_in. intros [k r0] Hin. unfold read, Overlap.array. cbn [fst snd].
  rewrite Forall_forall in Hm. apply list_elem_of_In in Hin. specialize (Hm _ Hin).
  cbn [snd] in Hm. now rewrite lookup_app_l.
Qed.

(** Writing the array of a key shows under that key only. *)
Lemma read_insert arrays key r h m :
  NoDup (map snd m) -> Map_get key m = Some r -> (r < length arrays)%nat ->
  map (read (<[r := h]> arrays)) m = Map_set key h (map (read arrays) m).
Proof.
  intros Hnd Hkey Hr. induction m as [|[k r0] m IH]; [discriminate|].
  simpl in *. apply NoDup_cons in Hnd as [Hr0 Hnd].
  destruct (String.eqb k key).
  - injection Hkey as ->. unfold read at 1. cbn [fst snd].
    rewrite array_insert by assumption. f_equal. now apply read_insert_other.
  - rewrite IH by assumption. f_equal. unfold read. cbn [fst snd].
    rewrite array_insert_ne; [reflexivity|]. intros ->. apply Hr0.
    apply Map_get_Some_elem in Hkey. apply (list_elem_of_fmap_2 snd) in Hkey. exact Hkey.
Qed.

Lemma cleanup_loop_read arrays m size :
  map (read arrays) (Overlap.cleanup_loop arrays m size)
  = cleanup_loop (map (read arrays) m) size.
Proof.
  revert size. induction m as [|[k r] m IH]; intros size; [reflexivity|]. simpl.
  destruct (length (Overlap.array arrays r) =? 0)%nat; [apply IH|].
  destruct (100 <? size)%nat; [apply IH|]. simpl. now rewrite IH.
Qed.

Lemma handler_call_view st key text :
  settled st ->
  Overlap.view (fst (Overlap.handler_call st key text))
  = fst (handler_history (Overlap.view st) key text).
Proof.
  intros (_ & Hnd & Hc & _). rewrite !view_read.
  unfold Overlap.handler_call, handler_history. rewrite Map_get_read.
  destruct (Map_get key (Overlap.conversations st)) as [r|] eqn:E;
    cbn [fst Overlap.arrays Overlap.conversations fmap option_fmap option_map default].
  - apply read_insert; [assumption | assumption|].
    apply Map_get_Some_elem in E. rewrite Forall_forall in Hc. apply (Hc _ E).
  - rewrite read_insert_other.
    + now apply read_app.
    + intros Hin. apply list_elem_of_fmap in Hin as (e & Heq & He).
      rewrite Forall_forall in Hc. specialize (Hc _ He). lia.
Qed.

Lemma Map_set_read_length arrays key r (h : list Message) m :
  length (Map_set key h (map (read arrays) m)) = length (Map_set key r m).
Proof.
  induction m as [|[k r0] m IH]; [reflexivity|]. simpl.
  destruct (String.eqb k key); simpl; [now rewrite length_map | now rewrite IH].
Qed.

(** The invocation a call leaves suspended: its key and its array, which
    holds the history handed over and is the array of the key when the key
    is present, a new one otherwise. *)
Lemma handler_call_suspends st key text :
  allocated st ->
  exists r,
    Overlap.suspended (fst (Overlap.handler_call st key text))
    = Overlap.suspended st ++ [(key, r)] /\
    Overlap.conversations (fst (Overlap.handler_call st key text)) = Overlap.conversations st /\
    Overlap.array (Overlap.arrays (fst (Overlap.handler_call st key text))) r
    = snd (Overlap.handler_call st key text) /\
    match Map_get key (Overlap.conversations st) with
    | Some r' => r' = r
    | None => r ∉ map snd (Overlap.conversations st)
    end.
Proof.
  intros [Hc Hs]. unfold Overlap.handler_call.
  destruct (Map_get key (Overlap.conversations st)) as [r|] eqn:E;
    cbn [fst snd Overlap.arrays Overlap.conversations Overlap.suspended].
  - exists r. repeat split. apply array_insert.
    apply Map_get_Some_elem in E. rewrite Forall_forall in Hc. apply (Hc _ E).
  - exists (length (Overlap.arrays st)). repeat split.
    + apply array_insert. rewrite length_app. simpl. lia.
    + intros Hin. apply list_elem_of_fmap in Hin as (e & Heq & He).
      rewrite Forall_forall in Hc. specialize (Hc _ He). lia.
Qed.

(** The rest of the [try] block, for the only invocation suspended. *)
Lemma handler_resume_view st key r response :
  allocated st -> NoDup (map snd (Overlap.conversations st)) ->
  Overlap.suspended st = [(key, r)] ->
  match Map_get key (Overlap.conversations st) with
  | Some r' => r' = r
  | None => r ∉ map snd (Overlap.conversations st)
  end ->
  settled (Overlap.handler_resume st 0 response) /\
  Overlap.view (Overlap.handler_resume st 0 response)
  = match response with
    | Some response =>
        handler_save (Overlap.view st) key (Overlap.array (Overlap.arrays st) r) response
    | None => Overlap.view st
    end.
Proof.
  intros Hall Hnd Hsus Hkey.
  assert (Hset : settled (Overlap.handler_resume st 0 response)).
  { split; [|split].
    - unfold Overlap.handler_resume. rewrite Hsus. cbn [lookup list_lookup].
      destruct response; reflexivity.
    - unfold Overlap.handler_resume. rewrite Hsus. cbn [lookup list_lookup].
      destruct response as [response|]; cbn [Overlap.conversations]; [|assumption].
      eapply sublist_NoDup; [|apply (fmap_sublist snd), store_cleanup_loop_sublist].
      destruct (Map_get key (Overlap.conversations st)) as [r'|] eqn:E.
      + subst r'. now rewrite Map_set_same.
      + rewrite Map_set_absent by assumption. rewrite fmap_app. cbn [fmap list_fmap snd].
        apply NoDup_app. split; [assumption|]. split; [|apply NoDup_singleton].
        intros x Hx Hx'. apply list_elem_of_singleton in Hx' as ->. contradiction.
    - now apply handler_resume_allocated. }
  split; [exact Hset|].
  unfold Overlap.handler_resume. rewrite Hsus. cbn [lookup list_lookup].
  destruct response as [response|]; [|reflexivity].
  assert (Hr : (r < length (Overlap.arrays st))%nat).
  { destruct Hall as [_ Hs]. rewrite Hsus in Hs. now inversion Hs. }
  rewrite !view_read. cbn [Overlap.arrays Overlap.conversations].
  unfold handler_save, cleanupConversations.
  rewrite cleanup_loop_read, Map_set_read, array_insert by assumption.
  rewrite (Map_set_read_length (Overlap.arrays st) key r).
  f_equal. fold (assistant_entry response).
  destruct (Map_get key (Overlap.conversations st)) as [r'|] eqn:E.
  - subst r'. rewrite (read_insert _ key) by assumption. apply Map_set_twice.
  - now rewrite read_insert_other.
Qed.

(** A message handled to the end while nothing else runs is a turn of the
    cache. *)
Lemma turn_view st key text response :
  settled st ->
  settled (Overlap.run_from st [Overlap.Arrives key text; Overlap.Resumes 0 response]) /\
  Overlap.view (Overlap.run_from st [Overlap.Arrives key text; Overlap.Resumes 0 response])
  = handler_turn (Overlap.view st) key text response.
Proof.
  intros Hst. pose proof Hst as (Hsus & Hnd & Hall).
  destruct (handler_call_suspends st key text Hall) as (r & Hs1 & Hc1 & Ha1 & Hkey).
  rewrite Hsus in Hs1. cbn [app] in Hs1.
  pose proof (handler_call_allocated st key text Hall) as Hall1.
  pose proof (handler_call_view st key text Hst) as Hview.
  cbn [Overlap.run_from fold_left Overlap.step].
  destruct (handler_resume_view (fst (Overlap.handler_call st key text)) key r response)
    as [Hset Hv]; try assumption; try (rewrite Hc1; assumption).
  split; [exact Hset|]. rewrite Hv, Ha1, Hview. unfold handler_turn.
  rewrite handler_call_snd, <- stored_view, <- handler_history_snd.
  now destruct (handler_history (Overlap.view st) key text).
Qed.

Lemma one_by_one_view turns st :
  settled st ->
  settled (Overlap.run_from st (Overlap.one_by_one turns)) /\
  Overlap.view (Overlap.run_from st (Overlap.one_by_one turns))
  = run_from (Overlap.view st) turns.
Proof.
  revert st. induction turns as [|[[key text] response] turns IH]; intros st Hst.
  - now split.
  - destruct (turn_view st key text response Hst) as [Hset Hv].
    destruct (IH _ Hset) as [Hset' Hv'].
    change (Overlap.one_by_one ((key, text, response) :: turns))
      with ([Overlap.Arrives key text; Overlap.Resumes 0 response]
            ++ Overlap.one_by_one turns).
    unfold Overlap.run_from in *. rewrite fold_left_app.
    split; [exact Hset'|]. rewrite Hv', Hv. reflexivity.
Qed.

Lemma settled_empty : settled Overlap.empty.
Proof. split; [reflexivity|]. split; [constructor|]. split; constructor. Qed.

End OneByOne.

Section OneByOnePeak.

Import SlackClaude.

Lemma one_by_one_peak turns st :
  settled st -> (Overlap.peak_from st (Overlap.one_by_one turns) <= 1)%nat.
Proof.
  revert st. induction turns as [|[[key text] response] turns IH]; intros st Hst.
  - destruct Hst as [Hsus _]. simpl. rewrite Hsus. simpl. lia.
  - destruct (turn_view st key text response Hst) as [Hset _].
    specialize (IH _ Hset). pose proof Hst as (Hsus & _ & Hall).
    destruct (handler_call_suspends st key text Hall) as (r & Hs1 & _).
    rewrite Hsus in Hs1.
    change (Overlap.one_by_one ((key, text, response) :: turns))
      with (Overlap.Arrives key text :: Overlap.Resumes 0 response
            :: Overlap.one_by_one turns).
    cbn [Overlap.peak_from]. rewrite Hsus.
    change (Overlap.step st (Overlap.Arrives key text))
      with (fst (Overlap.handler_call st key text)).
    rewrite Hs1. cbn [length app].
    cbn [Overlap.run_from fold_left] in Hset, IH.
    change (Overlap.step st (Overlap.Arrives key text))
      with (fst (Overlap.handler_call st key text)) in IH.
    lia.
Qed.

End OneByOnePeak.

(** C4, as the code has it. The trim bounds the history handed to the
    LLM, not the stored sequence.
    - Whatever invocations ran before and however they overlapped, the
      history handed to the LLM for a new message is what the cache holds
      under the key at that moment (nothing when the key is absent) and,
      last, the message, cut to its last 20 entries when it has more; it
      has between 1 and 20 entries and, when the key is present, it is
      what the cache holds under the key when the handler is suspended at
      the call.
    - The reply is pushed after the trim: if at most [n] invocations are
      ever suspended at the call together, no array of the store and no
      stored sequence exceeds [20 + n] entries.
    - Invocations that do not overlap have at most one suspended, so the
      stored sequence never exceeds 21 entries.
    - When invocations do not overlap, consecutive exchanges of a thread
      leave under its key the last 21 of what the cache held under the key
      before them followed by the entries they appended, and the next
      message of the thread hands the LLM the last 20 of what the cache
      held before them, the entries they appended and the message: from a
      key that is not in the cache, 12 exchanges and a 13th message, 25
      entries, give the last 20 of them. *)
Theorem conversation_window :
  (forall events key text,
     let st := Overlap.run events in
     let history := snd (Overlap.handler_call st key text) in
     history = SlackClaude.last_n 20
                 (Overlap.stored key st ++ [SlackClaude.user_entry text]) /\
     (1 <= length history <= 20)%nat /\
     (Map_get key (Overlap.conversations st) <> None ->
      Overlap.stored key (fst (Overlap.handler_call st key text)) = history)) /\
  (forall events n,
     (Overlap.peak events <= n)%nat ->
     Forall (fun h : list SlackClaude.Message => (length h <= 20 + n)%nat)
            (Overlap.arrays (Overlap.run events)) /\
     forall key, (length (Overlap.stored key (Overlap.run events)) <= 20 + n)%nat) /\
  (forall turns,
     (Overlap.peak (Overlap.one_by_one turns) <= 1)%nat /\
     forall key,
       (length (Overlap.stored key (Overlap.run (Overlap.one_by_one turns))) <= 21)%nat) /\
  (forall turns key exchanges text,
     let st0 := Overlap.run (Overlap.one_by_one turns) in
     let st := Overlap.run_from st0
                 (Overlap.one_by_one (SlackClaude.exchanges_on key exchanges)) in
     Overlap.stored key st
     = SlackClaude.last_n 21 (Overlap.stored key st0 ++ SlackClaude.appended exchanges) /\
     snd (Overlap.handler_call st key text)
     = SlackClaude.last_n 20
         (Overlap.stored key st0 ++ SlackClaude.appended exchanges
          ++ [SlackClaude.user_entry text])).
Proof.
  assert (Hstored : forall events n key,
            (Overlap.peak events <= n)%nat ->
            (length (Overlap.stored key (Overlap.run events)) <= 20 + n)%nat).
  { intros events n key Hpeak. pose proof (run_bounded n events Hpeak) as Hall.
    unfold Overlap.stored, Overlap.array.
    destruct (Map_get key _) as [r|]; [|simpl; lia].
    destruct (Overlap.arrays (Overlap.run events) !! r) as [h|] eqn:E; [|simpl; lia].
    rewrite Forall_lookup in Hall. apply (Hall _ _ E). }
  split; [|split; [|split]].
  - intros events key text st history.
    assert (Hh : history = SlackClaude.last_n 20
                   (Overlap.stored key st ++ [SlackClaude.user_entry text]))
      by apply handler_call_snd.
    split; [exact Hh|]. split.
    + rewrite Hh, last_n_length, length_app. cbn [length]. lia.
    + intros Hkey. apply handler_call_alias; [apply run_allocated | exact Hkey].
  - intros events n Hpeak. split; [now apply run_bounded | intros key; now apply Hstored].
  - intros turns.
    assert (Hpeak : (Overlap.peak (Overlap.one_by_one turns) <= 1)%nat)
      by apply one_by_one_peak, settled_empty.
    split; [exact Hpeak|]. intros key. apply (Hstored _ 1%nat key Hpeak).
  - intros turns key exchanges text st0 st.
    destruct (one_by_one_view turns Overlap.empty settled_empty) as [Hset0 Hv0].
    destruct (one_by_one_view (SlackClaude.exchanges_on key exchanges) st0 Hset0)
      as [Hset Hv].
    change (Overlap.view Overlap.empty) with (@nil (string * list SlackClaude.Message)) in Hv0.
    fold (SlackClaude.run turns) in Hv0.
    assert (Hst : Overlap.stored key st
                  = SlackClaude.last_n 21
                      (Overlap.stored key st0 ++ SlackClaude.appended exchanges)).
    { rewrite <- !stored_view. subst st st0. unfold Overlap.run in *.
      rewrite Hv, Hv0. apply run_from_stored, run_inv. }
    split; [exact Hst|].
    rewrite handler_call_snd, Hst.
    rewrite (last_n_app 20 21) by (simpl; lia). now rewrite <- app_assoc.
Qed.

(** Ten exchanges in a thread, then two messages that arrive before
    either is answered: both invocations hold the stored array, each reply
    is pushed after the trim, and the cache ends with 22 entries. *)
Lemma overlapping_replies_exceed_21 :
  let ten := Overlap.one_by_one
               (SlackClaude.exchanges_on SlackClaude.thread_key
                  (take 10 SlackClaude.thirteen_exchanges)) in
  let events := ten ++ [Overlap.Arrives SlackClaude.thread_key "q11";
                        Overlap.Arrives SlackClaude.thread_key "q12";
                        Overlap.Resumes 0 (Some "r11"%string);
                        Overlap.Resumes 0 (Some "r12"%string)] in
  Overlap.peak events = 2%nat /\
  map SlackClaude.content (Overlap.stored SlackClaude.thread_key (Overlap.run events))
  = ["q2"; "r2"; "q3"; "r3"; "q4"; "r4"; "q5"; "r5"; "q6"; "r6"; "q7"; "r7";
     "q8"; "r8"; "q9"; "r9"; "q10"; "r10"; "q11"; "q12"; "r11"; "r12"].
Proof. vm_compute. split; reflexivity. Qed.

(** Thirteen exchanges in one thread append 26 entries; the cache then
    holds 21 of them, from the third reply on, not 20. *)
Lemma stored_history_exceeds_20 :
  map SlackClaude.content
      (SlackClaude.stored SlackClaude.thread_key
         (SlackClaude.run
            (SlackClaude.exchanges_on SlackClaude.thread_key
               SlackClaude.thirteen_exchanges)))
  = ["r3"; "q4"; "r4"; "q5"; "r5"; "q6"; "r6"; "q7"; "r7"; "q8"; "r8"; "q9";
     "r9"; "q10"; "r10"; "q11"; "r11"; "q12"; "r12"; "q13"; "r13"] /\
  ~ (length (SlackClaude.stored SlackClaude.thread_key
               (SlackClaude.run
                  (SlackClaude.exchanges_on SlackClaude.thread_key
                     SlackClaude.thirteen_exchanges))) <= 20)%nat.
Proof. evaluate. Qed.

(** C7. The maintenance pass leaves at most 100 entries whatever the cache
    was, and what it leaves are whole entries of the cache in their order;
    the pass closes every append of a reply, so the cache of a running
    process always holds at most 100 keys, all distinct. *)
Theorem cleanupConversations_cap :
  (forall c,
     (length (SlackClaude.cleanupConversations c) <= 100)%nat /\
     sublist (SlackClaude.cleanupConversations c) c) /\
  (forall c key history response,
     (length (SlackClaude.handler_save c key history response) <= 100)%nat) /\
  (forall turns,
     NoDup (keys (SlackClaude.run turns)) /\
     (length (keys (SlackClaude.run turns)) <= 100)%nat).
Proof.
  split; [|split].
  - intros c. split; [apply cleanupConversations_length | apply cleanup_loop_sublist].
  - intros c key history response. apply cleanupConversations_length.
  - intros turns. destruct (run_inv turns) as (Hnd & Hlen & _).
    split; [assumption|]. unfold keys. now rewrite length_map.
Qed.

(** ** Request signatures *)

Section SignatureFacts.

Context `{Runtime}.

Lemma Buffer_from_append s t :
  Buffer_from (s +:+ t) = Buffer_from s ++ Buffer_from t.
Proof.
  unfold Buffer_from. induction s as [|c s IH]; [reflexivity|].
  rewrite str_append_cons. simpl. now rewrite IH, app_assoc.
Qed.

Lemma expected_signature_length secret timestamp req :
  (3 <= length (Buffer_from (expected_signature secret timestamp req)))%nat.
Proof.
  unfold expected_signature. rewrite Buffer_from_append, length_app.
  change (length (Buffer_from "v0=")) with 3%nat. lia.
Qed.

Lemma absent_false v : absent v = false <-> exists c s, v = Some (String c s).
Proof.
  destruct v as [[|c s]|]; simpl; split; try discriminate; eauto;
    intros (c' & s' & [=]).
Qed.

Lemma timingSafeEqual_same a : timingSafeEqual a a = Ok true.
Proof.
  unfold timingSafeEqual. rewrite Nat.eqb_refl. now rewrite bool_decide_eq_true_2.
Qed.

Lemma timingSafeEqual_differ a b :
  length a = length b -> a <> b -> timingSafeEqual a b = Ok false.
Proof.
  intros Hlen Hne. unfold timingSafeEqual. rewrite Hlen, Nat.eqb_refl.
  now rewrite bool_decide_eq_false_2.
Qed.

Lemma timingSafeEqual_throws a b :
  length a <> length b -> timingSafeEqual a b = Throw RangeError.
Proof.
  intros Hne. unfold timingSafeEqual.
  now destruct (Nat.eqb_spec (length a) (length b)).
Qed.

Lemma parseInt_nonempty timestamp t : parseInt timestamp = Some t -> timestamp <> EmptyString.
Proof. intros Hp ->. discriminate. Qed.

(** With both headers and the secret present, verification is the window
    test followed by the comparison of the two buffers. *)
Lemma verifySlackSignature_present env now req timestamp signature secret :
  req_headers req !! "x-slack-request-timestamp" = Some timestamp ->
  req_headers req !! "x-slack-signature" = Some signature ->
  env !! "SLACK_SIGNING_SECRET" = Some secret ->
  timestamp <> EmptyString -> signature <> EmptyString -> secret <> EmptyString ->
  verifySlackSignature env now req =
  if match parseInt timestamp with
     | Some t => Z.abs (now - t) >? 300
     | None => false
     end
  then Ok false
  else timingSafeEqual (Buffer_from (expected_signature secret timestamp req))
                       (Buffer_from signature).
Proof.
  intros Hts Hsig Hsecret Hts' Hsig' Hsecret'. unfold verifySlackSignature.
  rewrite Hts, Hsig, Hsecret.
  destruct timestamp; [contradiction|]. destruct signature; [contradiction|].
  destruct secret; [contradiction|]. reflexivity.
Qed.

(** Verification fails closed. *)
Lemma verifySlackSignature_fails_closed env now req :
  absent (req_headers req !! "x-slack-request-timestamp")
  || absent (req_headers req !! "x-slack-signature")
  || absent (env !! "SLACK_SIGNING_SECRET") = true ->
  verifySlackSignature env now req = Ok false.
Proof.
  unfold verifySlackSignature.
  destruct (req_headers req !! "x-slack-request-timestamp") as [[|c1 s1]|];
    destruct (req_headers req !! "x-slack-signature") as [[|c2 s2]|];
    destruct (env !! "SLACK_SIGNING_SECRET") as [[|c3 s3]|];
    simpl; try reflexivity; discriminate.
Qed.

Lemma verifySlackSignature_stale env now req timestamp t :
  req_headers req !! "x-slack-request-timestamp" = Some timestamp ->
  parseInt timestamp = Some t -> 300 < Z.abs (now - t) ->
  verifySlackSignature env now req = Ok false.
Proof.
  intros Hts Hp Hold. unfold verifySlackSignature. rewrite Hts, Hp.
  destruct (req_headers req !! "x-slack-signature") as [signature|]; [|reflexivity].
  destruct (env !! "SLACK_SIGNING_SECRET") as [secret|]; [|reflexivity].
  destruct (_ || _); [reflexivity|].
  now destruct (Z.gtb_spec (Z.abs (now - t)) 300); [|lia].
Qed.

End SignatureFacts.

(** What holds of verification. A request signed with the configured
    secret over "v0:" + timestamp + ":" + body, where body is the text that
    the function signs, and whose timestamp is within 300 seconds of now,
    verifies; the same request with one byte of the signature's buffer
    changed does not; and a request whose timestamp is more than 300
    seconds away from now, 301 seconds old for one, does not verify
    whatever its signature. *)
Lemma verifySlackSignature_accepts `{Runtime}
        (env : Env) (now : Z) (req : Request) (timestamp secret : string) (t : Z) :
  req_headers req !! "x-slack-request-timestamp" = Some timestamp ->
  env !! "SLACK_SIGNING_SECRET" = Some secret ->
  secret <> EmptyString ->
  parseInt timestamp = Some t ->
  let expected := expected_signature secret timestamp req in
  (Z.abs (now - t) <= 300 ->
   req_headers req !! "x-slack-signature" = Some expected ->
   verifySlackSignature env now req = Ok true) /\
  (forall (signature : string) (i : nat) (b : Z),
     Z.abs (now - t) <= 300 ->
     req_headers req !! "x-slack-signature" = Some signature ->
     (i < length (Buffer_from expected))%nat ->
     Buffer_from expected !! i <> Some b ->
     Buffer_from signature = <[i := b]> (Buffer_from expected) ->
     verifySlackSignature env now req = Ok false) /\
  (now - t = 301 -> verifySlackSignature env now req = Ok false) /\
  (300 < Z.abs (now - t) -> verifySlackSignature env now req = Ok false).
Proof.
  intros Hts Hsecret Hsecret' Hp expected.
  pose proof (parseInt_nonempty _ _ Hp) as Hts'.
  pose proof (expected_signature_length secret timestamp req) as Hlen.
  subst expected.
  split; [|split; [|split]].
  - intros Hwin Hsig.
    rewrite (verifySlackSignature_present env now req timestamp _ secret Hts Hsig)
      by (try assumption; intros E; rewrite E in Hlen; simpl in Hlen; lia).
    rewrite Hp. destruct (Z.gtb_spec (Z.abs (now - t)) 300); [lia|].
    apply timingSafeEqual_same.
  - intros signature i b Hwin Hsig Hi Hb Hflip.
    rewrite (verifySlackSignature_present env now req timestamp signature secret);
      try assumption.
    + rewrite Hp. destruct (Z.gtb_spec (Z.abs (now - t)) 300); [lia|].
      apply timingSafeEqual_differ.
      * now rewrite Hflip, length_insert.
      * intros E. apply Hb. rewrite E at 1. rewrite Hflip.
        now apply list_lookup_insert_eq.
    + intros E. rewrite E in Hflip. simpl in Hflip.
      apply (f_equal length) in Hflip. rewrite length_insert in Hflip.
      simpl in Hflip. lia.
  - intros Hold. apply (verifySlackSignature_stale env now req timestamp t); try assumption.
    lia.
  - intros Hold. now apply (verifySlackSignature_stale env now req timestamp t).
Qed.

(** The command signed over the text that the function signs is accepted
    100 seconds later and refused 301 seconds later, and it is refused
    with the last digit of its signature changed. *)
Lemma verifySlackSignature_accepts_sample :
  verifySlackSignature Sample.env Sample.now
    (Sample.signed Sample.timestamp Sample.good_signature) = Ok true /\
  verifySlackSignature Sample.env Sample.now
    (Sample.signed Sample.timestamp Sample.forged_signature) = Ok false /\
  verifySlackSignature Sample.env 1712000301
    (Sample.signed Sample.timestamp Sample.good_signature) = Ok false.
Proof.
  split; [|split].
  - apply (verifySlackSignature_accepts Sample.env Sample.now
             (Sample.signed Sample.timestamp Sample.good_signature)
             Sample.timestamp Sample.secret 1712000000);
      vm_compute; first [reflexivity | discriminate].
  - apply (verifySlackSignature_accepts Sample.env Sample.now
             (Sample.signed Sample.timestamp Sample.forged_signature)
             Sample.timestamp Sample.secret 1712000000 eq_refl eq_refl
             ltac:(discriminate) eq_refl)
      with (signature := Sample.forged_signature) (i := 66%nat) (b := 49);
      vm_compute; first [reflexivity | discriminate | lia].
  - apply (verifySlackSignature_accepts Sample.env 1712000301
             (Sample.signed Sample.timestamp Sample.good_signature)
             Sample.timestamp Sample.secret 1712000000);
      vm_compute; first [reflexivity | discriminate].
Qed.

(** C1, at inputs where it fails. A slash command arrives form-encoded
    and the platform hands the handler its parsed fields; the function
    then signs [JSON.stringify] of the fields instead of the text that was
    sent, so the command signed by the sender over
    "v0:" + timestamp + ":" + rawBody, 100 seconds old, does not verify and
    is answered 401. And a signature that differs from the one the
    function accepts in one byte, the last with its top bit flipped, is
    two bytes longer once encoded: verification throws instead of
    returning [false]. *)
Theorem verifySlackSignature_rejects_signed_request :
  Sample.form_decode Sample.raw_body = Sample.command_body /\
  Sample.slack_signature
    = "v0=" +:+ Sample.hmac_sha256_hex Sample.secret
                  ("v0:" +:+ Sample.timestamp +:+ ":" +:+ Sample.raw_body) /\
  Z.abs (Sample.now - 1712000000) <= 300 /\
  verifySlackSignature Sample.env Sample.now
    (Sample.signed Sample.timestamp Sample.slack_signature) = Ok false /\
  effects (SlackCommands.handler Sample.env Sample.now
             (Sample.signed Sample.timestamp Sample.slack_signature))
    = [Respond 401 (JObj [("error", JStr "Invalid signature")])] /\
  verifySlackSignature Sample.env Sample.now
    (Sample.signed Sample.timestamp Sample.good_signature) = Ok true /\
  String.length Sample.flipped_signature = String.length Sample.good_signature /\
  verifySlackSignature Sample.env Sample.now
    (Sample.signed Sample.timestamp Sample.flipped_signature) = Throw RangeError.
Proof. evaluate. Qed.

(** C3, at an input where it fails. Verification answers [false] when a
    header or the secret is missing, but a signature whose length differs
    from that of the expected one makes [timingSafeEqual] throw: the
    two-character signature "v0" raises a [RangeError] under every runtime,
    and so does a real signature cut short. The handler then responds
    nothing at all. *)
Theorem verifySlackSignature_throws `{Runtime} :
  verifySlackSignature Sample.env Sample.now (Sample.signed Sample.timestamp "v0")
    = Throw RangeError /\
  @verifySlackSignature Sample.runtime Sample.env Sample.now
    (Sample.signed Sample.timestamp "v0=05d34cbef7617b7a8eb65809d1e042a0")
    = Throw RangeError /\
  run_eff (@SlackCommands.handler Sample.runtime Sample.world Sample.commands
             Sample.env Sample.now (Sample.signed Sample.timestamp "v0")) []
    = ([], Throw RangeError) /\
  (forall env now req,
     verifySlackSignature (delete "SLACK_SIGNING_SECRET" env) now req = Ok false) /\
  (forall env now method headers body,
     verifySlackSignature env now
       {| req_method := method;
          req_headers := delete "x-slack-signature" headers;
          req_body := body |} = Ok false) /\
  (forall env now method headers body,
     verifySlackSignature env now
       {| req_method := method;
          req_headers := delete "x-slack-request-timestamp" headers;
          req_body := body |} = Ok false).
Proof.
  split; [|split; [|split; [|split; [|split]]]].
  - rewrite (verifySlackSignature_present Sample.env Sample.now _
               Sample.timestamp "v0" Sample.secret);
      try reflexivity; discriminate.
  - vm_compute. reflexivity.
  - vm_compute. reflexivity.
  - intros env now req. apply verifySlackSignature_fails_closed.
    rewrite lookup_delete_eq. simpl. now rewrite !orb_true_r.
  - intros env now method headers body. apply verifySlackSignature_fails_closed.
    simpl. rewrite lookup_delete_eq. simpl. now rewrite orb_true_r.
  - intros env now method headers body. apply verifySlackSignature_fails_closed.
    simpl. rewrite lookup_delete_eq. reflexivity.
Qed.

(** ** The signature check of the handlers *)

(** With no signing secret configured verification returns [false] for
    the unsigned command and click, yet both are acknowledged with 200 and
    their result is posted to the callback URL; a request that is not a
    POST is answered 405, and an unreadable payload 400, whatever the
    signature. *)
Lemma unverified_event_processed :
  verifySlackSignature ∅ Sample.now (Sample.unsigned "POST" Sample.command_body)
    = Ok false /\
  effects (SlackCommands.handler ∅ Sample.now
             (Sample.unsigned "POST" Sample.command_body))
    = [Respond 200 (JObj [("response_type", JStr "ephemeral");
                          ("text", JStr "Processing your `/deploy` command...")]);
       Fetch "https://hooks.slack.com/commands/1234"
             (JObj [("response_type", JStr "in_channel");
                    ("text", JStr "confirm deploy")])] /\
  verifySlackSignature ∅ Sample.now (Sample.unsigned "POST" Sample.action_body)
    = Ok false /\
  (exists message,
     effects (SlackActions.handler ∅ Sample.now
                (Sample.unsigned "POST" Sample.action_body))
     = [Respond 200 JUndefined;
        Fetch "https://hooks.slack.com/actions/1234" message]) /\
  verifySlackSignature Sample.env Sample.now
    (Sample.unsigned "GET" Sample.command_body) = Ok false /\
  effects (SlackCommands.handler Sample.env Sample.now
             (Sample.unsigned "GET" Sample.command_body))
    = [Respond 405 (JObj [("error", JStr "Method not allowed")])] /\
  verifySlackSignature Sample.env Sample.now
    (Sample.unsigned "POST" (JStr "payload=%7B")) = Ok false /\
  effects (SlackActions.handler Sample.env Sample.now
             (Sample.unsigned "POST" (JStr "payload=%7B")))
    = [Respond 400 (JObj [("error", JStr "Invalid payload")])].
Proof. evaluate. Qed.

(** C2, as the code has it. For a POST request, when a signing secret is
    configured and verification returns [false], the command endpoint
    responds 401 and does nothing else; so does the button endpoint when
    the payload can be read, and when it cannot the endpoint responds 400
    and does nothing else. *)
Theorem unverified_request_rejected
        `{Runtime} `{World} `{SlackCommands.Commands} `{SlackActions.Actions}
        (env : Env) (now : Z) (req : Request) :
  req_method req = "POST" ->
  absent (env !! "SLACK_SIGNING_SECRET") = false ->
  verifySlackSignature env now req = Ok false ->
  run_eff (SlackCommands.handler env now req) []
    = ([Respond 401 (JObj [("error", JStr "Invalid signature")])], Ok tt) /\
  (forall payload,
     SlackActions.payload_of (req_body req) = Ok payload ->
     run_eff (SlackActions.handler env now req) []
     = ([Respond 401 (JObj [("error", JStr "Invalid signature")])], Ok tt)) /\
  (forall e,
     SlackActions.payload_of (req_body req) = Throw e ->
     run_eff (SlackActions.handler env now req) []
     = ([Respond 400 (JObj [("error", JStr "Invalid payload")])], Ok tt)).
Proof.
  intros Hpost Hsecret Hverify. split; [|split].
  - unfold SlackCommands.handler. rewrite Hpost, Hsecret. simpl.
    rewrite Hverify. reflexivity.
  - intros payload Hpayload. unfold SlackActions.handler.
    rewrite Hpost, Hpayload, Hsecret. simpl. rewrite Hverify. reflexivity.
  - intros e Hpayload. unfold SlackActions.handler.
    rewrite Hpost, Hpayload. reflexivity.
Qed.

Lemma unverified_request_rejected_witness :
  run_eff (SlackCommands.handler Sample.env Sample.now
             (Sample.signed Sample.timestamp Sample.forged_signature)) []
    = ([Respond 401 (JObj [("error", JStr "Invalid signature")])], Ok tt) /\
  run_eff (SlackActions.handler Sample.env Sample.now
             (Sample.signed Sample.timestamp Sample.forged_signature)) []
    = ([Respond 401 (JObj [("error", JStr "Invalid signature")])], Ok tt).
Proof.
  destruct (unverified_request_rejected Sample.env Sample.now
              (Sample.signed Sample.timestamp Sample.forged_signature))
    as (Hcommands & Hactions & _).
  - reflexivity.
  - reflexivity.
  - vm_compute. reflexivity.
  - split; [exact Hcommands|]. apply (Hactions Sample.command_body). reflexivity.
Defined.

(** ** Grouping of error reports *)

Section Grouping.

(** A key holds a colon, and no member that an object inherits has a colon
    in its name: [groups[key]] is an own property or [undefined]. *)
Lemma group_key_not_inherited type message :
  Object_prototype (type +:+ ":" +:+ message) = None.
Proof.
  assert (Hcolon : forall name : string,
            In name ["__proto__"; "constructor"; "__defineGetter__";
                     "__defineSetter__"; "hasOwnProperty"; "__lookupGetter__";
                     "__lookupSetter__"; "isPrototypeOf"; "propertyIsEnumerable";
                     "toString"; "valueOf"; "toLocaleString"] ->
            type +:+ ":" +:+ message <> name).
  { intros name Hin E.
    assert (Hhas : forall s t : string,
              existsb (Ascii.eqb ":") (list_ascii_of_string (s +:+ ":" +:+ t)) = true).
    { intros s t. induction s as [|c s IH]; [reflexivity|].
      rewrite str_append_cons. simpl. rewrite IH. apply orb_true_r. }
    specialize (Hhas type message). rewrite E in Hhas.
    simpl in Hin. repeat (destruct Hin as [<-|Hin]; [discriminate Hhas|]).
    contradiction. }
  unfold Object_prototype.
  destruct (String.eqb_spec (type +:+ ":" +:+ message) "__proto__") as [E|_].
  - exfalso. apply (Hcolon _ ltac:(left; reflexivity) E).
  - match goal with |- (if ?b then _ else _) = _ => destruct b eqn:Eb end;
      [|reflexivity].
    exfalso. apply existsb_exists in Eb as (name & Hin & Heq).
    apply String.eqb_eq in Heq. apply (Hcolon name); [right; exact Hin | exact Heq].
Qed.

(** Two reports of one error, whatever their timestamps, make one group of
    count 2 that carries the first report. *)
Lemma groupErrors_same_error type message timestamp timestamp' :
  ReportError.groupErrors [Sample.report type message timestamp;
                           Sample.report type message timestamp']
  = Ok [JObj [("type", JStr type); ("message", JStr message);
              ("severity", JStr "error"); ("timestamp", JStr timestamp);
              ("count", JNum 2)]].
Proof.
  unfold ReportError.groupErrors, ReportError.group_loop, ReportError.group_step.
  simpl. rewrite String.eqb_refl. reflexivity.
Qed.

Lemma count_of_new props :
  ReportError.count_of (JObj (Map_set "count" (JNum 1) props)) = Some 1.
Proof. unfold ReportError.count_of. now rewrite Map_get_set. Qed.

Lemma count_of_increment group n :
  ReportError.count_of group = Some n ->
  ReportError.count_of (ReportError.increment_count group) = Some (n + 1).
Proof.
  unfold ReportError.count_of, ReportError.increment_count.
  destruct group as [| | | | |?|props]; try discriminate.
  destruct (Map_get "count" props) as [[| | |m| | |]|] eqn:E; try discriminate.
  intros [= ->]. now rewrite Map_get_set.
Qed.

Lemma keys_Map_set {V} key (v : V) (m : list (string * V)) :
  keys (Map_set key v m)
  = match Map_get key m with Some _ => keys m | None => keys m ++ [key] end.
Proof.
  destruct (Map_get key m) eqn:E.
  - apply Map_set_present_keys. congruence.
  - rewrite Map_set_absent by assumption. unfold keys. now rewrite map_app.
Qed.

Lemma group_step_tallies groups seen err key :
  ReportError.group_key err = Ok key ->
  ReportError.tallies groups seen ->
  exists groups',
    ReportError.group_step groups err = Ok groups' /\
    ReportError.tallies groups' (seen ++ [key]).
Proof.
  intros Hkey (Hnd & Hdom & Hcount). unfold ReportError.group_step.
  rewrite Hkey. simpl.
  assert (Hocc : forall k, count_occ String.string_dec (seen ++ [key]) k
                 = (count_occ String.string_dec seen k
                    + if String.string_dec key k then 1 else 0)%nat).
  { intros k. rewrite count_occ_app. simpl.
    destruct (String.string_dec key k); reflexivity. }
  destruct (Map_get key groups) as [group|] eqn:E; eexists; (split; [reflexivity|]).
  - split; [|split].
    + rewrite keys_Map_set, E. assumption.
    + intros k. rewrite keys_Map_set, E, Hdom, elem_of_app, list_elem_of_singleton.
      split; [auto|]. intros [Hin| ->]; [assumption|].
      apply Hdom. apply Map_get_Some_elem in E.
      apply (list_elem_of_fmap_2 fst) in E. exact E.
    + intros k g Hg. rewrite Hocc. destruct (String.string_dec key k) as [<-|Hne].
      * rewrite Map_get_set in Hg. injection Hg as <-.
        rewrite (count_of_increment group _ (Hcount _ _ E)). f_equal. lia.
      * rewrite Map_get_set_ne in Hg by assumption.
        rewrite (Hcount _ _ Hg). f_equal. lia.
  - assert (Hnew : key ∉ seen).
    { intros Hin. apply Hdom in Hin. now apply Map_get_None in E. }
    split; [|split].
    + rewrite keys_Map_set, E. apply NoDup_app. split; [assumption|]. split.
      * intros x Hx Hl. apply list_elem_of_singleton in Hl as ->.
        now apply Map_get_None in E.
      * apply NoDup_singleton.
    + intros k. rewrite keys_Map_set, E, !elem_of_app, Hdom. reflexivity.
    + intros k g Hg. rewrite Hocc. destruct (String.string_dec key k) as [<-|Hne].
      * rewrite Map_get_set in Hg. injection Hg as <-. rewrite count_of_new.
        f_equal. rewrite (proj1 (count_occ_not_In String.string_dec seen key)); [lia|].
        intros Hin. apply Hnew. now apply list_elem_of_In.
      * rewrite Map_get_set_ne in Hg by assumption.
        rewrite (Hcount _ _ Hg). f_equal. lia.
Qed.

(** Grouping is by key: when every report has a key, [groupErrors] returns
    one group per distinct key and the count of a group is the number of
    reports with its key. *)
Lemma group_loop_tallies errors ks groups seen :
  Forall2 (fun err key => ReportError.group_key err = Ok key) errors ks ->
  ReportError.tallies groups seen ->
  exists groups',
    ReportError.group_loop groups errors = Ok groups' /\
    ReportError.tallies groups' (seen ++ ks).
Proof.
  intros Hkeys. revert groups seen.
  induction Hkeys as [|err key errors ks Hkey _ IH]; intros groups seen Hinv.
  - exists groups. rewrite app_nil_r. now split.
  - destruct (group_step_tallies groups seen err key Hkey Hinv) as (g1 & Hstep & Hinv1).
    destruct (IH g1 (seen ++ [key]) Hinv1) as (g2 & Hloop & Hinv2).
    exists g2. simpl. rewrite Hstep. simpl. rewrite <- app_assoc in Hinv2. now split.
Qed.

(** The key tells the pair apart when the types hold no colon. *)
Lemma group_key_injective type type' message message' :
  (forall i, String.get i type <> Some ":"%char) ->
  (forall i, String.get i type' <> Some ":"%char) ->
  type +:+ ":" +:+ message = type' +:+ ":" +:+ message' ->
  type = type' /\ message = message'.
Proof.
  revert type'. induction type as [|c type IH]; intros [|c' type'] Hno Hno' E;
    repeat rewrite ?str_append_cons, ?str_append_nil_l in E.
  - now injection E as <-.
  - injection E as <- _. now destruct (Hno' 0%nat).
  - injection E as -> _. now destruct (Hno 0%nat).
  - injection E as <- E.
    destruct (IH type') as [<- <-]; try assumption.
    + intros i. apply (Hno (S i)).
    + intros i. apply (Hno' (S i)).
    + now split.
Qed.

End Grouping.

(** C5, at an input where it fails. The group of a report is found by the
    string type + ":" + message, and two reports whose types and messages
    differ can share it: a report of type "api:users" with message
    "timeout" and one of type "api" with message "users:timeout" make a
    single group of count 2, and the handler files a single issue for
    them. *)
Theorem groupErrors_merges_distinct_pairs :
  ReportError.groupErrors [Sample.report "api:users" "timeout" "2024-04-01T19:35:00Z";
                           Sample.report "api" "users:timeout" "2024-04-01T19:36:00Z"]
  = Ok [JObj [("type", JStr "api:users"); ("message", JStr "timeout");
              ("severity", JStr "error");
              ("timestamp", JStr "2024-04-01T19:35:00Z");
              ("count", JNum 2)]] /\
  last (effects (ReportError.handler Sample.tracker_env
                   (Sample.unsigned "POST"
                      (Sample.report_body
                         [Sample.report "api:users" "timeout" "2024-04-01T19:35:00Z";
                          Sample.report "api" "users:timeout" "2024-04-01T19:36:00Z"]))))
  = Some (Respond 200
            (JObj [("success", JBool true); ("issuesCreated", JNum 1);
                   ("issues", JArr [JObj [("id", JNum 7);
                                          ("url", JStr "https://github.com/o/r/issues/7")]])])).
Proof. evaluate. Qed.

(** ** The notification formatter *)

Section Formatter.

Context `{Runtime}.

(** A kind that is neither one of the six nor the name of an inherited
    member gets the fallback message. *)
Lemma buildMessage_fallback clock kind data :
  SlackNotify.builders kind = None -> Object_prototype kind = None ->
  SlackNotify.buildMessage clock (JStr kind) data
  = Ok (JObj [("text", JStr ("[" +:+ kind +:+ "] "
                              +:+ default "undefined" (JSON_stringify data)))]).
Proof.
  intros Hown Hinherited. unfold SlackNotify.buildMessage. simpl.
  now rewrite Hown, Hinherited.
Qed.

(** Every builder reads a property of [data] first. *)
Lemma builder_needs_data clock kind :
  SlackNotify.builder clock kind JUndefined = Throw TypeError /\
  SlackNotify.builder clock kind JNull = Throw TypeError.
Proof. destruct kind; split; reflexivity. Qed.

End Formatter.

(** C8, at inputs where it fails. [buildMessage] raises a [TypeError] for
    the unrecognized kinds "__proto__", "valueOf" and "hasOwnProperty",
    which the table of builders inherits, whatever the data; for the kinds
    "constructor" and "toString" it returns the data or a string, not a
    message; and it raises for each of the six kinds when the request
    carries no data. A kind of none of these sorts gets the fallback
    message. The endpoint answers 500 to a notification of kind
    "__proto__" and to one of kind "bug" without data. *)
Theorem buildMessage_raises `{Runtime} (clock : SlackNotify.Clock) :
  (forall data,
     SlackNotify.buildMessage clock (JStr "__proto__") data = Throw TypeError /\
     SlackNotify.buildMessage clock (JStr "valueOf") data = Throw TypeError /\
     SlackNotify.buildMessage clock (JStr "hasOwnProperty") data = Throw TypeError /\
     SlackNotify.buildMessage clock (JStr "toString") data
       = Ok (JStr "[object Undefined]")) /\
  SlackNotify.buildMessage clock (JStr "constructor") (JObj [("title", JStr "x")])
    = Ok (JObj [("title", JStr "x")]) /\
  (forall kind,
     In kind ["bug"; "feature"; "deployment"; "digest"; "incident"; "pr"] ->
     SlackNotify.buildMessage clock (JStr kind) JUndefined = Throw TypeError) /\
  SlackNotify.buildMessage clock (JStr "frobnicate") (JObj [])
    = Ok (JObj [("text", JStr ("[frobnicate] "
                                +:+ default "undefined" (JSON_stringify (JObj []))))]) /\
  (forall body,
     In body [JObj [("type", JStr "__proto__"); ("data", JObj [])];
              JObj [("type", JStr "bug")]] ->
     effects (@SlackNotify.handler Sample.runtime Sample.world
                Sample.notifier_env Sample.clock (Sample.unsigned "POST" body))
     = [SetHeader "Access-Control-Allow-Origin" "*";
        SetHeader "Access-Control-Allow-Methods" "POST, OPTIONS";
        SetHeader "Access-Control-Allow-Headers" "Content-Type";
        ConsoleError "Slack notification error:";
        Respond 500 (JObj [("error", JStr "Failed to send notification")])]).
Proof.
  split; [|split; [|split; [|split]]].
  - intros data. repeat split; reflexivity.
  - reflexivity.
  - intros kind Hin. simpl in Hin.
    repeat (destruct Hin as [<-|Hin]; [reflexivity|]). contradiction.
  - reflexivity.
  - intros body Hin. simpl in Hin.
    repeat (destruct Hin as [<-|Hin]; [vm_compute; reflexivity|]). contradiction.
Qed.

Lemma buildMessage_raises_witness :
  SlackNotify.buildMessage Sample.clock (JStr "bug") JUndefined = Throw TypeError /\
  effects (SlackNotify.handler Sample.notifier_env Sample.clock
             (Sample.unsigned "POST" (JObj [("type", JStr "bug")])))
  = [SetHeader "Access-Control-Allow-Origin" "*";
     SetHeader "Access-Control-Allow-Methods" "POST, OPTIONS";
     SetHeader "Access-Control-Allow-Headers" "Content-Type";
     ConsoleError "Slack notification error:";
     Respond 500 (JObj [("error", JStr "Failed to send notification")])].
Proof.
  destruct (buildMessage_raises Sample.clock) as (_ & _ & Hkind & _ & Hbody).
  split; [apply Hkind | apply Hbody]; simpl; auto.
Defined.

(** ** The embedding on small inputs *)

Example lastIndexOf_samples :
  JSString.lastIndexOf "abcabc" "bc" 100 = 4 /\
  JSString.lastIndexOf "abcabc" "bc" 3 = 1 /\
  JSString.lastIndexOf "abcabc" EmptyString 100 = 6 /\
  JSString.lastIndexOf "abcabc" "x" 2 = -1 /\
  JSString.lastIndexOf "abcabc" "a" (-5) = 0.
Proof. evaluate. Qed.

Example substring_samples :
  JSString.substring "abcdef" 0 3 = "abc" /\
  JSString.substring "abcdef" 4 1 = "bcd" /\
  JSString.substring "abcdef" (-3) 100 = "abcdef" /\
  JSString.substring_from "abcdef" 4 = "ef".
Proof. evaluate. Qed.

Example parseInt_samples :
  parseInt "1712000000" = Some 1712000000 /\
  parseInt "  -12px" = Some (-12) /\
  parseInt "0x1f" = Some 31 /\
  parseInt "12.5" = Some 12 /\
  parseInt EmptyString = None /\
  parseInt "soon" = None.
Proof. evaluate. Qed.

Example to_string_samples :
  to_string (JArr [JNum 1; JNull; JStr "a"; JArr [JBool true; JUndefined]])
    = Ok "1,,a,true," /\
  to_string (JObj [("title", JStr "x")]) = Ok "[object Object]" /\
  to_string (JObj [("toString", JStr "x")]) = Throw TypeError /\
  to_string (JNum (-17)) = Ok "-17".
Proof. evaluate. Qed.

Example JSON_samples :
  JSONText.parse (default EmptyString (Sample.stringify Sample.command_body))
    = Ok Sample.command_body /\
  JSONText.parse
    ("{ " +:+ Sample.quote "b" +:+ ": 1, " +:+ Sample.quote "10"
     +:+ ": [true, null], " +:+ Sample.quote "2" +:+ ": -5, "
     +:+ Sample.quote "b" +:+ ": " +:+ Sample.double_quote
     +:+ "x\u0041\n" +:+ Sample.double_quote +:+ " }")
    = Ok (JObj [("2", JNum (-5)); ("10", JArr [JBool true; JNull]);
                ("b", JStr ("xA" +:+ JSString.nl))]) /\
  JSONText.parse "payload=%7B" = Throw SyntaxError /\
  JSONText.parse "[1,]" = Throw SyntaxError /\
  SlackActions.payload_of Sample.action_form = Ok Sample.action_body.
Proof. evaluate. Qed.

(** The test vectors of FIPS 180-4 and of RFC 4231 (case 2). *)
Example sha256_vectors :
  SHA256.hex (SHA256.sha256 (Buffer_from "abc"))
    = "ba7816bf8f01cfea414140de5dae2223b00361a396177a9cb410ff61f20015ad" /\
  SHA256.hex (SHA256.sha256 (Buffer_from
      "abcdbcdecdefdefgefghfghighijhijkijkljklmklmnlmnomnopnopq"))
    = "248d6a61d20638b8e5c026930c3e6039a33ce45964ff2167f6ecedd419db06c1" /\
  Sample.hmac_sha256_hex "Jefe" "what do ya want for nothing?"
    = "5bdcc146bf60754e6a042426089575c75a003f089d2739839dec58b964ec3843".
Proof. evaluate. Qed.

(** A reply of 2000 letters, a newline and 2000 letters is cut at the
    newline, which opens the second chunk; without a newline in the second
    half of the window the cut is at 3900. *)
Example split_samples :
  (map JSString.length
     <$> SlackClaude.split_chunks
           (JSString.replicate 2000 "a" +:+ JSString.nl +:+ JSString.replicate 2000 "b"))
    = Some [2000; 2001] /\
  (map JSString.length
     <$> SlackClaude.split_chunks
           (JSString.replicate 100 "a" +:+ JSString.nl +:+ JSString.replicate 4900 "b"))
    = Some [3900; 1101] /\
  SlackClaude.split_chunks EmptyString = Some [].
Proof. evaluate. Qed.

(** Twelve exchanges and a thirteenth question append 25 entries; while
    the question is with the LLM the thread holds the last 20 of them, and
    21 once the reply is stored. *)
Example twenty_five_entries :
  let twelve := SlackClaude.exchanges_on SlackClaude.thread_key
                  (take 12 SlackClaude.thirteen_exchanges) in
  let pending := SlackClaude.handler_history (SlackClaude.run twelve)
                   SlackClaude.thread_key "q13" in
  map SlackClaude.content (snd pending)
  = ["r3"; "q4"; "r4"; "q5"; "r5"; "q6"; "r6"; "q7"; "r7"; "q8"; "r8"; "q9";
     "r9"; "q10"; "r10"; "q11"; "r11"; "q12"; "r12"; "q13"] /\
  Map_get SlackClaude.thread_key (fst pending) = Some (snd pending) /\
  length (SlackClaude.stored SlackClaude.thread_key
            (SlackClaude.handler_save (fst pending) SlackClaude.thread_key
               (snd pending) "r13")) = 21%nat.
Proof. evaluate. Qed.

(** The 101st conversation evicts the oldest one. *)
Example eviction_sample :
  let conversation (i : nat) :=
    (JSString.replicate i "k", "hello", Some "hi") in
  map (fun e => String.length (fst e))
      (SlackClaude.run (map conversation (seq 1 101)))
  = seq 2 100.
Proof. vm_compute. reflexivity. Qed.

(** The message for a bug report with a title only. *)
Example buildBugMessage_sample :
  SlackNotify.buildMessage Sample.clock (JStr "bug")
    (JObj [("title", JStr "Video will not pause")])
  = Ok (JObj [("blocks", JArr [
      JObj [("type", JStr "header");
            ("text", JObj [("type", JStr "plain_text");
                           ("text", JStr "🐛 Bug: Video will not pause")])];
      JObj [("type", JStr "section");
            ("fields", JArr [
               SlackNotify.mrkdwn ("*Severity:*" +:+ JSString.nl +:+ "unknown");
               SlackNotify.mrkdwn ("*Source:*" +:+ JSString.nl +:+ "user report");
               SlackNotify.mrkdwn ("*Status:*" +:+ JSString.nl +:+ "new");
               SlackNotify.mrkdwn ("*Issue:*" +:+ JSString.nl +:+ "Pending")])];
      JObj [("type", JStr "actions");
            ("elements", JArr [
               JObj [("type", JStr "button");
                     ("text", JObj [("type", JStr "plain_text");
                                    ("text", JStr "AI Analyze")]);
                     ("action_id", JStr "trigger_ai_analysis");
                     ("value", JStr "{}")]])]])]).
Proof. vm_compute. reflexivity. Qed.

(* ================================================================== *)
(** * Part III. Further properties of the code                          *)
(* ================================================================== *)

(** ** Request signatures, exactly *)

Lemma N_of_ascii_lt c : (N_of_ascii c < 256)%N.
Proof. apply N_ascii_bounded. Qed.

Lemma utf8_prefix_free c c' l l' :
  utf8 c ++ l = utf8 c' ++ l' -> c = c' /\ l = l'.
Proof.
  unfold utf8. pose proof (N_ascii_bounded c) as Hc. pose proof (N_ascii_bounded c') as Hc'.
  assert (Hinj : Z.of_N (N_of_ascii c) = Z.of_N (N_of_ascii c') -> c = c').
  { intros E. apply N2Z.inj in E. rewrite <- (ascii_N_embedding c), <- (ascii_N_embedding c').
    now rewrite E. }
  destruct (Z.ltb_spec (Z.of_N (N_of_ascii c)) 128);
    destruct (Z.ltb_spec (Z.of_N (N_of_ascii c')) 128); simpl; intros E.
  - injection E as E1 E2. split; [now apply Hinj | assumption].
  - injection E as E1 E2. exfalso.
    pose proof (Z.div_pos (Z.of_N (N_of_ascii c')) 64). lia.
  - injection E as E1 E2. exfalso.
    pose proof (Z.div_pos (Z.of_N (N_of_ascii c)) 64). lia.
  - injection E as E1 E2 E3. split; [|assumption]. apply Hinj.
    rewrite (Z.div_mod (Z.of_N (N_of_ascii c)) 64), (Z.div_mod (Z.of_N (N_of_ascii c')) 64) by lia.
    lia.
Qed.

Lemma Buffer_from_inj s s' : Buffer_from s = Buffer_from s' -> s = s'.
Proof.
  unfold Buffer_from. revert s'. induction s as [|c s IH]; intros [|c' s']; simpl.
  - reflexivity.
  - intros E. exfalso. unfold utf8 in E. destruct (_ <? 128); discriminate.
  - intros E. exfalso. unfold utf8 in E. destruct (_ <? 128); discriminate.
  - intros E. apply utf8_prefix_free in E as [-> E]. f_equal. now apply IH.
Qed.

Lemma timingSafeEqual_true a b : timingSafeEqual a b = Ok true <-> a = b.
Proof.
  split.
  - unfold timingSafeEqual. destruct (length a =? length b)%nat; [|discriminate].
    intros [= E]. now apply bool_decide_eq_true in E.
  - intros ->. apply timingSafeEqual_same.
Qed.

(** X1. verifySlackSignature returns true exactly when the timestamp header
    and the signing secret are present and not empty, the timestamp, if
    parseInt reads a number in it, is at most 300 seconds away from the
    clock, and the signature header is 'v0=' followed by the hex
    HMAC-SHA256, under the secret, of 'v0:' + timestamp + ':' + body; no
    other signature is answered true. *)
Theorem verifySlackSignature_true_iff `{Runtime} (env : Env) (now : Z) (req : Request) :
  verifySlackSignature env now req = Ok true <->
  exists timestamp secret,
    req_headers req !! "x-slack-request-timestamp" = Some timestamp /\
    env !! "SLACK_SIGNING_SECRET" = Some secret /\
    timestamp <> EmptyString /\ secret <> EmptyString /\
    (forall t, parseInt timestamp = Some t -> Z.abs (now - t) <= 300) /\
    req_headers req !! "x-slack-signature"
      = Some (expected_signature secret timestamp req).
Proof.
  split.
  - unfold verifySlackSignature.
    destruct (req_headers req !! "x-slack-request-timestamp") as [timestamp|]; [|discriminate].
    destruct (req_headers req !! "x-slack-signature") as [signature|]; [|discriminate].
    destruct (env !! "SLACK_SIGNING_SECRET") as [secret|]; [|discriminate].
    destruct timestamp as [|c1 s1]; [discriminate|].
    destruct signature as [|c2 s2]; [discriminate|].
    destruct secret as [|c3 s3]; [discriminate|].
    cbn [absent orb].
    destruct (parseInt (String c1 s1)) as [t|] eqn:Ep.
    + destruct (Z.gtb_spec (Z.abs (now - t)) 300); [discriminate|].
      intros E. apply timingSafeEqual_true, Buffer_from_inj in E.
      exists (String c1 s1), (String c3 s3). repeat split; try discriminate.
      * intros t'. rewrite Ep. intros [= <-]. assumption.
      * now rewrite E.
    + intros E. apply timingSafeEqual_true, Buffer_from_inj in E.
      exists (String c1 s1), (String c3 s3). repeat split; try discriminate.
      * intros t'. rewrite Ep. discriminate.
      * now rewrite E.
  - intros (timestamp & secret & Hts & Hsecret & Hts' & Hsecret' & Hwin & Hsig).
    rewrite (verifySlackSignature_present env now req timestamp _ secret Hts Hsig Hsecret);
      try assumption.
    + destruct (parseInt timestamp) as [t|] eqn:Ep.
      * specialize (Hwin t eq_refl).
        destruct (Z.gtb_spec (Z.abs (now - t)) 300); [lia|]. apply timingSafeEqual_same.
      * apply timingSafeEqual_same.
    + intros E. pose proof (expected_signature_length secret timestamp req) as Hlen.
      rewrite E in Hlen. simpl in Hlen. lia.
Qed.

(** ** Traces of the report endpoint *)

Section Traces.
Context `{World}.

Lemma run_eff_bind {A B} (m : Eff A) (k : A -> Eff B) t :
  run_eff (m ≫= k) t =
  match run_eff m t with
  | (t', Ok a) => run_eff (k a) t'
  | (t', Throw e) => (t', Throw e)
  end.
Proof. reflexivity. Qed.

Lemma run_eff_lift {A} (r : result A) t : run_eff (lift r) t = (t, r).
Proof. reflexivity. Qed.

Lemma run_eff_emit e t : run_eff (emit e) t = (t ++ [e], Ok tt).
Proof. reflexivity. Qed.

Lemma run_eff_fetch url body t :
  run_eff (fetch url body) t = (t ++ [Fetch url body], fetch_response t url body).
Proof. reflexivity. Qed.

Lemma run_eff_try_catch {A} (body : Eff A) (handler : JSError -> Eff A) t :
  run_eff (try_catch body handler) t =
  match run_eff body t with
  | (t', Ok a) => (t', Ok a)
  | (t', Throw e) => run_eff (handler e) t'
  end.
Proof. reflexivity. Qed.

End Traces.

Lemma bind_Ok_inv {A B} (m : result A) (k : A -> result B) r :
  m ≫= k = Ok r -> exists a, m = Ok a /\ k a = Ok r.
Proof. destruct m as [a|e]; [|discriminate]. intros E. now exists a. Qed.

(** One step of a trace. *)
Ltac step :=
  first [ rewrite run_eff_bind | rewrite run_eff_lift | rewrite run_eff_emit
        | rewrite run_eff_try_catch ].

(** The binds of a normal completion, one by one. *)
Ltac binds H :=
  repeat (let a := fresh "v" in let Ha := fresh "Hv" in
          apply bind_Ok_inv in H as (a & Ha & H); cbv beta in H).

Section ReportErrorFacts.
Context `{Runtime} `{World}.

Lemma createGitHubIssue_trace owner repo group environment t :
  exists es r,
    run_eff (ReportError.createGitHubIssue owner repo group environment) t = (t ++ es, r) /\
    Forall (fun e => is_Fetch e = true) es /\
    match r with
    | Ok _ => length es = 1%nat
    | Throw _ => (length es <= 1)%nat
    end.
Proof.
  unfold ReportError.createGitHubIssue. rewrite run_eff_bind, run_eff_lift.
  destruct (ReportError.issue_request group environment) as [request|e].
  - rewrite run_eff_bind, run_eff_fetch.
    destruct (fetch_response t _ request) as [response|e].
    + destruct (resp_ok response); eexists [_], _; (split; [reflexivity|]);
        (split; [repeat constructor | simpl; lia]).
    + eexists [_], _. split; [reflexivity|]. split; [repeat constructor | simpl; lia].
  - exists [], (Throw e). rewrite app_nil_r. split; [reflexivity|]. split; [constructor | simpl; lia].
Qed.

Lemma create_issues_trace env owner repo environment grouped results t :
  exists es r,
    run_eff (ReportError.create_issues env owner repo environment grouped results) t
      = (t ++ es, r) /\
    Forall (fun e => is_Fetch e = true) es /\
    match r with
    | Ok results' =>
        length results' = (length results + length grouped)%nat /\
        length es = (length grouped * requests_per_issue env)%nat
    | Throw _ => (length es <= length grouped * requests_per_issue env)%nat
    end.
Proof.
  revert results t. induction grouped as [|group grouped IH]; intros results t.
  - exists [], (Ok results). rewrite app_nil_r. simpl. split; [reflexivity|].
    split; [constructor|]. split; [lia | reflexivity].
  - cbn [ReportError.create_issues]. rewrite run_eff_bind.
    destruct (createGitHubIssue_trace owner repo group environment t)
      as (es1 & r1 & -> & Hes1 & Hr1).
    assert (Hw : (1 <= requests_per_issue env <= 2)%nat).
    { unfold requests_per_issue. destruct (absent _); lia. }
    destruct r1 as [issue|e]; cycle 1.
    { exists es1, (Throw e). split; [reflexivity|]. split; [assumption|]. simpl length. nia. }
    rewrite run_eff_bind.
    unfold requests_per_issue in *.
    destruct (env !! "SLACK_WEBHOOK_URL") as [[|c url]|] eqn:Eweb; cbn [absent] in *.
    + change (run_eff (mret tt) (t ++ es1)) with (t ++ es1, @Ok unit tt).
      destruct (IH (results ++ [issue]) (t ++ es1)) as (es2 & r2 & -> & Hes2 & Hr2).
      exists (es1 ++ es2), r2. rewrite app_assoc. split; [reflexivity|].
      split; [now apply Forall_app|]. rewrite !length_app in *. simpl length in *.
      destruct r2; lia.
    + rewrite run_eff_bind, run_eff_lift.
      destruct (ReportError.slack_payload group issue) as [payload|e].
      * rewrite run_eff_bind, run_eff_fetch.
        destruct (fetch_response (t ++ es1) _ payload) as [response|e].
        -- change (run_eff (mret tt) ?x) with (x, @Ok unit tt).
           destruct (IH (results ++ [issue]) ((t ++ es1) ++ [Fetch (String c url) payload]))
             as (es2 & r2 & -> & Hes2 & Hr2).
           exists (es1 ++ [Fetch (String c url) payload] ++ es2), r2.
           rewrite !app_assoc. split; [reflexivity|].
           split; [apply Forall_app; split; [apply Forall_app; split; [assumption | repeat constructor] | assumption]|].
           rewrite !length_app in *. simpl length in *. destruct r2; lia.
        -- exists (es1 ++ [Fetch (String c url) payload]), (Throw e).
           rewrite !app_assoc. split; [reflexivity|].
           split; [apply Forall_app; split; [assumption | repeat constructor]|].
           rewrite !length_app. simpl length. lia.
      * exists es1, (Throw e). split; [reflexivity|]. split; [assumption|]. simpl length. lia.
    + change (run_eff (mret tt) (t ++ es1)) with (t ++ es1, @Ok unit tt).
      destruct (IH (results ++ [issue]) (t ++ es1)) as (es2 & r2 & -> & Hes2 & Hr2).
      exists (es1 ++ es2), r2. rewrite app_assoc. split; [reflexivity|].
      split; [now apply Forall_app|]. rewrite !length_app in *. simpl length in *.
      destruct r2; lia.
Qed.

(** X7. Whatever the request, the environment and the answers of the remote
    services, the handler of /api/report-error completes normally: it sets
    the three CORS headers, then only makes requests or writes to the
    console, and ends with exactly one response. *)
Theorem report_handler_responds_once env req :
  exists es status body,
    run_eff (ReportError.handler env req) []
      = (cors_headers ++ es ++ [Respond status body], Ok tt) /\
    Forall (fun e => is_Fetch e || is_ConsoleError e = true) es.
Proof.
  unfold ReportError.handler, ReportError.respond. repeat step. simpl app.
  fold cors_headers.
  destruct (String.eqb (req_method req) "OPTIONS").
  { exists [], 200, JUndefined. split; [reflexivity | constructor]. }
  destruct (String.eqb (req_method req) "POST"); cbn [negb].
  2: { eexists [], _, _. split; [reflexivity | constructor]. }
  assert (Hcatch : forall t,
            run_eff (_ ← emit (ConsoleError "Error processing report:");
                     emit (Respond 500 (JObj [("error", JStr "Internal server error")]))) t
            = (t ++ [ConsoleError "Error processing report:"]
                 ++ [Respond 500 (JObj [("error", JStr "Internal server error")])], Ok tt)).
  { intros t. repeat step. now rewrite <- app_assoc. }
  repeat step.
  destruct (get_prop (req_body req) "errors") as [errors|e].
  2: { rewrite Hcatch. eexists [_], _, _. split; [reflexivity | repeat constructor]. }
  repeat step.
  destruct (get_prop (req_body req) "environment") as [environment|e].
  2: { rewrite Hcatch. eexists [_], _, _. split; [reflexivity | repeat constructor]. }
  assert (H400 : exists es status body,
    run_eff (emit (Respond 400 (JObj [("error", JStr "No errors provided")]))) cors_headers
      = (cors_headers ++ es ++ [Respond status body], Ok tt) /\
    Forall (fun e => is_Fetch e || is_ConsoleError e = true) es).
  { eexists [], _, _. split; [reflexivity | constructor]. }
  destruct errors as [| | | | |[|err errors]|]; try exact H400.
  assert (H500 : exists es status body,
    run_eff (_ ← emit (ConsoleError "Missing GitHub configuration environment variables");
             emit (Respond 500 (JObj [("error", JStr "Server configuration error")])))
            cors_headers
      = (cors_headers ++ es ++ [Respond status body], Ok tt) /\
    Forall (fun e => is_Fetch e || is_ConsoleError e = true) es).
  { eexists [_], _, _. split; [reflexivity | repeat constructor]. }
  destruct (env !! "GITHUB_TOKEN") as [[|? ?]|]; try exact H500.
  destruct (env !! "GITHUB_OWNER") as [[|c1 owner]|]; try exact H500.
  destruct (env !! "GITHUB_REPO") as [[|c2 repo]|]; try exact H500.
  repeat step.
  destruct (ReportError.groupErrors (err :: errors)) as [grouped|e].
  2: { rewrite Hcatch. eexists [_], _, _. split; [reflexivity | repeat constructor]. }
  repeat step.
  destruct (create_issues_trace env (String c1 owner) (String c2 repo) environment grouped []
              cors_headers) as (es & r & -> & Hes & _).
  assert (Hes' : Forall (fun e => is_Fetch e || is_ConsoleError e = true) es).
  { eapply Forall_impl; [exact Hes|]. intros x ->. reflexivity. }
  destruct r as [results|e].
  2: { rewrite Hcatch. exists (es ++ [ConsoleError "Error processing report:"]).
       eexists _, _. rewrite <- !app_assoc. split; [reflexivity|].
       apply Forall_app. split; [assumption | repeat constructor]. }
  repeat step.
  destruct (ReportError.map_result ReportError.issue_summary results) as [issues|e].
  2: { rewrite Hcatch. exists (es ++ [ConsoleError "Error processing report:"]).
       eexists _, _. rewrite <- !app_assoc. split; [reflexivity|].
       apply Forall_app. split; [assumption | repeat constructor]. }
  repeat step. exists es. eexists _, _. rewrite <- app_assoc. split; [reflexivity | assumption].
Qed.

Lemma get_prop_defined v name x other :
  get_prop v name = Ok x -> exists y, get_prop v other = Ok y.
Proof. destruct v; simpl; try discriminate; eauto. Qed.

Lemma map_result_length {A B} (f : A -> result B) l l' :
  ReportError.map_result f l = Ok l' -> length l' = length l.
Proof.
  revert l'. induction l as [|x l IH]; intros l'; simpl.
  - now intros [= <-].
  - destruct (f x) as [y|]; [|discriminate]. simpl.
    destruct (ReportError.map_result f l) as [ys|]; [|discriminate]. simpl.
    intros [= <-]. simpl. now rewrite (IH ys).
Qed.

(** X8. For a POST request to /api/report-error: when errors is not a
    non-empty array the answer is 400 'No errors provided'; when it is one
    but GITHUB_TOKEN, GITHUB_OWNER or GITHUB_REPO is missing or empty the
    answer is 500 'Server configuration error' after one console error; when
    the body has no properties to read (undefined or null) the answer is 500
    'Internal server error'; in all three cases no request is made. *)
Theorem report_handler_rejects_invalid env req :
  req_method req = "POST" ->
  (forall errors,
     get_prop (req_body req) "errors" = Ok errors ->
     (forall err errors', errors <> JArr (err :: errors')) ->
     run_eff (ReportError.handler env req) []
     = (cors_headers ++ [Respond 400 (JObj [("error", JStr "No errors provided")])], Ok tt)) /\
  (forall err errors',
     get_prop (req_body req) "errors" = Ok (JArr (err :: errors')) ->
     absent (env !! "GITHUB_TOKEN") || absent (env !! "GITHUB_OWNER")
       || absent (env !! "GITHUB_REPO") = true ->
     run_eff (ReportError.handler env req) []
     = (cors_headers
          ++ [ConsoleError "Missing GitHub configuration environment variables";
              Respond 500 (JObj [("error", JStr "Server configuration error")])], Ok tt)) /\
  (forall e,
     get_prop (req_body req) "errors" = Throw e ->
     run_eff (ReportError.handler env req) []
     = (cors_headers
          ++ [ConsoleError "Error processing report:";
              Respond 500 (JObj [("error", JStr "Internal server error")])], Ok tt)).
Proof.
  intros Hpost. unfold ReportError.handler, ReportError.respond. rewrite Hpost.
  repeat step. simpl app. fold cors_headers. cbn [String.eqb Ascii.eqb Bool.eqb negb].
  split; [|split].
  - intros errors Herrors Hnot.
    destruct (get_prop_defined _ _ _ "environment" Herrors) as [environment Henv].
    repeat step. rewrite Herrors. repeat step. rewrite Henv.
    destruct errors as [| | | | |[|err errors]|]; try reflexivity.
    now destruct (Hnot err errors).
  - intros err errors Herrors Hconfig.
    destruct (get_prop_defined _ _ _ "environment" Herrors) as [environment Henv].
    repeat step. rewrite Herrors. repeat step. rewrite Henv.
    destruct (env !! "GITHUB_TOKEN") as [[|? ?]|]; try reflexivity;
      destruct (env !! "GITHUB_OWNER") as [[|? ?]|]; try reflexivity;
      destruct (env !! "GITHUB_REPO") as [[|? ?]|]; try reflexivity; discriminate.
  - intros e Herrors. repeat step. rewrite Herrors. reflexivity.
Qed.

Lemma last_effect_inj (t t' : list Effect) e e' :
  t ++ [e] = t' ++ [e'] -> t = t' /\ e = e'.
Proof. apply app_inj_tail. Qed.

(** X9. When a POST request to /api/report-error is answered 200, errors was
    an array that groupErrors grouped, the body is {success: true,
    issuesCreated, issues} with issuesCreated the number of groups and one
    issue summary per group, and besides the CORS headers the handler only
    made requests: one per group, or two per group when SLACK_WEBHOOK_URL is
    set. *)
Theorem report_handler_issue_count env req es body :
  req_method req = "POST" ->
  effects (ReportError.handler env req) = es ++ [Respond 200 body] ->
  exists errors grouped issues fetches,
    get_prop (req_body req) "errors" = Ok (JArr errors) /\
    ReportError.groupErrors errors = Ok grouped /\
    body = JObj [("success", JBool true);
                 ("issuesCreated", JNum (Z.of_nat (length grouped)));
                 ("issues", JArr issues)] /\
    length issues = length grouped /\
    es = cors_headers ++ fetches /\
    Forall (fun e => is_Fetch e = true) fetches /\
    length fetches = (length grouped * requests_per_issue env)%nat.
Proof.
  intros Hpost. unfold effects, ReportError.handler, ReportError.respond. rewrite Hpost.
  repeat step. simpl app. fold cors_headers. cbn [String.eqb Ascii.eqb Bool.eqb negb].
  assert (Hcatch : forall t,
            run_eff (_ ← emit (ConsoleError "Error processing report:");
                     emit (Respond 500 (JObj [("error", JStr "Internal server error")]))) t
            = ((t ++ [ConsoleError "Error processing report:"])
                 ++ [Respond 500 (JObj [("error", JStr "Internal server error")])], Ok tt)).
  { intros t. repeat step. reflexivity. }
  assert (Hno : forall (t : list Effect) status b,
            status <> 200 -> t ++ [Respond status b] = es ++ [Respond 200 body] -> False).
  { intros t status b Hs E. apply last_effect_inj in E as [_ [= E _]]. contradiction. }
  repeat step.
  destruct (get_prop (req_body req) "errors") as [errors|e].
  2: { rewrite Hcatch. intros E. now apply Hno in E. }
  repeat step.
  destruct (get_prop (req_body req) "environment") as [environment|e].
  2: { rewrite Hcatch. intros E. now apply Hno in E. }
  destruct errors as [| | | | |[|err errors]|];
    try (cbn [fst]; intros E; now apply Hno in E).
  assert (H500 : fst (run_eff
             (_ ← emit (ConsoleError "Missing GitHub configuration environment variables");
              emit (Respond 500 (JObj [("error", JStr "Server configuration error")])))
             cors_headers) = es ++ [Respond 200 body] -> False).
  { repeat step. cbn [fst]. intros E. now apply Hno in E. }
  destruct (env !! "GITHUB_TOKEN") as [[|? ?]|]; try (intros E; now destruct (H500 E)).
  destruct (env !! "GITHUB_OWNER") as [[|c1 owner]|]; try (intros E; now destruct (H500 E)).
  destruct (env !! "GITHUB_REPO") as [[|c2 repo]|]; try (intros E; now destruct (H500 E)).
  repeat step.
  destruct (ReportError.groupErrors (err :: errors)) as [grouped|e] eqn:Egroup.
  2: { rewrite Hcatch. intros E. now apply Hno in E. }
  repeat step.
  destruct (create_issues_trace env (String c1 owner) (String c2 repo) environment grouped []
              cors_headers) as (fetches & r & -> & Hes & Hr).
  destruct r as [results|e].
  2: { rewrite Hcatch. intros E. now apply Hno in E. }
  repeat step.
  destruct (ReportError.map_result ReportError.issue_summary results) as [issues|e] eqn:Emap.
  2: { rewrite Hcatch. intros E. now apply Hno in E. }
  repeat step. cbn [fst]. intros E. apply last_effect_inj in E as [<- [= <-]].
  destruct Hr as [Hlen Hfetches]. simpl in Hlen.
  exists (err :: errors), grouped, issues, fetches.
  rewrite Hlen. repeat split; try assumption; try reflexivity.
  rewrite <- Hlen. now apply map_result_length in Emap.
Qed.

End ReportErrorFacts.

(** ** Groups in the order of the reports *)

Section GroupingOrder.

Lemma first_occurrences_snoc ks key :
  first_occurrences (ks ++ [key]) =
  if bool_decide (key ∈ first_occurrences ks) then first_occurrences ks
  else first_occurrences ks ++ [key].
Proof. unfold first_occurrences. now rewrite fold_left_app. Qed.

Lemma first_occurrences_elem ks k : k ∈ first_occurrences ks <-> k ∈ ks.
Proof.
  induction ks as [|key ks IH] using rev_ind.
  - reflexivity.
  - rewrite first_occurrences_snoc, elem_of_app, list_elem_of_singleton.
    destruct (bool_decide_reflect (key ∈ first_occurrences ks)) as [Hin|Hout].
    + rewrite IH. split; [auto|]. intros [H| ->]; [assumption | now apply IH].
    + rewrite elem_of_app, list_elem_of_singleton, IH. reflexivity.
Qed.

Lemma first_occurrences_NoDup ks : NoDup (first_occurrences ks).
Proof.
  induction ks as [|key ks IH] using rev_ind.
  - constructor.
  - rewrite first_occurrences_snoc.
    destruct (bool_decide_reflect (key ∈ first_occurrences ks)) as [Hin|Hout]; [assumption|].
    apply NoDup_app. split; [assumption|]. split; [|apply NoDup_singleton].
    intros x Hx Hl. apply list_elem_of_singleton in Hl as ->. contradiction.
Qed.

Lemma first_report_snoc key errors ks err k :
  length errors = length ks ->
  first_report key (errors ++ [err]) (ks ++ [k]) =
  match first_report key errors ks with
  | Some first => Some first
  | None => if String.eqb k key then Some err else None
  end.
Proof.
  revert ks. induction errors as [|e errors IH]; intros [|k' ks] Hlen;
    simpl in Hlen; try lia; simpl.
  - reflexivity.
  - destruct (String.eqb k' key); [reflexivity|]. apply IH. lia.
Qed.

Lemma first_report_None key errors ks :
  length errors = length ks -> key ∉ ks -> first_report key errors ks = None.
Proof.
  revert ks. induction errors as [|e errors IH]; intros [|k ks] Hlen Hnot;
    simpl in Hlen; try lia; simpl; [reflexivity|].
  apply not_elem_of_cons in Hnot as [Hne Hnot].
  destruct (String.eqb_spec k key); [congruence|]. apply IH; [lia | assumption].
Qed.

Lemma occurrences_snoc key ks k :
  occurrences key (ks ++ [k]) = occurrences key ks + (if String.eqb k key then 1 else 0).
Proof.
  unfold occurrences. rewrite count_occ_app. simpl.
  destruct (String.string_dec k key) as [->|Hne].
  - rewrite String.eqb_refl. lia.
  - destruct (String.eqb_spec k key); [contradiction | lia].
Qed.

Lemma occurrences_absent key ks : key ∉ ks -> occurrences key ks = 0.
Proof.
  intros Hnot. unfold occurrences.
  rewrite (proj1 (count_occ_not_In String.string_dec ks key)); [reflexivity|].
  intros Hin. apply Hnot. now apply list_elem_of_In.
Qed.

Lemma Map_set_set {V} key (v w : V) (m : list (string * V)) :
  Map_set key v (Map_set key w m) = Map_set key v m.
Proof.
  induction m as [|[k x] m IH]; simpl.
  - now rewrite String.eqb_refl.
  - destruct (String.eqb_spec k key) as [->|Hne]; simpl.
    + now rewrite String.eqb_refl.
    + destruct (String.eqb_spec k key); [contradiction|]. now rewrite IH.
Qed.

Lemma increment_count_set n props :
  ReportError.increment_count (JObj (Map_set "count" (JNum n) props))
  = JObj (Map_set "count" (JNum (n + 1)) props).
Proof.
  unfold ReportError.increment_count. rewrite Map_get_set. now rewrite Map_set_set.
Qed.

Lemma group_step_grouped groups errors ks err key :
  length errors = length ks ->
  ReportError.group_key err = Ok key ->
  grouped_as groups errors ks ->
  exists groups',
    ReportError.group_step groups err = Ok groups' /\
    grouped_as groups' (errors ++ [err]) (ks ++ [key]).
Proof.
  intros Hlen Hkey [Hkeys Hgroups]. unfold ReportError.group_step. rewrite Hkey. simpl.
  destruct (Map_get key groups) as [group|] eqn:E; eexists; (split; [reflexivity|]).
  - assert (Hin : key ∈ first_occurrences ks).
    { rewrite <- Hkeys. apply Map_get_Some_elem in E.
      apply (list_elem_of_fmap_2 fst) in E. exact E. }
    split.
    + rewrite keys_Map_set, E, first_occurrences_snoc, bool_decide_eq_true_2; assumption.
    + intros k g Hg. rewrite first_report_snoc, occurrences_snoc by assumption.
      destruct (String.eqb_spec key k) as [<-|Hne].
      * rewrite Map_get_set in Hg. injection Hg as <-.
        destruct (Hgroups key group E) as (first & -> & ->).
        exists first. split; [reflexivity|]. apply increment_count_set.
      * rewrite Map_get_set_ne in Hg by assumption.
        destruct (Hgroups k g Hg) as (first & -> & ->).
        exists first. split; [reflexivity|]. now rewrite Z.add_0_r.
  - assert (Hout : key ∉ first_occurrences ks).
    { rewrite <- Hkeys. now apply Map_get_None. }
    split.
    + rewrite keys_Map_set, E, first_occurrences_snoc, bool_decide_eq_false_2 by assumption.
      now rewrite Hkeys.
    + intros k g Hg. rewrite first_report_snoc, occurrences_snoc by assumption.
      destruct (String.eqb_spec key k) as [<-|Hne].
      * rewrite Map_get_set in Hg. injection Hg as <-.
        rewrite first_occurrences_elem in Hout.
        rewrite first_report_None, occurrences_absent by assumption.
        exists err. split; reflexivity.
      * rewrite Map_get_set_ne in Hg by assumption.
        destruct (Hgroups k g Hg) as (first & -> & ->).
        exists first. split; [reflexivity|]. now rewrite Z.add_0_r.
Qed.

Lemma group_loop_grouped errors ks groups done seen :
  Forall2 (fun err key => ReportError.group_key err = Ok key) errors ks ->
  length done = length seen ->
  grouped_as groups done seen ->
  exists groups',
    ReportError.group_loop groups errors = Ok groups' /\
    grouped_as groups' (done ++ errors) (seen ++ ks).
Proof.
  intros Hkeys. revert groups done seen.
  induction Hkeys as [|err key errors ks Hkey _ IH]; intros groups done seen Hlen Hinv.
  - exists groups. rewrite !app_nil_r. now split.
  - destruct (group_step_grouped groups done seen err key Hlen Hkey Hinv)
      as (g1 & Hstep & Hinv1).
    destruct (IH g1 (done ++ [err]) (seen ++ [key])) as (g2 & Hloop & Hinv2);
      [rewrite !length_app; simpl; lia | assumption |].
    exists g2. simpl. rewrite Hstep. simpl. rewrite <- !app_assoc in Hinv2. now split.
Qed.

(** The counts of the distinct keys add up to the number of keys. *)
Lemma occurrences_total (l ks : list string) :
  NoDup l -> (forall k, k ∈ ks -> k ∈ l) ->
  fold_right Z.add 0 (map (fun k => occurrences k ks) l) = Z.of_nat (length ks).
Proof.
  intros Hnd. induction ks as [|k ks IH] using rev_ind; intros Hsub.
  - simpl. induction l as [|x l IHl]; [reflexivity|]. simpl.
    inversion Hnd; subst. rewrite IHl by (try assumption; intros ? []%elem_of_nil).
    reflexivity.
  - rewrite length_app. simpl length.
    assert (Hk : k ∈ l) by (apply Hsub, elem_of_app; right; left).
    assert (IH' : fold_right Z.add 0 (map (fun k0 => occurrences k0 ks) l) = Z.of_nat (length ks)).
    { apply IH. intros x Hx. apply Hsub, elem_of_app. now left. }
    rewrite Nat2Z.inj_add, <- IH'. simpl Z.of_nat.
    clear IH IH' Hsub. induction Hnd as [|x l Hx Hnd IHl]; [now apply elem_of_nil in Hk|].
    simpl. rewrite occurrences_snoc.
    apply elem_of_cons in Hk as [->|Hk].
    + rewrite String.eqb_refl.
      assert (Hrest : map (fun k0 => occurrences k0 (ks ++ [x])) l
                      = map (fun k0 => occurrences k0 ks) l).
      { apply map_ext_in. intros y Hy. rewrite occurrences_snoc.
        destruct (String.eqb_spec x y) as [->|_]; [|lia].
        exfalso. apply Hx. now apply list_elem_of_In. }
      rewrite Hrest. lia.
    + destruct (String.eqb_spec k x) as [->|_]; [contradiction|].
      rewrite IHl by assumption. lia.
Qed.

Lemma Map_get_elem {V} key (v : V) (m : list (string * V)) :
  NoDup (keys m) -> (key, v) ∈ m -> Map_get key m = Some v.
Proof.
  induction m as [|[k x] m IH]; intros Hnd Hin; [now apply elem_of_nil in Hin|].
  simpl in Hnd. apply NoDup_cons in Hnd as [Hk Hnd]. simpl.
  apply elem_of_cons in Hin as [[= -> ->]|Hin].
  - now rewrite String.eqb_refl.
  - destruct (String.eqb_spec k key) as [->|_]; [|now apply IH].
    exfalso. apply Hk. apply (list_elem_of_fmap_2 fst) in Hin. exact Hin.
Qed.

End GroupingOrder.

(** X6. For reports whose keys `${type}:${message}` can be computed,
    groupErrors returns one group per distinct key, in the order in which
    the keys first occur; each group is the first report of its key with
    count set to the number of reports of that key, and the counts add up to
    the number of reports. *)
Theorem groupErrors_first_reports errors ks :
  Forall2 (fun err key => ReportError.group_key err = Ok key) errors ks ->
  exists groups,
    ReportError.groupErrors errors = Ok groups /\
    Forall2 (fun group key =>
               exists err,
                 first_report key errors ks = Some err /\
                 group = JObj (Map_set "count" (JNum (occurrences key ks))
                                 (ReportError.own_properties err)))
            groups (first_occurrences ks) /\
    fold_right Z.add 0 (map (fun group => default 0 (ReportError.count_of group)) groups)
      = Z.of_nat (length errors).
Proof.
  intros Hkeys.
  destruct (group_loop_grouped errors ks [] [] [] Hkeys eq_refl) as (groups & Hloop & Hk & Hg).
  { split; [reflexivity | discriminate]. }
  simpl in Hk, Hg. exists (map snd groups). unfold ReportError.groupErrors. rewrite Hloop.
  split; [reflexivity|].
  assert (Hnd : NoDup (keys groups)) by (rewrite Hk; apply first_occurrences_NoDup).
  assert (Hall : Forall (fun e => exists err,
                    first_report (fst e) errors ks = Some err /\
                    snd e = JObj (Map_set "count" (JNum (occurrences (fst e) ks))
                                    (ReportError.own_properties err))) groups).
  { apply Forall_forall. intros [k g] Hin. apply Hg. now apply Map_get_elem. }
  split.
  - rewrite <- Hk. unfold keys. clear -Hall.
    induction Hall as [|[k g] groups Hx _ IH]; constructor; assumption.
  - rewrite (Forall2_length _ _ _ Hkeys).
    rewrite <- (occurrences_total (first_occurrences ks) ks).
    + rewrite <- Hk. unfold keys. clear -Hall.
      induction Hall as [|[k g] groups (err & _ & Hx) _ IH]; [reflexivity|].
      simpl in *. rewrite IH, Hx. unfold ReportError.count_of. now rewrite Map_get_set.
    + apply first_occurrences_NoDup.
    + intros k. apply first_occurrences_elem.
Qed.

(** ** Sizes of the chunks *)

Section ChunkSizes.
Import SlackClaude.

Lemma split_loop_nonempty fuel remaining chunks :
  0 < JSString.length remaining ->
  split_loop fuel [] remaining = Some chunks -> chunks <> [].
Proof.
  intros Hp Hrun ->.
  destruct (Z.le_gt_cases (JSString.length remaining) 3900) as [Hs|Hl].
  - rewrite split_loop_short in Hrun by (unfold maxLen; lia). discriminate.
  - destruct fuel as [|fuel].
    + simpl in Hrun. destruct (Z.gtb_spec (JSString.length remaining) 0); [|lia].
      destruct (Z.leb_spec (JSString.length remaining) maxLen);
        [unfold maxLen in *; lia | discriminate].
    + rewrite split_loop_long in Hrun by (unfold maxLen; lia).
      destruct (split_loop fuel [] _); discriminate.
Qed.

Lemma split_loop_sizes fuel remaining chunks :
  split_loop fuel [] remaining = Some chunks ->
  Forall (fun c => 1 <= JSString.length c) chunks /\
  (forall i c, chunks !! i = Some c -> (S i < length chunks)%nat ->
               1950 <= JSString.length c) /\
  1950 * (Z.of_nat (length chunks) - 1) <= JSString.length remaining /\
  (0 < JSString.length remaining <= 3900 -> chunks = [remaining]).
Proof.
  revert remaining chunks.
  induction fuel as [|fuel IH]; intros remaining chunks Hrun;
    (destruct (Z.le_gt_cases (JSString.length remaining) 0) as [Hz|Hp];
     [|destruct (Z.le_gt_cases (JSString.length remaining) 3900) as [Hs|Hl]]).
  1, 4: rewrite (str_length_zero _ Hz) in *; rewrite split_loop_empty in Hrun;
        injection Hrun as <-; (split; [constructor|]); (split; [intros i c [=]|]);
        (split; [simpl; unfold JSString.length; simpl; lia | simpl; unfold JSString.length; simpl; lia]).
  1, 3: rewrite split_loop_short in Hrun by (unfold maxLen; lia);
        injection Hrun as <-; (split; [constructor; [lia | constructor]|]);
        (split; [intros i c _ Hi; simpl in Hi; lia|]);
        (split; [simpl; lia | reflexivity]).
  - exfalso. simpl in Hrun.
    destruct (Z.gtb_spec (JSString.length remaining) 0); [|lia].
    destruct (Z.leb_spec (JSString.length remaining) maxLen);
      [unfold maxLen in *; lia | discriminate].
  - assert (Hm : maxLen < JSString.length remaining) by (unfold maxLen; lia).
    rewrite split_loop_long in Hrun by assumption.
    destruct (split_loop fuel [] _) as [cs|] eqn:E; [|discriminate].
    injection Hrun as <-.
    destruct (split_step_spec remaining Hm) as (_ & Hfst & Hsnd).
    pose proof (splitIdx_range remaining) as Hr.
    unfold split_step in Hfst. cbn [fst] in Hfst.
    specialize (IH _ _ E). destruct IH as (Hall & Hinner & Hcount & Hshort).
    assert (Hcs : cs <> []).
    { apply (split_loop_nonempty fuel (snd (split_step remaining))); [lia | assumption]. }
    split; [constructor; [lia | assumption]|]. split; [|split; [|lia]].
    + intros [|i] c Hc Hi; simpl in Hc.
      * injection Hc as <-. lia.
      * apply (Hinner i c Hc). simpl in Hi. lia.
    + simpl length. destruct cs as [|c0 cs]; [contradiction|]. simpl length in *. lia.
Qed.

End ChunkSizes.

(** X2. The splitting loop of postToSlack always ends with a list of chunks:
    no chunk is empty, every chunk but the last has at least 1950
    characters, so there are at most length/1950 + 1 chunks, and a non-empty
    text of at most 3900 characters is posted as one chunk, the text itself.
    *)
Theorem split_chunks_sizes (text : string) :
  exists chunks,
    SlackClaude.split_chunks text = Some chunks /\
    Forall (fun c => 1 <= JSString.length c) chunks /\
    (forall i c, chunks !! i = Some c -> (S i < length chunks)%nat ->
                 1950 <= JSString.length c) /\
    1950 * (Z.of_nat (length chunks) - 1) <= JSString.length text /\
    (0 < JSString.length text <= 3900 -> chunks = [text]).
Proof.
  destruct (split_chunks_total text) as (chunks & Hrun & _).
  exists chunks. split; [assumption|].
  now apply (split_loop_sizes (String.length text)).
Qed.

(** ** Eviction *)

Section Eviction.
Import SlackClaude.
Implicit Types (c : Conversations) (key : string) (h : list Message).

Lemma keys_drop {V} n (m : list (string * V)) : keys (drop n m) = drop n (keys m).
Proof. unfold keys. symmetry. apply skipn_map. Qed.

Lemma Map_get_drop {V} n key (m : list (string * V)) :
  NoDup (keys m) -> key ∈ keys (drop n m) -> Map_get key (drop n m) = Map_get key m.
Proof.
  revert m. induction n as [|n IH]; intros [|[k v] m] Hnd Hin; try reflexivity.
  simpl in Hnd. apply NoDup_cons in Hnd as [Hk Hnd].
  simpl drop in *. rewrite (IH m Hnd Hin). simpl.
  destruct (String.eqb_spec k key) as [->|_]; [|reflexivity].
  exfalso. apply Hk. rewrite keys_drop in Hin.
  eapply elem_of_sublist; [exact Hin | apply sublist_drop].
Qed.

Lemma handler_turn_keys c key text response :
  cache_inv c ->
  keys (handler_turn c key text (Some response)) =
  if bool_decide (key ∈ keys c) then keys c
  else if (length c <? 100)%nat then keys c ++ [key]
       else drop 1 (keys c) ++ [key].
Proof.
  intros Hinv. unfold handler_turn.
  pose proof (handler_history_inv c key text Hinv) as H1.
  pose proof (handler_history_snd_length c key text) as H2.
  pose proof (handler_history_keys c key text) as H3.
  assert (H4 : length (fst (handler_history c key text)) = length c).
  { rewrite <- (length_map fst), <- (length_map fst c). now f_equal. }
  destruct (handler_history c key text) as [c1 h]. cbn [fst snd] in *.
  rewrite handler_save_drop by assumption. cbv zeta.
  rewrite keys_drop, keys_Map_set. destruct Hinv as (_ & Hlen & _).
  destruct (bool_decide_reflect (key ∈ keys c)) as [Hin|Hout].
  - destruct (Map_get key c1) eqn:E.
    + rewrite Map_set_present_length by congruence.
      replace (length c1 - 100)%nat with 0%nat by lia. now rewrite H3.
    + apply Map_get_None in E. rewrite H3 in E. contradiction.
  - destruct (Map_get key c1) eqn:E.
    + apply Map_get_Some_elem, (list_elem_of_fmap_2 fst) in E.
      change (key ∈ keys c1) in E. rewrite H3 in E. contradiction.
    + rewrite Map_set_absent by assumption. rewrite length_app. simpl length.
      rewrite H3, H4.
      destruct (Nat.ltb_spec (length c) 100).
      * now replace (length c + 1 - 100)%nat with 0%nat by lia.
      * replace (length c + 1 - 100)%nat with 1%nat by lia.
        apply drop_app_le. unfold keys. rewrite length_map. lia.
Qed.

Lemma handler_turn_others c key key' text response :
  cache_inv c -> key <> key' ->
  key' ∈ keys (handler_turn c key text (Some response)) ->
  Map_get key' (handler_turn c key text (Some response)) = Map_get key' c.
Proof.
  intros Hinv Hne. unfold handler_turn.
  pose proof (handler_history_inv c key text Hinv) as H1.
  pose proof (handler_history_snd_length c key text) as H2.
  pose proof (handler_history_other c key key' text Hne) as H3.
  destruct (handler_history c key text) as [c1 h]. cbn [fst snd] in *.
  pose proof (handler_save_inv c1 key h response H1 H2) as Hinv'.
  rewrite handler_save_drop in * by assumption. cbv zeta in *.
  intros Hin. rewrite Map_get_drop; [|rewrite keys_Map_set|assumption].
  - now rewrite Map_get_set_ne.
  - destruct H1 as (Hnd & _). destruct (Map_get key c1) eqn:E; [assumption|].
    apply NoDup_app. split; [assumption|]. split; [|apply NoDup_singleton].
    intros x Hx Hl. apply list_elem_of_singleton in Hl as ->. now apply Map_get_None in E.
Qed.

End Eviction.

(** X3. When an exchange is saved by an invocation that ran alone, on a
    cache with distinct keys, at most 100 of them and histories of 1 to 21
    entries: a thread already in the cache keeps its place, a new thread
    goes to the end, and when the cache already holds 100 threads the thread
    inserted first is evicted, however recently it was used; the histories
    of the other threads that remain are unchanged. *)
Theorem eviction_first_in_first_out (c : SlackClaude.Conversations)
        (key text response : string) :
  SlackClaude.cache_inv c ->
  keys (SlackClaude.handler_turn c key text (Some response))
    = (if bool_decide (key ∈ keys c) then keys c
       else if (length c <? 100)%nat then keys c ++ [key]
            else drop 1 (keys c) ++ [key]) /\
  (forall key', key <> key' ->
     key' ∈ keys (SlackClaude.handler_turn c key text (Some response)) ->
     Map_get key' (SlackClaude.handler_turn c key text (Some response)) = Map_get key' c).
Proof.
  intros Hinv. split; [now apply handler_turn_keys|].
  intros key' Hne Hin. now apply handler_turn_others.
Qed.

Lemma eviction_first_in_first_out_witness :
  keys (SlackClaude.handler_turn (SlackClaude.run Sample2.hundred_threads)
          "C024BE91L:1712.0002" "hello" (Some "hi"))
  = drop 1 (keys (SlackClaude.run Sample2.hundred_threads)) ++ ["C024BE91L:1712.0002"] /\
  keys (SlackClaude.handler_turn (SlackClaude.run Sample2.hundred_threads)
          "k" "again" (Some "hi"))
  = keys (SlackClaude.run Sample2.hundred_threads) /\
  head (keys (SlackClaude.run Sample2.hundred_threads)) = Some "k".
Proof.
  split; [|split].
  - rewrite (proj1 (eviction_first_in_first_out (SlackClaude.run Sample2.hundred_threads)
                      "C024BE91L:1712.0002" "hello" "hi" (run_inv _))).
    vm_compute. reflexivity.
  - rewrite (proj1 (eviction_first_in_first_out (SlackClaude.run Sample2.hundred_threads)
                      "k" "again" "hi" (run_inv _))).
    vm_compute. reflexivity.
  - vm_compute. reflexivity.
Defined.

(** ** The window after ten exchanges *)

Section Window.
Import SlackClaude.
Implicit Types (c : Conversations) (key : string) (h : list Message).

Lemma appended_length exchanges : length (appended exchanges) = (2 * length exchanges)%nat.
Proof.
  induction exchanges as [|[u a] l IH]; [reflexivity|].
  unfold appended in *. simpl flat_map. simpl length. rewrite IH. lia.
Qed.

Lemma appended_app l l' : appended (l ++ l') = appended l ++ appended l'.
Proof. unfold appended. apply flat_map_app. Qed.

(** The history handed to the LLM for the question that follows
    [exchanges] in a thread that was new. *)
Lemma history_after_exchanges turns key exchanges text :
  stored key (run turns) = [] ->
  snd (handler_history (run_from (run turns) (exchanges_on key exchanges)) key text)
  = last_n 20 (appended exchanges ++ [user_entry text]).
Proof.
  intros Hnew. rewrite handler_history_snd, run_from_stored by apply run_inv.
  rewrite Hnew. simpl app. apply (last_n_app 20 21). simpl. lia.
Qed.

Lemma last_n_cut {A} (n : nat) (l1 l2 : list A) :
  length l2 = n -> last_n n (l1 ++ l2) = l2.
Proof.
  intros <-. unfold last_n. rewrite length_app.
  replace (length l1 + length l2 - length l2)%nat with (length l1) by lia.
  now rewrite drop_app_length.
Qed.

End Window.

(** X4. When invocations do not overlap, a thread that was not in the cache
    and has had ten or more consecutive exchanges hands the LLM, for its
    next message, a history of 20 entries that starts with an assistant
    entry, the reply of the tenth exchange from the end, and not with a user
    entry. *)
Theorem history_starts_with_reply turns key exchanges text :
  SlackClaude.stored key (SlackClaude.run turns) = [] ->
  (10 <= length exchanges)%nat ->
  exists question reply rest,
    exchanges !! (length exchanges - 10)%nat = Some (question, reply) /\
    snd (SlackClaude.handler_history
           (SlackClaude.run_from (SlackClaude.run turns)
              (SlackClaude.exchanges_on key exchanges)) key text)
    = SlackClaude.assistant_entry reply :: rest /\
    length rest = 19%nat.
Proof.
  intros Hnew Hlen. rewrite history_after_exchanges by assumption.
  destruct (lookup_lt_is_Some_2 exchanges (length exchanges - 10)) as [[question reply] Hq];
    [lia|].
  exists question, reply.
  pose proof (take_drop_middle _ _ _ Hq) as Hsplit.
  set (before := take (length exchanges - 10) exchanges) in *.
  set (after := drop (S (length exchanges - 10)) exchanges) in *.
  assert (Hbefore : length before = (length exchanges - 10)%nat).
  { subst before. rewrite length_take. lia. }
  assert (Hafter : length after = 9%nat).
  { subst after. rewrite length_drop. lia. }
  exists (SlackClaude.appended after ++ [SlackClaude.user_entry text]).
  split; [assumption|]. split.
  - replace (SlackClaude.appended exchanges ++ [SlackClaude.user_entry text])
      with ((SlackClaude.appended before ++ [SlackClaude.user_entry question])
              ++ (SlackClaude.assistant_entry reply
                    :: SlackClaude.appended after ++ [SlackClaude.user_entry text])).
    + apply last_n_cut. simpl. rewrite length_app, appended_length, Hafter. reflexivity.
    + rewrite <- Hsplit, appended_app, <- !app_assoc. reflexivity.
  - rewrite length_app, appended_length, Hafter. reflexivity.
Qed.

Lemma history_starts_with_reply_witness :
  exists question reply rest,
    SlackClaude.thirteen_exchanges !! 3%nat = Some (question, reply) /\
    snd (SlackClaude.handler_history
           (SlackClaude.run_from (SlackClaude.run [])
              (SlackClaude.exchanges_on SlackClaude.thread_key
                 SlackClaude.thirteen_exchanges))
           SlackClaude.thread_key "q14")
    = SlackClaude.assistant_entry reply :: rest /\
    length rest = 19%nat.
Proof.
  apply (history_starts_with_reply [] SlackClaude.thread_key
           SlackClaude.thirteen_exchanges "q14"); [reflexivity | simpl; lia].
Defined.

(** X5. When callClaude throws in an invocation that ran alone, the keys of
    the cache are unchanged; for a thread in the cache the user message
    stays in the stored history (the last 20 of the history and the
    message), so the next message of the thread hands the LLM two user
    entries in a row; for a thread not in the cache nothing is stored. *)
Theorem failed_call_keeps_question (c : SlackClaude.Conversations) (key text text' : string) :
  keys (SlackClaude.handler_turn c key text None) = keys c /\
  SlackClaude.stored key (SlackClaude.handler_turn c key text None)
    = (if bool_decide (key ∈ keys c)
       then SlackClaude.last_n 20 (SlackClaude.stored key c ++ [SlackClaude.user_entry text])
       else []) /\
  snd (SlackClaude.handler_history (SlackClaude.handler_turn c key text None) key text')
    = (if bool_decide (key ∈ keys c)
       then SlackClaude.last_n 20
              (SlackClaude.stored key c
                 ++ [SlackClaude.user_entry text; SlackClaude.user_entry text'])
       else [SlackClaude.user_entry text']).
Proof.
  assert (Hturn : SlackClaude.handler_turn c key text None
                  = fst (SlackClaude.handler_history c key text)).
  { unfold SlackClaude.handler_turn. now destruct (SlackClaude.handler_history c key text). }
  rewrite Hturn. split; [apply handler_history_keys|].
  assert (Hstored : SlackClaude.stored key (fst (SlackClaude.handler_history c key text))
            = if bool_decide (key ∈ keys c)
              then SlackClaude.last_n 20
                     (SlackClaude.stored key c ++ [SlackClaude.user_entry text])
              else []).
  { destruct (bool_decide_reflect (key ∈ keys c)) as [Hin|Hout].
    - unfold SlackClaude.stored at 1. rewrite handler_history_alias.
      + simpl. apply handler_history_snd.
      + intros E. now apply Map_get_None in E.
    - apply Map_get_None in Hout. unfold SlackClaude.stored, SlackClaude.handler_history.
      simpl. rewrite Hout. simpl. now rewrite Hout. }
  split; [exact Hstored|].
  rewrite handler_history_snd, Hstored.
  destruct (bool_decide (key ∈ keys c)).
  - rewrite (last_n_app 20 20) by (simpl; lia). now rewrite <- app_assoc.
  - reflexivity.
Qed.

(** ** The notifier *)

Section NotifierFacts.
Context `{Runtime} `{World}.

(** X10. Whatever the request, the environment and the answers of the remote
    services, the handler of /api/slack-notify completes normally: it sets
    the three CORS headers, makes at most one request, and ends with exactly
    one response. *)
Theorem notify_handler_responds_once env clock req :
  exists es status body,
    run_eff (SlackNotify.handler env clock req) []
      = (cors_headers ++ es ++ [Respond status body], Ok tt) /\
    Forall (fun e => is_Fetch e || is_ConsoleError e = true) es /\
    (length (List.filter is_Fetch es) <= 1)%nat.
Proof.
  unfold SlackNotify.handler, SlackNotify.respond. repeat step. simpl app.
  fold cors_headers.
  destruct (String.eqb (req_method req) "OPTIONS").
  { exists [], 200, JUndefined. split; [reflexivity|]. split; [constructor | simpl; lia]. }
  destruct (String.eqb (req_method req) "POST"); cbn [negb].
  2: { eexists [], _, _. split; [reflexivity|]. split; [constructor | simpl; lia]. }
  assert (Hcatch : forall t,
            run_eff (_ ← emit (ConsoleError "Slack notification error:");
                     emit (Respond 500 (JObj [("error", JStr "Failed to send notification")]))) t
            = (t ++ [ConsoleError "Slack notification error:"]
                 ++ [Respond 500 (JObj [("error", JStr "Failed to send notification")])], Ok tt)).
  { intros t. repeat step. now rewrite <- app_assoc. }
  assert (Hfail : exists es status body,
            (cors_headers ++ [ConsoleError "Slack notification error:"]
               ++ [Respond 500 (JObj [("error", JStr "Failed to send notification")])],
             @Ok unit tt)
            = (cors_headers ++ es ++ [Respond status body], Ok tt) /\
            Forall (fun e => is_Fetch e || is_ConsoleError e = true) es /\
            (length (List.filter is_Fetch es) <= 1)%nat).
  { eexists [_], _, _. split; [reflexivity|]. split; [repeat constructor | simpl; lia]. }
  repeat step.
  destruct (get_prop (req_body req) "type") as [type|e]; [|rewrite Hcatch; exact Hfail].
  repeat step.
  destruct (get_prop (req_body req) "data") as [data|e]; [|rewrite Hcatch; exact Hfail].
  destruct (truthy type); cbn [negb].
  2: { eexists [], _, _. split; [reflexivity|]. split; [constructor | simpl; lia]. }
  repeat step.
  destruct (SlackNotify.getWebhookUrl env type) as [webhookUrl|e];
    [|rewrite Hcatch; exact Hfail].
  destruct (absent webhookUrl).
  { eexists [], _, _. split; [reflexivity|]. split; [constructor | simpl; lia]. }
  repeat step.
  destruct (SlackNotify.buildMessage clock type data) as [message|e];
    [|rewrite Hcatch; exact Hfail].
  repeat step. rewrite run_eff_fetch.
  destruct (fetch_response cors_headers _ message) as [response|e].
  - destruct (resp_ok response).
    + repeat step. eexists [_], _, _. rewrite <- app_assoc. split; [reflexivity|].
      split; [repeat constructor | simpl; lia].
    + repeat step. eexists [_; _], _, _. rewrite <- !app_assoc.
      split; [reflexivity|]. split; [repeat constructor | simpl; lia].
  - rewrite Hcatch. eexists [_; _], _, _. rewrite <- !app_assoc.
    split; [reflexivity|]. split; [repeat constructor | simpl; lia].
Qed.

(** X11. For a POST request to /api/slack-notify: a missing or falsy type is
    answered 400 'Missing notification type', and a type for which
    getWebhookUrl finds no address is answered 500 'Slack webhook not
    configured'; in both cases nothing is sent and no message is built. *)
Theorem notify_handler_rejects env clock req :
  req_method req = "POST" ->
  (forall type,
     get_prop (req_body req) "type" = Ok type -> truthy type = false ->
     run_eff (SlackNotify.handler env clock req) []
     = (cors_headers ++ [Respond 400 (JObj [("error", JStr "Missing notification type")])],
        Ok tt)) /\
  (forall type webhookUrl,
     get_prop (req_body req) "type" = Ok type -> truthy type = true ->
     SlackNotify.getWebhookUrl env type = Ok webhookUrl -> absent webhookUrl = true ->
     run_eff (SlackNotify.handler env clock req) []
     = (cors_headers
          ++ [Respond 500 (JObj [("error", JStr "Slack webhook not configured")])], Ok tt)).
Proof.
  intros Hpost. unfold SlackNotify.handler, SlackNotify.respond. rewrite Hpost.
  repeat step. simpl app. fold cors_headers. cbn [String.eqb Ascii.eqb Bool.eqb negb].
  split.
  - intros type Htype Hfalsy.
    destruct (get_prop_defined _ _ _ "data" Htype) as [data Hdata].
    repeat step. rewrite Htype. repeat step. rewrite Hdata, Hfalsy. reflexivity.
  - intros type webhookUrl Htype Htruthy Hurl Habsent.
    destruct (get_prop_defined _ _ _ "data" Htype) as [data Hdata].
    repeat step. rewrite Htype. repeat step. rewrite Hdata, Htruthy. cbn [negb].
    repeat step. rewrite Hurl, Habsent. reflexivity.
Qed.

(** X12. When a POST request to /api/slack-notify is answered 200, the type
    was truthy, getWebhookUrl gave a non-empty address, buildMessage built a
    message from type and data, the only request made was that message
    posted to that address, and the body is {success: true}. *)
Theorem notify_handler_success env clock req es body :
  req_method req = "POST" ->
  effects (SlackNotify.handler env clock req) = es ++ [Respond 200 body] ->
  exists type data url message,
    get_prop (req_body req) "type" = Ok type /\ truthy type = true /\
    get_prop (req_body req) "data" = Ok data /\
    SlackNotify.getWebhookUrl env type = Ok (Some url) /\ url <> EmptyString /\
    SlackNotify.buildMessage clock type data = Ok message /\
    es = cors_headers ++ [Fetch url message] /\
    body = JObj [("success", JBool true)].
Proof.
  intros Hpost. unfold effects, SlackNotify.handler, SlackNotify.respond. rewrite Hpost.
  repeat step. simpl app. fold cors_headers. cbn [String.eqb Ascii.eqb Bool.eqb negb].
  assert (Hcatch : forall t,
            run_eff (_ ← emit (ConsoleError "Slack notification error:");
                     emit (Respond 500 (JObj [("error", JStr "Failed to send notification")]))) t
            = ((t ++ [ConsoleError "Slack notification error:"])
                 ++ [Respond 500 (JObj [("error", JStr "Failed to send notification")])], Ok tt)).
  { intros t. repeat step. reflexivity. }
  assert (Hno : forall (t : list Effect) status b,
            status <> 200 -> t ++ [Respond status b] = es ++ [Respond 200 body] -> False).
  { intros t status b Hs E. apply last_effect_inj in E as [_ [= E _]]. contradiction. }
  repeat step.
  destruct (get_prop (req_body req) "type") as [type|e];
    [|rewrite Hcatch; intros E; now apply Hno in E].
  repeat step.
  destruct (get_prop (req_body req) "data") as [data|e];
    [|rewrite Hcatch; intros E; now apply Hno in E].
  destruct (truthy type) eqn:Htruthy; cbn [negb];
    [|cbn [fst]; intros E; now apply Hno in E].
  repeat step.
  destruct (SlackNotify.getWebhookUrl env type) as [webhookUrl|e] eqn:Hurl;
    [|rewrite Hcatch; intros E; now apply Hno in E].
  destruct (absent webhookUrl) eqn:Habsent; [cbn [fst]; intros E; now apply Hno in E|].
  repeat step.
  destruct (SlackNotify.buildMessage clock type data) as [message|e] eqn:Hmessage;
    [|rewrite Hcatch; intros E; now apply Hno in E].
  repeat step. rewrite run_eff_fetch.
  destruct (fetch_response cors_headers _ message) as [response|e];
    [|rewrite Hcatch; intros E; now apply Hno in E].
  destruct (resp_ok response).
  - repeat step. cbn [fst]. intros E. apply last_effect_inj in E as [<- [= <-]].
    apply absent_false in Habsent as (c & url & ->).
    exists type, data, (String c url), message. repeat split; try assumption; try reflexivity.
    discriminate.
  - repeat step. cbn [fst]. intros E. now apply Hno in E.
Qed.

End NotifierFacts.

(** ** The blocks of a notification *)

Section BuilderFacts.
Context `{Runtime}.

Lemma filter_Boolean_truthy l :
  Forall (fun b => truthy b = true) (SlackNotify.filter_Boolean l).
Proof.
  unfold SlackNotify.filter_Boolean. apply Forall_forall. intros b Hb.
  now apply list_elem_of_filter in Hb as [Hb _].
Qed.

(** X13. Every message a builder returns is {blocks: [...]}. The blocks of
    the bug, feature, deployment, digest and incident messages are all
    truthy, an absent optional block being filtered out; a PR message always
    has four blocks, and its third block is null exactly when the
    description is falsy, since that array is not filtered. *)
Theorem builder_blocks clock kind data message :
  SlackNotify.builder clock kind data = Ok message ->
  exists blocks,
    message = JObj [("blocks", JArr blocks)] /\
    match kind with
    | SlackNotify.pr =>
        exists description,
          get_prop data "description" = Ok description /\
          length blocks = 4%nat /\
          (blocks !! 2%nat = Some JNull <-> truthy description = false)
    | _ => Forall (fun b => truthy b = true) blocks
    end.
Proof.
  intros Hbuild. destruct kind; cbn [SlackNotify.builder] in Hbuild.
  - unfold SlackNotify.buildBugMessage in Hbuild. binds Hbuild.
    injection Hbuild as <-. eexists. split; [reflexivity|]. apply filter_Boolean_truthy.
  - unfold SlackNotify.buildFeatureMessage in Hbuild. binds Hbuild.
    injection Hbuild as <-. eexists. split; [reflexivity|]. apply filter_Boolean_truthy.
  - unfold SlackNotify.buildDeploymentMessage in Hbuild. binds Hbuild.
    injection Hbuild as <-. eexists. split; [reflexivity|]. apply filter_Boolean_truthy.
  - unfold SlackNotify.buildDigestMessage in Hbuild. binds Hbuild.
    injection Hbuild as <-. eexists. split; [reflexivity|]. apply filter_Boolean_truthy.
  - unfold SlackNotify.buildIncidentMessage in Hbuild. binds Hbuild.
    injection Hbuild as <-. eexists. split; [reflexivity|]. apply filter_Boolean_truthy.
  - unfold SlackNotify.buildPRMessage in Hbuild. binds Hbuild.
    injection Hbuild as <-. eexists. split; [reflexivity|].
    match goal with
    | Hd : get_prop data "description" = Ok ?d |- _ => exists d; split; [exact Hd|]
    end.
    split; [reflexivity|]. cbn [lookup list_lookup].
    match goal with
    | Hd : (if truthy ?d then _ else _) = Ok ?b |- _ =>
        destruct (truthy d); [binds Hd; injection Hd as <- | injection Hd as <-]
    end; split; intros E; (discriminate || reflexivity).
Qed.

End BuilderFacts.

(** ** The feedback endpoint *)

Section FeedbackFacts.
Context `{Runtime} `{World}.

Lemma truthy_get_prop v name : truthy v = true -> exists x, get_prop v name = Ok x.
Proof. destruct v; simpl; try discriminate; eauto. Qed.

Lemma create_issue_trace owner repo feedback type t :
  get_prop feedback "type" = Ok type ->
  exists es r,
    run_eff (if is_string type "bug"
             then SubmitFeedback.createBugIssue owner repo feedback
             else SubmitFeedback.createFeatureIssue owner repo feedback) t = (t ++ es, r) /\
    match r with
    | Ok issue =>
        exists request response,
          feedback_request feedback = Ok request /\
          es = [Fetch (issues_url owner repo) request] /\
          fetch_response t (issues_url owner repo) request = Ok response /\
          resp_ok response = true /\ issue = resp_json response
    | Throw _ => es = [] \/ exists request, es = [Fetch (issues_url owner repo) request]
    end.
Proof.
  intros Htype. unfold feedback_request. rewrite Htype.
  assert (Hcreate : forall request,
    exists es r,
      run_eff (SubmitFeedback.createGitHubIssue owner repo request) t = (t ++ es, r) /\
      match r with
      | Ok issue =>
          exists response,
            es = [Fetch (issues_url owner repo) request] /\
            fetch_response t (issues_url owner repo) request = Ok response /\
            resp_ok response = true /\ issue = resp_json response
      | Throw _ => es = [Fetch (issues_url owner repo) request]
      end).
  { intros request. unfold SubmitFeedback.createGitHubIssue. step. rewrite run_eff_fetch.
    fold (issues_url owner repo).
    destruct (fetch_response t (issues_url owner repo) request) as [response|e] eqn:E.
    - destruct (resp_ok response) eqn:Eok.
      + eexists _, _. split; [reflexivity|]. exists response. now repeat split.
      + eexists _, _. split; [reflexivity|]. reflexivity.
    - eexists _, _. split; [reflexivity|]. reflexivity. }
  destruct (is_string type "bug").
  - unfold SubmitFeedback.createBugIssue. step. step.
    destruct (SubmitFeedback.bug_request feedback) as [request|e].
    + destruct (Hcreate request) as (es & r & -> & Hr). exists es, r. split; [reflexivity|].
      destruct r; [destruct Hr as (response & ? & ? & ? & ?); eauto 10 | eauto].
    + exists [], (Throw e). rewrite app_nil_r. split; [reflexivity | now left].
  - unfold SubmitFeedback.createFeatureIssue. step. step.
    destruct (SubmitFeedback.feature_request feedback) as [request|e].
    + destruct (Hcreate request) as (es & r & -> & Hr). exists es, r. split; [reflexivity|].
      destruct r; [destruct Hr as (response & ? & ? & ? & ?); eauto 10 | eauto].
    + exists [], (Throw e). rewrite app_nil_r. split; [reflexivity | now left].
Qed.

Ltac finish_trace :=
  rewrite <- ?app_assoc;
  first [ eexists [], _, _; split; [reflexivity|]
        | eexists [_], _, _; split; [reflexivity|]
        | eexists [_; _], _, _; split; [reflexivity|]
        | eexists [_; _; _], _, _; split; [reflexivity|] ];
  split; [repeat constructor | simpl; lia].

(** X14. Whatever the request, the environment and the answers of the remote
    services, the handler of /api/submit-feedback completes normally: it
    sets the three CORS headers, then makes at most two requests and
    otherwise only writes to the console, and ends with exactly one
    response. *)
Theorem feedback_handler_responds_once env req :
  exists es status body,
    run_eff (SubmitFeedback.handler env req) []
      = (cors_headers ++ es ++ [Respond status body], Ok tt) /\
    Forall (fun e => is_Fetch e || is_ConsoleError e = true) es /\
    (length (List.filter is_Fetch es) <= 2)%nat.
Proof.
  unfold SubmitFeedback.handler, SubmitFeedback.respond. repeat step. simpl app.
  fold cors_headers.
  destruct (String.eqb (req_method req) "OPTIONS"); [finish_trace|].
  destruct (String.eqb (req_method req) "POST"); cbn [negb]; [|finish_trace].
  cbv zeta. repeat step.
  destruct (truthy (req_body req)) eqn:Hbody; cbn [negb]; [|repeat step; finish_trace].
  destruct (truthy_get_prop _ "title" Hbody) as [title Htitle].
  destruct (truthy_get_prop _ "type" Hbody) as [type Htype].
  repeat step. rewrite Htitle.
  destruct (truthy title); cbn [negb]; [|repeat step; finish_trace].
  repeat step. rewrite Htype.
  destruct (truthy type); cbn [negb]; [|repeat step; finish_trace].
  destruct (env !! "GITHUB_TOKEN") as [[|? ?]|]; try (repeat step; finish_trace).
  destruct (env !! "GITHUB_OWNER") as [[|c1 owner]|]; try (repeat step; finish_trace).
  destruct (env !! "GITHUB_REPO") as [[|c2 repo]|]; try (repeat step; finish_trace).
  repeat step.
  destruct (create_issue_trace (String c1 owner) (String c2 repo) (req_body req) type
              cors_headers Htype) as (es1 & r1 & -> & Hr1).
  destruct r1 as [issue|e].
  2: { destruct Hr1 as [->|[request ->]]; repeat step; finish_trace. }
  destruct Hr1 as (request & response & _ & -> & _).
  repeat step.
  destruct (env !! "SLACK_WEBHOOK_URL") as [[|c3 webhookUrl]|].
  - repeat step. change (run_eff (mret tt) ?t) with (t, @Ok unit tt). cbv iota.
    repeat step. destruct (get_prop issue "html_url"); [|repeat step; finish_trace].
    repeat step. destruct (get_prop issue "number"); repeat step; finish_trace.
  - repeat step.
    destruct (SubmitFeedback.slack_payload (req_body req) issue) as [payload|e];
      [|repeat step; finish_trace].
    repeat step. rewrite run_eff_fetch.
    destruct (fetch_response _ (String c3 webhookUrl) payload); [|repeat step; finish_trace].
    change (run_eff (mret tt) ?t) with (t, @Ok unit tt). cbv iota.
    repeat step. destruct (get_prop issue "html_url"); [|repeat step; finish_trace].
    repeat step. destruct (get_prop issue "number"); repeat step; finish_trace.
  - repeat step. change (run_eff (mret tt) ?t) with (t, @Ok unit tt). cbv iota.
    repeat step. destruct (get_prop issue "html_url"); [|repeat step; finish_trace].
    repeat step. destruct (get_prop issue "number"); repeat step; finish_trace.
Qed.

(** X15. For a POST request to /api/submit-feedback: a falsy body, title or
    type is answered 400 'Missing required fields: title, type'; with title
    and type present but GITHUB_TOKEN, GITHUB_OWNER or GITHUB_REPO missing
    or empty the answer is 500 'Server configuration error' after one
    console error; in both cases no request is made. *)
Theorem feedback_handler_rejects env req :
  req_method req = "POST" ->
  (let missing :=
     (cors_headers
        ++ [Respond 400 (JObj [("error", JStr "Missing required fields: title, type")])],
      @Ok unit tt) in
   (truthy (req_body req) = false -> run_eff (SubmitFeedback.handler env req) [] = missing) /\
   (forall title, get_prop (req_body req) "title" = Ok title -> truthy title = false ->
      run_eff (SubmitFeedback.handler env req) [] = missing) /\
   (forall type, get_prop (req_body req) "type" = Ok type -> truthy type = false ->
      run_eff (SubmitFeedback.handler env req) [] = missing)) /\
  (forall title type,
     get_prop (req_body req) "title" = Ok title -> truthy title = true ->
     get_prop (req_body req) "type" = Ok type -> truthy type = true ->
     absent (env !! "GITHUB_TOKEN") || absent (env !! "GITHUB_OWNER")
       || absent (env !! "GITHUB_REPO") = true ->
     run_eff (SubmitFeedback.handler env req) []
     = (cors_headers
          ++ [ConsoleError "Missing GitHub configuration";
              Respond 500 (JObj [("error", JStr "Server configuration error")])], Ok tt)).
Proof.
  intros Hpost. unfold SubmitFeedback.handler, SubmitFeedback.respond. rewrite Hpost.
  repeat step. simpl app. fold cors_headers. cbn [String.eqb Ascii.eqb Bool.eqb negb].
  cbv zeta. repeat step.
  split; [split; [|split]|].
  - intros ->. reflexivity.
  - intros title Htitle Hfalsy.
    destruct (truthy (req_body req)); cbn [negb]; [|reflexivity].
    repeat step. rewrite Htitle, Hfalsy. reflexivity.
  - intros type Htype Hfalsy.
    destruct (truthy (req_body req)) eqn:Hbody; cbn [negb]; [|reflexivity].
    destruct (truthy_get_prop _ "title" Hbody) as [title Htitle].
    repeat step. rewrite Htitle.
    destruct (truthy title); cbn [negb]; [|reflexivity].
    repeat step. rewrite Htype, Hfalsy. reflexivity.
  - intros title type Htitle Htruthy Htype Htruthy' Hconfig.
    assert (Hbody : truthy (req_body req) = true).
    { destruct (req_body req); try discriminate; try reflexivity; simpl in *.
      - destruct b; [reflexivity|]. injection Htitle as <-. discriminate.
      - destruct (n =? 0); [|reflexivity]. injection Htitle as <-. discriminate.
      - destruct (String.eqb s EmptyString) eqn:E; [|reflexivity].
        apply String.eqb_eq in E as ->. injection Htitle as <-. discriminate. }
    rewrite Hbody. cbn [negb]. repeat step. rewrite Htitle, Htruthy. cbn [negb].
    repeat step. rewrite Htype, Htruthy'. cbn [negb].
    destruct (env !! "GITHUB_TOKEN") as [[|? ?]|]; try reflexivity;
      destruct (env !! "GITHUB_OWNER") as [[|? ?]|]; try reflexivity;
      destruct (env !! "GITHUB_REPO") as [[|? ?]|]; try reflexivity; discriminate.
Qed.

Ltac absurd_status Hno :=
  repeat step; cbn [fst]; let E := fresh in intros E; now apply Hno in E.

(** X16. When a POST request to /api/submit-feedback is answered 200, the
    issue request built from the feedback (bug or feature) was posted to the
    issues of GITHUB_OWNER/GITHUB_REPO and answered ok, the body is
    {success: true, issueUrl, issueNumber} with html_url and number of that
    answer, and the only other request is the notification posted to
    SLACK_WEBHOOK_URL when that variable is set. *)
Theorem feedback_handler_success env req es body :
  req_method req = "POST" ->
  effects (SubmitFeedback.handler env req) = es ++ [Respond 200 body] ->
  exists owner repo request response html_url number notification,
    env !! "GITHUB_OWNER" = Some owner /\ env !! "GITHUB_REPO" = Some repo /\
    feedback_request (req_body req) = Ok request /\
    fetch_response cors_headers (issues_url owner repo) request = Ok response /\
    resp_ok response = true /\
    get_prop (resp_json response) "html_url" = Ok html_url /\
    get_prop (resp_json response) "number" = Ok number /\
    body = JObj [("success", JBool true); ("issueUrl", html_url);
                 ("issueNumber", number)] /\
    es = cors_headers ++ [Fetch (issues_url owner repo) request] ++ notification /\
    if absent (env !! "SLACK_WEBHOOK_URL") then notification = []
    else exists webhookUrl payload,
           env !! "SLACK_WEBHOOK_URL" = Some webhookUrl /\
           SubmitFeedback.slack_payload (req_body req) (resp_json response) = Ok payload /\
           notification = [Fetch webhookUrl payload].
Proof.
  intros Hpost. unfold effects, SubmitFeedback.handler, SubmitFeedback.respond.
  rewrite Hpost. repeat step. simpl app. fold cors_headers.
  cbn [String.eqb Ascii.eqb Bool.eqb negb]. cbv zeta. repeat step.
  assert (Hno : forall (t : list Effect) status b,
            status <> 200 -> t ++ [Respond status b] = es ++ [Respond 200 body] -> False).
  { intros t status b Hs E. apply last_effect_inj in E as [_ [= E _]]. contradiction. }
  destruct (truthy (req_body req)) eqn:Hbody; cbn [negb]; [|absurd_status Hno].
  destruct (truthy_get_prop _ "title" Hbody) as [title Htitle].
  destruct (truthy_get_prop _ "type" Hbody) as [type Htype].
  repeat step. rewrite Htitle.
  destruct (truthy title); cbn [negb]; [|absurd_status Hno].
  repeat step. rewrite Htype.
  destruct (truthy type); cbn [negb]; [|absurd_status Hno].
  destruct (env !! "GITHUB_TOKEN") as [[|? ?]|]; try absurd_status Hno.
  destruct (env !! "GITHUB_OWNER") as [[|c1 owner]|] eqn:Howner; try absurd_status Hno.
  destruct (env !! "GITHUB_REPO") as [[|c2 repo]|] eqn:Hrepo; try absurd_status Hno.
  repeat step.
  destruct (create_issue_trace (String c1 owner) (String c2 repo) (req_body req) type
              cors_headers Htype) as (es1 & r1 & -> & Hr1).
  destruct r1 as [issue|e]; [|absurd_status Hno].
  destruct Hr1 as (request & response & Hrequest & -> & Hresponse & Hok & ->).
  repeat step.
  destruct (env !! "SLACK_WEBHOOK_URL") as [[|c3 webhookUrl]|] eqn:Hweb.
  - repeat step. change (run_eff (mret tt) ?t) with (t, @Ok unit tt). cbv iota.
    repeat step.
    destruct (get_prop (resp_json response) "html_url") as [html_url|] eqn:Hurl;
      [|absurd_status Hno].
    repeat step.
    destruct (get_prop (resp_json response) "number") as [number|] eqn:Hnumber;
      [|absurd_status Hno].
    repeat step. cbn [fst]. intros E. apply last_effect_inj in E as [<- [= <-]].
    exists (String c1 owner), (String c2 repo), request, response, html_url, number, [].
    repeat split; try assumption; reflexivity.
  - repeat step.
    destruct (SubmitFeedback.slack_payload (req_body req) (resp_json response))
      as [payload|e] eqn:Hpayload; [|absurd_status Hno].
    repeat step. rewrite run_eff_fetch.
    destruct (fetch_response _ (String c3 webhookUrl) payload); [|absurd_status Hno].
    change (run_eff (mret tt) ?t) with (t, @Ok unit tt). cbv iota.
    repeat step.
    destruct (get_prop (resp_json response) "html_url") as [html_url|] eqn:Hurl;
      [|absurd_status Hno].
    repeat step.
    destruct (get_prop (resp_json response) "number") as [number|] eqn:Hnumber;
      [|absurd_status Hno].
    repeat step. cbn [fst]. intros E. apply last_effect_inj in E as [<- [= <-]].
    exists (String c1 owner), (String c2 repo), request, response, html_url, number,
      [Fetch (String c3 webhookUrl) payload].
    rewrite <- app_assoc. repeat split; try assumption; try reflexivity.
    cbn [absent]. eauto.
  - repeat step. change (run_eff (mret tt) ?t) with (t, @Ok unit tt). cbv iota.
    repeat step.
    destruct (get_prop (resp_json response) "html_url") as [html_url|] eqn:Hurl;
      [|absurd_status Hno].
    repeat step.
    destruct (get_prop (resp_json response) "number") as [number|] eqn:Hnumber;
      [|absurd_status Hno].
    repeat step. cbn [fst]. intros E. apply last_effect_inj in E as [<- [= <-]].
    exists (String c1 owner), (String c2 repo), request, response, html_url, number, [].
    repeat split; try assumption; reflexivity.
Qed.

(** X17. The issue request built from a piece of feedback: for type 'bug'
    the title is '🐛 [User Report] ' + title and the labels are bug,
    user-reported and, for severity high or critical only, priority:high;
    for every other type the title is '✨ [Feature Request] ' + title and the
    labels are enhancement and user-requested. *)
Theorem feedback_request_labels feedback request :
  feedback_request feedback = Ok request ->
  exists type severity title title_s body,
    get_prop feedback "type" = Ok type /\
    get_prop feedback "severity" = Ok severity /\
    get_prop feedback "title" = Ok title /\ to_string title = Ok title_s /\
    request
    = JObj [("title", JStr ((if is_string type "bug" then "🐛 [User Report] "
                             else "✨ [Feature Request] ") +:+ title_s));
            ("body", JStr body);
            ("labels",
             JArr (if is_string type "bug" then
                     [JStr "bug"; JStr "user-reported"]
                       ++ (if is_string severity "high" || is_string severity "critical"
                           then [JStr "priority:high"] else [])
                   else [JStr "enhancement"; JStr "user-requested"]))].
Proof.
  unfold feedback_request. destruct (get_prop feedback "type") as [type|] eqn:Htype;
    [|discriminate].
  destruct (get_prop_defined _ _ _ "severity" Htype) as [severity Hseverity].
  destruct (is_string type "bug") eqn:Ebug; intros Hrequest.
  - unfold SubmitFeedback.bug_request in Hrequest. binds Hrequest.
    injection Hrequest as <-.
    match goal with
    | Hsev : get_prop feedback "severity" = Ok ?sv |- _ =>
        lazymatch sv with
        | severity => fail
        | _ => rewrite Hseverity in Hsev; injection Hsev as <-
        end
    end.
    exists type, severity. do 3 eexists. rewrite Ebug.
    split; [reflexivity|]. split; [exact Hseverity|]. split; [eassumption|].
    split; [eassumption|]. reflexivity.
  - unfold SubmitFeedback.feature_request in Hrequest. binds Hrequest.
    injection Hrequest as <-.
    exists type, severity. do 3 eexists. rewrite Ebug.
    split; [reflexivity|]. split; [exact Hseverity|]. split; [eassumption|].
    split; [eassumption|]. reflexivity.
Qed.

End FeedbackFacts.

(** ** Deployment, from the command to the button *)

Section DeployFacts.
Context `{Runtime} `{World}.

(** X18. The /deploy command and its button agree: handleDeployCommand puts
    JSON.stringify({branch, requestedBy}) on the 'Confirm Deploy' button,
    branch being the trimmed text or 'main', and when JSON.parse gives that
    object back handleConfirmDeploy dispatches the deploy workflow of
    GITHUB_OWNER/GITHUB_REPO on that branch ('main' if it is empty) with
    deployer user.name || user.username. *)
Theorem deploy_round_trip env (text : JSValue) (userName : string) (user name username : JSValue)
        (branch value : string) t :
  CommandHandlers.trimmed_or text (JStr "main") = Ok (JStr branch) ->
  JSON_stringify (JObj [("branch", JStr branch); ("requestedBy", JStr userName)])
    = Some value ->
  JSON_parse value = Ok (JObj [("branch", JStr branch); ("requestedBy", JStr userName)]) ->
  get_prop user "name" = Ok name -> get_prop user "username" = Ok username ->
  exists message,
    CommandHandlers.handleDeployCommand text (JStr userName) = Ok message /\
    Map_get "confirm_deploy" (button_values message) = Some (JStr value) /\
    fst (run_eff (ActionHandlers.handleConfirmDeploy env (JStr value) user) t)
    = t ++ [Fetch (dispatches_url env)
              (JObj [("ref", JStr (if String.eqb branch EmptyString then "main" else branch));
                     ("inputs", JObj [("deployer", or_else name username)])])].
Proof.
  intros Hbranch Hstringify Hparse Hname Husername.
  assert (Hmessage : exists message,
            CommandHandlers.handleDeployCommand text (JStr userName) = Ok message /\
            Map_get "confirm_deploy" (button_values message) = Some (JStr value)).
  { unfold CommandHandlers.handleDeployCommand. rewrite Hbranch. simpl.
    unfold CommandHandlers.stringify_value. rewrite Hstringify.
    eexists. split; reflexivity. }
  destruct Hmessage as (message & Hmessage & Hvalue). exists message.
  split; [assumption|]. split; [assumption|].
  unfold ActionHandlers.handleConfirmDeploy, ActionHandlers.parse_value.
  repeat step. simpl to_string. cbn [mbind result_bind]. rewrite Hparse.
  repeat step.
  change (get_prop (JObj [("branch", JStr branch); ("requestedBy", JStr userName)]) "branch")
    with (@Ok JSValue (JStr branch)).
  repeat step. rewrite Hname. repeat step. rewrite Husername.
  repeat step. rewrite run_eff_fetch. fold (dispatches_url env).
  assert (Href : or_else (JStr branch) (JStr "main")
                 = JStr (if String.eqb branch EmptyString then "main" else branch)).
  { unfold or_else. simpl. now destruct (String.eqb branch EmptyString). }
  rewrite Href.
  destruct (fetch_response t _ _) as [response|e]; [|reflexivity].
  destruct (resp_ok response); cbn [negb]; [|reflexivity].
  repeat step. destruct (to_string _) as [branch_s|e]; [|reflexivity].
  repeat step. destruct (ActionHandlers.user_name user); reflexivity.
Qed.

End DeployFacts.

(** ** Buttons and issues *)

Lemma Z_to_string_no_brace (n : Z) : String.prefix "{" (Z_to_string n) = false.
Proof.
  unfold Z_to_string. destruct (Z.to_int n) as [d|d]; simpl.
  - destruct d; reflexivity.
  - reflexivity.
Qed.

Section ButtonFacts.
Context `{Runtime} `{World}.

Lemma label_plain env (n : Z) t :
  fst (run_eff (ActionHandlers.handleTriggerAIAnalysis env (JStr (Z_to_string n))) t)
  = t ++ [Fetch (ActionHandlers.labels_url env (Z_to_string n))
            (JObj [("labels", JArr [JStr "ai-analyze"])])].
Proof.
  unfold ActionHandlers.handleTriggerAIAnalysis, ActionHandlers.issueNumber_of.
  rewrite Z_to_string_no_brace. repeat step. cbn [to_string]. repeat step.
  rewrite run_eff_fetch. destruct (fetch_response t _ _); reflexivity.
Qed.

Lemma label_roadmap env (n : Z) t :
  fst (run_eff (ActionHandlers.handleAddToRoadmap env (JStr (Z_to_string n))) t)
  = t ++ [Fetch (ActionHandlers.labels_url env (Z_to_string n))
            (JObj [("labels", JArr [JStr "roadmap"])])].
Proof.
  unfold ActionHandlers.handleAddToRoadmap, ActionHandlers.issueNumber_of.
  rewrite Z_to_string_no_brace. repeat step. cbn [to_string]. repeat step.
  rewrite run_eff_fetch. destruct (fetch_response t _ _); reflexivity.
Qed.

Lemma command_issue_trace env title body labels t :
  (exists e, run_eff (CommandHandlers.createGitHubIssue env title body labels) t
             = (t ++ [Fetch (tracker_issues_url env)
                        (JObj [("title", JStr title); ("body", JStr body);
                               ("labels", JArr (JStr <$> labels))])], Throw e)) \/
  (exists response,
      fetch_response t (tracker_issues_url env)
        (JObj [("title", JStr title); ("body", JStr body);
               ("labels", JArr (JStr <$> labels))]) = Ok response /\
      run_eff (CommandHandlers.createGitHubIssue env title body labels) t
      = (t ++ [Fetch (tracker_issues_url env)
                 (JObj [("title", JStr title); ("body", JStr body);
                        ("labels", JArr (JStr <$> labels))])], Ok (resp_json response))).
Proof.
  unfold CommandHandlers.createGitHubIssue. change (CommandHandlers.createGitHubIssue env title body labels) with (response ← fetch (tracker_issues_url env) (JObj [("title", JStr title); ("body", JStr body); ("labels", JArr (JStr <$> labels))]); if resp_ok response then mret (resp_json response) else lift (Throw (GenericError ("GitHub API error: " +:+ Z_to_string (resp_status response))))).
  rewrite run_eff_bind, run_eff_fetch.
  destruct (fetch_response t _ _) as [response|e] eqn:E.
  - destruct (resp_ok response).
    + right. exists response. split; reflexivity.
    + left. eexists. rewrite run_eff_lift. reflexivity.
  - left. eexists. reflexivity.
Qed.

(** X19. When /bug (or /feature) with a non-empty text succeeds, it made one
    request, and if the answer numbers the issue n, the 'AI Analyze' (or
    'Add to Roadmap') button carries String(n) and handleTriggerAIAnalysis
    (or handleAddToRoadmap) given that value posts the label ai-analyze (or
    roadmap) to issue n of the repository. *)
Theorem command_buttons_reach_issue env clock (text userName : JSValue) t t1 message :
  truthy text = true ->
  (run_eff (CommandHandlers.handleBugCommand env clock text userName) t = (t1, Ok message) ->
   exists url body response,
     t1 = t ++ [Fetch url body] /\ fetch_response t url body = Ok response /\
     forall n, get_prop (resp_json response) "number" = Ok (JNum n) ->
       Map_get "trigger_ai_analysis" (button_values message) = Some (JStr (Z_to_string n)) /\
       forall t2,
         fst (run_eff (ActionHandlers.handleTriggerAIAnalysis env (JStr (Z_to_string n))) t2)
         = t2 ++ [Fetch (ActionHandlers.labels_url env (Z_to_string n))
                    (JObj [("labels", JArr [JStr "ai-analyze"])])]) /\
  (run_eff (CommandHandlers.handleFeatureCommand env clock text userName) t = (t1, Ok message) ->
   exists url body response,
     t1 = t ++ [Fetch url body] /\ fetch_response t url body = Ok response /\
     forall n, get_prop (resp_json response) "number" = Ok (JNum n) ->
       Map_get "add_to_roadmap" (button_values message) = Some (JStr (Z_to_string n)) /\
       forall t2,
         fst (run_eff (ActionHandlers.handleAddToRoadmap env (JStr (Z_to_string n))) t2)
         = t2 ++ [Fetch (ActionHandlers.labels_url env (Z_to_string n))
                    (JObj [("labels", JArr [JStr "roadmap"])])]).
Proof.
  intros Htext. split.
  - unfold CommandHandlers.handleBugCommand. rewrite Htext. cbn [negb].
    destruct (to_string text) as [text_s|e]; repeat step; [|discriminate].
    destruct (to_string userName) as [userName_s|e]; repeat step; [|discriminate].
    match goal with
    | |- context [CommandHandlers.createGitHubIssue ?e ?a ?b ?c] =>
        destruct (command_issue_trace e a b c t)
          as [(e' & ->)|(response & Hresponse & ->)]
    end; [discriminate|].
    destruct (get_prop (resp_json response) "html_url") as [html_url|e]; repeat step;
      [|discriminate].
    destruct (to_string html_url) as [html_url_s|e]; repeat step; [|discriminate].
    destruct (get_prop (resp_json response) "number") as [number|e] eqn:Eissue; repeat step;
      [|discriminate].
    destruct (to_string number) as [number_s|e] eqn:Enumber; repeat step; [|discriminate].
    intros [= <- <-]. do 3 eexists. split; [reflexivity|]. split; [exact Hresponse|].
    intros n Hn. rewrite Eissue in Hn. injection Hn as ->. cbn [to_string] in Enumber. injection Enumber as <-.
    split; [reflexivity|]. intros t2. apply label_plain.
  - unfold CommandHandlers.handleFeatureCommand. rewrite Htext. cbn [negb].
    destruct (to_string text) as [text_s|e]; repeat step; [|discriminate].
    destruct (to_string userName) as [userName_s|e]; repeat step; [|discriminate].
    match goal with
    | |- context [CommandHandlers.createGitHubIssue ?e ?a ?b ?c] =>
        destruct (command_issue_trace e a b c t)
          as [(e' & ->)|(response & Hresponse & ->)]
    end; [discriminate|].
    destruct (get_prop (resp_json response) "html_url") as [html_url|e]; repeat step;
      [|discriminate].
    destruct (to_string html_url) as [html_url_s|e]; repeat step; [|discriminate].
    destruct (get_prop (resp_json response) "number") as [number|e] eqn:Eissue; repeat step;
      [|discriminate].
    destruct (to_string number) as [number_s|e] eqn:Enumber; repeat step; [|discriminate].
    intros [= <- <-]. do 3 eexists. split; [reflexivity|]. split; [exact Hresponse|].
    intros n Hn. rewrite Eissue in Hn. injection Hn as ->. cbn [to_string] in Enumber. injection Enumber as <-.
    split; [reflexivity|]. intros t2. apply label_roadmap.
Qed.

End ButtonFacts.

Section ButtonFacts2.
Context `{Runtime} `{World}.

Lemma label_stringified env (n : Z) (s : string) t :
  String.prefix "{" s = true ->
  JSON_parse s = Ok (JObj [("issueNumber", JNum n)]) ->
  (fst (run_eff (ActionHandlers.handleTriggerAIAnalysis env (JStr s)) t)
   = t ++ [Fetch (ActionHandlers.labels_url env (Z_to_string n))
             (JObj [("labels", JArr [JStr "ai-analyze"])])]) /\
  (fst (run_eff (ActionHandlers.handleAddToRoadmap env (JStr s)) t)
   = t ++ [Fetch (ActionHandlers.labels_url env (Z_to_string n))
             (JObj [("labels", JArr [JStr "roadmap"])])]).
Proof.
  intros Hbrace Hparse.
  unfold ActionHandlers.handleTriggerAIAnalysis, ActionHandlers.handleAddToRoadmap,
    ActionHandlers.issueNumber_of.
  rewrite Hbrace, Hparse. cbn [mbind result_bind].
  change (get_prop (JObj [("issueNumber", JNum n)]) "issueNumber") with (@Ok JSValue (JNum n)).
  split; repeat step; cbn [to_string]; repeat step; rewrite run_eff_fetch;
    destruct (fetch_response t _ _); reflexivity.
Qed.

(** X20. For a notification whose data has issueNumber n, when
    JSON.stringify({issueNumber: n}) starts with a brace and JSON.parse
    gives the object back: the 'AI Analyze' button of the bug message,
    handed to handleTriggerAIAnalysis, posts the label ai-analyze to issue
    n, and the 'Add to Roadmap' button of the feature message, handed to
    handleAddToRoadmap, posts the label roadmap to issue n. *)
Theorem notify_buttons_reach_issue env (data : JSValue) (n : Z) (s : string) t :
  get_prop data "issueNumber" = Ok (JNum n) ->
  JSON_stringify (JObj [("issueNumber", JNum n)]) = Some s ->
  String.prefix "{" s = true ->
  JSON_parse s = Ok (JObj [("issueNumber", JNum n)]) ->
  (forall message, SlackNotify.buildBugMessage data = Ok message ->
     exists value,
       Map_get "trigger_ai_analysis" (button_values message) = Some value /\
       fst (run_eff (ActionHandlers.handleTriggerAIAnalysis env value) t)
       = t ++ [Fetch (ActionHandlers.labels_url env (Z_to_string n))
                 (JObj [("labels", JArr [JStr "ai-analyze"])])]) /\
  (forall message, SlackNotify.buildFeatureMessage data = Ok message ->
     exists value,
       Map_get "add_to_roadmap" (button_values message) = Some value /\
       fst (run_eff (ActionHandlers.handleAddToRoadmap env value) t)
       = t ++ [Fetch (ActionHandlers.labels_url env (Z_to_string n))
                 (JObj [("labels", JArr [JStr "roadmap"])])]).
Proof.
  intros Hnumber Hstringify Hbrace Hparse.
  destruct (label_stringified env n s t Hbrace Hparse) as [Hbug Hfeature].
  split; intros message Hmessage; exists (JStr s).
  - split; [|exact Hbug].
    unfold SlackNotify.buildBugMessage in Hmessage. binds Hmessage.
    rewrite Hnumber in *.
    repeat match goal with
           | E : Ok _ = Ok _ |- _ => injection E as <-
           end.
    unfold SlackNotify.stringified. rewrite Hstringify.
    unfold SlackNotify.view_issue_button.
    match goal with
    | E : (if truthy ?d then _ else _) = Ok ?v |- _ =>
        destruct (truthy d); [binds E|]; injection E as <-
    end;
    match goal with
    | |- context [if truthy ?u then _ else _] => destruct (truthy u)
    end; reflexivity.
  - split; [|exact Hfeature].
    unfold SlackNotify.buildFeatureMessage in Hmessage. binds Hmessage.
    rewrite Hnumber in *.
    repeat match goal with
           | E : Ok _ = Ok _ |- _ => injection E as <-
           end.
    unfold SlackNotify.stringified. rewrite Hstringify.
    unfold SlackNotify.view_issue_button.
    match goal with
    | E : (if truthy ?d then _ else _) = Ok ?v |- _ =>
        destruct (truthy d); [binds E|]; injection E as <-
    end;
    match goal with
    | |- context [if truthy ?u then _ else _] => destruct (truthy u)
    end; reflexivity.
Qed.

End ButtonFacts2.

(** ** The gate of the chat endpoint *)

Lemma prop_truthy (v : JSValue) (name : string) :
  truthy v = true -> get_prop v name = Ok (prop v name).
Proof.
  intros Hv. unfold prop. destruct v; try discriminate; reflexivity.
Qed.

Lemma prop_defined (v : JSValue) (name other : string) x :
  get_prop v name = Ok x -> get_prop v other = Ok (prop v other).
Proof. unfold prop. destruct v; try discriminate; reflexivity. Qed.

Ltac chat_done :=
  eexists; rewrite <- ?app_assoc; split; [reflexivity | discriminate].

Section ChatFacts.
Context `{Runtime} `{World}.

(** X21. For a POST request to /api/slack-claude whose body has properties,
    with any rest of the handler that only adds effects: a url_verification
    body is answered 200 with its challenge before any signature check;
    otherwise, with a signing secret set and a signature that
    verifySlackSignature refuses, the answer is 401 and nothing else; with
    no secret or an accepted signature the handler first answers 200 with no
    body and then completes normally whatever happens next, and it does
    nothing more when the event is missing, comes from a bot, or is neither
    an app_mention nor a direct message. *)
Theorem chat_handler_gate (respond_to : string -> JSValue -> JSValue -> string -> Eff unit)
        env now (req : Request) (type : JSValue) t :
  (forall text channel threadTs key t,
      exists es, fst (run_eff (respond_to text channel threadTs key) t) = t ++ es) ->
  req_method req = "POST" ->
  get_prop (req_body req) "type" = Ok type ->
  (is_string type "url_verification" = true ->
   run_eff (ClaudeChat.handler respond_to env now req) t
   = (t ++ [Respond 200 (JObj [("challenge", prop (req_body req) "challenge")])], Ok tt)) /\
  (is_string type "url_verification" = false ->
   absent (env !! "SLACK_SIGNING_SECRET") = false ->
   verifySlackSignature env now req = Ok false ->
   run_eff (ClaudeChat.handler respond_to env now req) t
   = (t ++ [Respond 401 (JObj [("error", JStr "Invalid signature")])], Ok tt)) /\
  (is_string type "url_verification" = false ->
   absent (env !! "SLACK_SIGNING_SECRET") = true
   \/ verifySlackSignature env now req = Ok true ->
   exists es,
     run_eff (ClaudeChat.handler respond_to env now req) t
     = (t ++ Respond 200 JUndefined :: es, Ok tt) /\
     (addressed (prop (req_body req) "event") = false -> es = [])).
Proof.
  intros Hrest Hmethod Htype. unfold ClaudeChat.handler, ClaudeChat.respond.
  rewrite Hmethod. cbn [String.eqb Ascii.eqb Bool.eqb negb andb].
  repeat step. rewrite Htype. repeat step.
  split; [|split].
  - intros ->. rewrite (prop_defined _ _ "challenge" _ Htype). repeat step. reflexivity.
  - intros -> Hsecret Hverify. repeat step. rewrite Hsecret. repeat step. rewrite Hverify. repeat step. reflexivity.
  - intros -> Hverified.
    assert (Hgate : run_eff (if absent (env !! "SLACK_SIGNING_SECRET") then mret true
                             else lift (verifySlackSignature env now req)) t = (t, Ok true)).
    { destruct Hverified as [->| ->]; [reflexivity|].
      destruct (absent _); [reflexivity|]. now rewrite run_eff_lift. }
    repeat step. rewrite Hgate. cbn [negb]. repeat step.
    rewrite (prop_defined _ _ "event" _ Htype). repeat step.
    unfold addressed.
    destruct (truthy (prop (req_body req) "event")) eqn:Hevent; cbn [negb andb].
    2:{ eexists. split; [reflexivity|]. reflexivity. }
    repeat (rewrite (prop_truthy _ _ Hevent); repeat step).
    rewrite <- negb_orb.
    destruct (is_string (prop _ "type") "app_mention" || is_string (prop _ "channel_type") "im");
      cbn [negb andb]; [|eexists; split; reflexivity].
    repeat step. repeat (rewrite (prop_truthy _ _ Hevent); repeat step).
    destruct (truthy (prop _ "bot_id")); cbn [negb]; [eexists; split; reflexivity|].
    repeat step.
    destruct (ClaudeChat.clean_text _) as [text|e]; repeat step; [|chat_done].
    repeat (match goal with
            | |- context [to_string ?x] => destruct (to_string x) as [?|?]
            end; repeat step);
      try chat_done.
    match goal with
    | |- context [run_eff (respond_to ?a ?b ?c ?d) ?t0] =>
        destruct (Hrest a b c d t0) as [es Hes];
        destruct (run_eff (respond_to a b c d) t0) as [t' [[]|e]];
        cbn [fst] in Hes; subst t'
    end.
    + exists es. rewrite <- app_assoc. split; [reflexivity | discriminate].
    + exists (es ++ [ConsoleError "Claude chat error:"]). repeat step.
      rewrite <- !app_assoc. split; [reflexivity | discriminate].
Qed.

End ChatFacts.

(** ** Mentions *)

Section Mentions.

Import ClaudeChat.

Lemma str_app_cons c (s t : string) : String c s +:+ t = String c (s +:+ t).
Proof. reflexivity. Qed.

Lemma str_app_nil (t : string) : EmptyString +:+ t = t.
Proof. reflexivity. Qed.

Lemma id_run_app (id rest : string) :
  all_chars is_id_char id = true ->
  id_run (id +:+ String ">" rest) = String.length id /\
  JSString.drop (String.length id) (id +:+ String ">" rest) = String ">" rest.
Proof.
  induction id as [|c id IH]; intros Hid.
  - rewrite str_app_nil. split; reflexivity.
  - rewrite str_app_cons. cbn [all_chars] in Hid. apply andb_prop in Hid as [Hc Hid].
    destruct (IH Hid) as [IH1 IH2]. cbn [id_run String.length JSString.drop].
    rewrite Hc, IH1. split; [reflexivity | exact IH2].
Qed.

Lemma strip_skip (a : string) x (s : string) :
  strip_mentions_from (S (String.length a)) (a +:+ String x s) = strip_mentions_from 0 s.
Proof.
  induction a as [|c a IH].
  - rewrite str_app_nil. reflexivity.
  - rewrite str_app_cons. exact IH.
Qed.

Lemma strip_mention_here (id post : string) :
  id <> EmptyString -> all_chars is_id_char id = true ->
  strip_mentions (String "<" (String "@" (id +:+ String ">" post))) = strip_mentions post.
Proof.
  intros Hne Hid. unfold strip_mentions.
  destruct (id_run_app id post Hid) as [Hrun Hdrop].
  cbn [strip_mentions_from]. unfold mention_length. rewrite Hrun, Hdrop.
  destruct id as [|c id]; [congruence|]. cbn [String.length].
  replace (S (String.length id) + 3 - 1)%nat with (S (S (S (String.length id)))) by lia.
  rewrite str_app_cons. cbn [strip_mentions_from]. apply strip_skip.
Qed.

Lemma strip_no_bracket (pre rest : string) :
  all_chars (fun c => negb (Ascii.eqb c "<")) pre = true ->
  strip_mentions (pre +:+ rest) = pre +:+ strip_mentions rest.
Proof.
  unfold strip_mentions. induction pre as [|c pre IH]; intros Hpre.
  - now rewrite !str_app_nil.
  - rewrite !str_app_cons. cbn [all_chars] in Hpre. apply andb_prop in Hpre as [Hc Hpre].
    cbn [strip_mentions_from].
    assert (Hm : mention_length (String c (pre +:+ rest)) = None).
    { unfold mention_length. destruct (Ascii.eqb_spec c "<") as [->|Hne]; [discriminate|].
      destruct c as [[] [] [] [] [] [] [] []]; try reflexivity. congruence. }
    rewrite Hm. now rewrite IH.
Qed.

End Mentions.

(** X22. The text of an event is cleaned by removing mentions: in a text
    made of characters other than '<', then '<@', a non-empty run of capital
    letters and digits and '>', then more text, the first part is kept, the
    mention is removed, the rest is cleaned in the same way, and the result
    is trimmed. *)
Theorem clean_text_removes_mention (pre id post : string) :
  all_chars (fun c => negb (Ascii.eqb c "<")) pre = true ->
  id <> EmptyString -> all_chars ClaudeChat.is_id_char id = true ->
  ClaudeChat.clean_text (JStr (pre +:+ "<@" +:+ id +:+ ">" +:+ post))
  = Ok (trim (pre +:+ ClaudeChat.strip_mentions post)).
Proof.
  intros Hpre Hne Hid. unfold ClaudeChat.clean_text.
  rewrite strip_no_bracket by assumption.
  change ("<@" +:+ id +:+ ">" +:+ post) with (String "<" (String "@" (id +:+ String ">" post))).
  now rewrite strip_mention_here.
Qed.

(** ** The error logger *)

Section LoggerFacts.

Import ErrorLogger.

Lemma flushErrors_spec environment st :
  let '(st', sent) := flushErrors environment st in
  errorCount st' = errorCount st /\ lastErrorReset st' = lastErrorReset st /\
  batchTimer st' = batchTimer st /\ errorQueue st' = [] /\
  match sent with
  | Some payload => errors_of payload = errorQueue st /\ well_formed payload
  | None => errorQueue st = []
  end.
Proof.
  unfold flushErrors. destruct (errorQueue st) as [|e q] eqn:E.
  - rewrite E. repeat split.
  - cbn [errorCount lastErrorReset batchTimer errorQueue]. repeat split.
    exists (e :: q), environment. split; [discriminate | reflexivity].
Qed.

Lemma take_limited {A} (m c : Z) (x : A) (l : list A) :
  (c + 1 >? m) = true ->
  take (Z.to_nat (m - c)) (x :: l) = take (Z.to_nat (m - (c + 1))) l.
Proof.
  intros H. rewrite Z.gtb_ltb, Z.ltb_lt in H.
  replace (Z.to_nat (m - c)) with 0%nat by lia.
  replace (Z.to_nat (m - (c + 1))) with 0%nat by lia. reflexivity.
Qed.

Lemma take_accepted {A} (m c : Z) (x : A) (l : list A) :
  (c + 1 >? m) = false ->
  take (Z.to_nat (m - c)) (x :: l) = x :: take (Z.to_nat (m - (c + 1))) l.
Proof.
  intros H. rewrite Z.gtb_ltb, Z.ltb_ge in H.
  replace (Z.to_nat (m - c)) with (S (Z.to_nat (m - (c + 1)))) by lia. reflexivity.
Qed.

Lemma run_window config start events st :
  within_a_minute start events -> lastErrorReset st = start ->
  let '(st', sent) := run config st events in
  flat_map errors_of sent ++ errorQueue st'
  = errorQueue st
      ++ take (Z.to_nat (maxErrorsPerMinute config - errorCount st)) (captured events) /\
  Forall well_formed sent.
Proof.
  intros Hwin. revert st. induction Hwin as [|event events Hevent Hwin IH]; intros st Hstart.
  - simpl. rewrite take_nil, app_nil_r. split; [reflexivity | constructor].
  - cbn [run]. destruct event as [now errorData|environment|environment].
    + cbn [step captured flat_map]. unfold captureError, isRateLimited.
      replace (now - lastErrorReset st >? 60000) with false
        by (symmetry; rewrite Z.gtb_ltb, Z.ltb_ge; lia).
      cbn [errorCount errorQueue lastErrorReset batchTimer].
      destruct (errorCount st + 1 >? maxErrorsPerMinute config) eqn:Elimit.
      * match goal with
        | |- context [run config ?s events] =>
            specialize (IH s); destruct (run config s events) as [st' sent]
        end.
        cbn [errorCount errorQueue lastErrorReset] in IH.
        destruct (IH Hstart) as [IH1 IH2]. split; [|assumption].
        rewrite IH1. cbn [app]. now rewrite take_limited.
      * match goal with
        | |- context [run config ?s events] =>
            specialize (IH s); destruct (run config s events) as [st' sent]
        end.
        assert (Hs : forall s, lastErrorReset (scheduleBatchSend s) = lastErrorReset s
                               /\ errorCount (scheduleBatchSend s) = errorCount s
                               /\ errorQueue (scheduleBatchSend s) = errorQueue s).
        { intros s. unfold scheduleBatchSend. now destruct (batchTimer s). }
        destruct (Hs {| errorQueue := errorQueue st ++ [errorData];
                        errorCount := errorCount st + 1;
                        lastErrorReset := lastErrorReset st;
                        batchTimer := batchTimer st |}) as (Hs1 & Hs2 & Hs3).
        rewrite Hs1, Hs2, Hs3 in IH.
        cbn [errorCount errorQueue lastErrorReset] in IH.
        destruct (IH Hstart) as [IH1 IH2]. split; [|assumption].
        rewrite IH1. cbn [app]. rewrite take_accepted by assumption.
        now rewrite <- app_assoc.
    + cbn [step captured flat_map app]. destruct (batchTimer st) eqn:Etimer.
      * unfold timer_callback.
        pose proof (flushErrors_spec environment st) as Hflush.
        destruct (flushErrors environment st) as [st1 sent1].
        destruct Hflush as (Hc & Hl & _ & Hq & Hsent).
        match goal with
        | |- context [run config ?s events] =>
            specialize (IH s); destruct (run config s events) as [st' sent]
        end.
        cbn [errorCount errorQueue lastErrorReset] in IH.
        rewrite Hc, Hl, Hq in IH. destruct (IH Hstart) as [IH1 IH2].
        destruct sent1 as [payload|].
        -- destruct Hsent as [He Hw]. split; [|now constructor].
           cbn [flat_map]. rewrite <- app_assoc, IH1, He. reflexivity.
        -- split; [|assumption]. rewrite IH1, Hsent. reflexivity.
      * specialize (IH st). destruct (run config st events) as [st' sent].
        exact (IH Hstart).
    + cbn [step captured flat_map app].
      pose proof (flushErrors_spec environment st) as Hflush.
      destruct (flushErrors environment st) as [st1 sent1].
      destruct Hflush as (Hc & Hl & _ & Hq & Hsent).
      specialize (IH st1). destruct (run config st1 events) as [st' sent].
      rewrite Hc, Hl, Hq in IH. destruct (IH Hstart) as [IH1 IH2].
      destruct sent1 as [payload|].
      * destruct Hsent as [He Hw]. split; [|now constructor].
        cbn [flat_map]. rewrite <- app_assoc, IH1, He. reflexivity.
      * split; [|assumption]. rewrite IH1, Hsent. reflexivity.
Qed.

Lemma step_spec config st event :
  (errorQueue st = [] \/ batchTimer st = true) ->
  let '(st', sent) := step config st event in
  (errorQueue st' = [] \/ batchTimer st' = true) /\
  match sent with
  | Some payload => well_formed payload
  | None => True
  end.
Proof.
  intros Hst. destruct event as [now errorData|environment|environment]; cbn [step].
  - split; [|exact I]. unfold captureError.
    destruct (isRateLimited config now st) as [limited st1] eqn:E.
    assert (H1 : errorQueue st1 = errorQueue st /\ batchTimer st1 = batchTimer st).
    { unfold isRateLimited in E. injection E as _ <-.
      now destruct (now - lastErrorReset st >? 60000). }
    destruct H1 as [Hq Ht]. destruct limited.
    + now rewrite Hq, Ht.
    + right. unfold scheduleBatchSend. cbn [batchTimer].
      now destruct (batchTimer st1).
  - destruct (batchTimer st) eqn:Etimer.
    + unfold timer_callback.
      pose proof (flushErrors_spec environment st) as Hflush.
      destruct (flushErrors environment st) as [st1 sent1].
      destruct Hflush as (_ & _ & _ & Hq & Hsent). cbn [errorQueue batchTimer].
      split; [now left|]. destruct sent1; [apply Hsent | exact I].
    + split; [|exact I]. destruct Hst; [now left | congruence].
  - pose proof (flushErrors_spec environment st) as Hflush.
    destruct (flushErrors environment st) as [st1 sent1].
    destruct Hflush as (_ & _ & _ & Hq & Hsent).
    split; [now left|]. destruct sent1; [apply Hsent | exact I].
Qed.

Lemma run_spec config events st :
  (errorQueue st = [] \/ batchTimer st = true) ->
  (errorQueue (fst (run config st events)) = []
   \/ batchTimer (fst (run config st events)) = true) /\
  Forall well_formed (snd (run config st events)).
Proof.
  revert st. induction events as [|event events IH]; intros st Hst.
  - split; [exact Hst | constructor].
  - cbn [run]. pose proof (step_spec config st event Hst) as Hstep.
    destruct (step config st event) as [st1 sent1]. destruct Hstep as [Hst1 Hsent1].
    specialize (IH st1 Hst1). destruct (run config st1 events) as [st' sent].
    cbn [fst snd] in *. destruct IH as [IH1 IH2]. split; [exact IH1|].
    destruct sent1; [now constructor | assumption].
Qed.

End LoggerFacts.

(** X23. With a configuration that is not changed meanwhile, and while every
    error is captured within 60000 ms of the start of the logger, the errors
    sent so far followed by the errors still queued are exactly the first
    maxErrorsPerMinute errors handed to captureError, each once and in the
    order of capture, whenever the timer fires or a flush is asked for; the
    errors beyond that number are dropped. *)
Theorem logger_keeps_first_errors config start events :
  within_a_minute start events ->
  flat_map ErrorLogger.errors_of
           (snd (ErrorLogger.run config (ErrorLogger.initial start) events))
    ++ ErrorLogger.errorQueue (fst (ErrorLogger.run config (ErrorLogger.initial start) events))
  = take (Z.to_nat (ErrorLogger.maxErrorsPerMinute config)) (captured events).
Proof.
  intros Hwin.
  pose proof (run_window config start events (ErrorLogger.initial start) Hwin eq_refl) as H.
  destruct (ErrorLogger.run config (ErrorLogger.initial start) events) as [st sent].
  destruct H as [H _]. cbn [fst snd]. rewrite H. cbn [ErrorLogger.initial
    ErrorLogger.errorQueue ErrorLogger.errorCount app]. now rewrite Z.sub_0_r.
Qed.

(** X24. With a configuration that is not changed meanwhile, whatever errors
    are captured and whenever the timer fires or a flush is asked for, an
    error that is queued has a timer pending that will flush it, and every
    payload handed to sendToApi holds at least one error, with errorCount
    the number of its errors. *)
Theorem logger_flush_is_scheduled config start events :
  (ErrorLogger.errorQueue (fst (ErrorLogger.run config (ErrorLogger.initial start) events))
   = []
   \/ ErrorLogger.batchTimer (fst (ErrorLogger.run config (ErrorLogger.initial start) events))
      = true) /\
  Forall well_formed (snd (ErrorLogger.run config (ErrorLogger.initial start) events)).
Proof. apply run_spec. now left. Qed.

Section ReportsAccepted.
Context `{Runtime} `{World}.

(** A report with at least one error is answered 200 or 500. *)
Lemma report_handler_accepts env req err errors :
  req_method req = "POST" ->
  get_prop (req_body req) "errors" = Ok (JArr (err :: errors)) ->
  exists es status body,
    run_eff (ReportError.handler env req) []
      = (cors_headers ++ es ++ [Respond status body], Ok tt) /\
    (status = 200 \/ status = 500).
Proof.
  intros Hmethod Herrors.
  unfold ReportError.handler, ReportError.respond. repeat step. simpl app.
  fold cors_headers. rewrite Hmethod. cbn [String.eqb Ascii.eqb Bool.eqb negb].
  assert (Hcatch : forall t,
            run_eff (_ ← emit (ConsoleError "Error processing report:");
                     emit (Respond 500 (JObj [("error", JStr "Internal server error")]))) t
            = (t ++ [ConsoleError "Error processing report:"]
                 ++ [Respond 500 (JObj [("error", JStr "Internal server error")])], Ok tt)).
  { intros t. repeat step. now rewrite <- app_assoc. }
  repeat step. rewrite Herrors. repeat step.
  destruct (get_prop (req_body req) "environment") as [environment|e].
  2: { rewrite Hcatch. eexists [_], _, _. split; [reflexivity | now right]. }
  cbn [truthy negb orb].
  assert (H500 : exists es status body,
    run_eff (_ ← emit (ConsoleError "Missing GitHub configuration environment variables");
             emit (Respond 500 (JObj [("error", JStr "Server configuration error")])))
            cors_headers
      = (cors_headers ++ es ++ [Respond status body], Ok tt) /\
    (status = 200 \/ status = 500)).
  { eexists [_], _, _. split; [reflexivity | now right]. }
  destruct (env !! "GITHUB_TOKEN") as [[|? ?]|]; try exact H500.
  destruct (env !! "GITHUB_OWNER") as [[|c1 owner]|]; try exact H500.
  destruct (env !! "GITHUB_REPO") as [[|c2 repo]|]; try exact H500.
  repeat step.
  destruct (ReportError.groupErrors (err :: errors)) as [grouped|e].
  2: { rewrite Hcatch. eexists [_], _, _. split; [reflexivity | now right]. }
  repeat step.
  destruct (create_issues_trace env (String c1 owner) (String c2 repo) environment grouped []
              cors_headers) as (es & r & -> & Hes & _).
  destruct r as [results|e].
  2: { rewrite Hcatch. exists (es ++ [ConsoleError "Error processing report:"]).
       eexists _, _. rewrite <- !app_assoc. split; [reflexivity | now right]. }
  repeat step.
  destruct (ReportError.map_result ReportError.issue_summary results) as [issues|e].
  2: { rewrite Hcatch. exists (es ++ [ConsoleError "Error processing report:"]).
       eexists _, _. rewrite <- !app_assoc. split; [reflexivity | now right]. }
  repeat step. exists es. eexists _, _. rewrite <- app_assoc. split; [reflexivity | now left].
Qed.

(** X25. A payload sent by the logger, posted to /api/report-error with as
    many errors as it holds, is never answered 400 'No errors provided': the
    answer is 200 or 500. *)
Theorem logger_reports_accepted config start events payload env req errors :
  payload ∈ snd (ErrorLogger.run config (ErrorLogger.initial start) events) ->
  req_method req = "POST" ->
  get_prop (req_body req) "errors" = Ok (JArr errors) ->
  length errors = length (ErrorLogger.errors_of payload) ->
  exists es status body,
    run_eff (ReportError.handler env req) []
      = (cors_headers ++ es ++ [Respond status body], Ok tt) /\
    (status = 200 \/ status = 500).
Proof.
  intros Hsent Hmethod Herrors Hlength.
  destruct (run_spec config events (ErrorLogger.initial start) (or_introl eq_refl))
    as [_ Hall].
  rewrite Forall_forall in Hall. destruct (Hall _ Hsent) as (errors' & environment & Hne & ->).
  change (ErrorLogger.errors_of _) with errors' in Hlength.
  destruct errors as [|err errors]; [destruct errors'; [congruence | discriminate]|].
  now apply (report_handler_accepts env req err errors).
Qed.

End ReportsAccepted.

(** ** Witnesses *)

Lemma report_handler_rejects_invalid_witness :
  run_eff (ReportError.handler Sample.tracker_env
             (Sample.unsigned "POST" (Sample.report_body []))) []
  = (cors_headers ++ [Respond 400 (JObj [("error", JStr "No errors provided")])], Ok tt).
Proof.
  apply (proj1 (report_handler_rejects_invalid Sample.tracker_env
                  (Sample.unsigned "POST" (Sample.report_body [])) eq_refl) (JArr []));
    [reflexivity | discriminate].
Defined.

Lemma report_handler_issue_count_witness :
  exists errors grouped issues fetches,
    get_prop (req_body Sample3.report_request) "errors" = Ok (JArr errors) /\
    ReportError.groupErrors errors = Ok grouped /\
    JObj [("success", JBool true); ("issuesCreated", JNum 2);
          ("issues", JArr [JObj [("id", JNum 7);
                                 ("url", JStr "https://github.com/o/r/issues/7")];
                           JObj [("id", JNum 7);
                                 ("url", JStr "https://github.com/o/r/issues/7")]])]
    = JObj [("success", JBool true);
            ("issuesCreated", JNum (Z.of_nat (length grouped)));
            ("issues", JArr issues)] /\
    length issues = length grouped /\
    removelast (effects (ReportError.handler Sample.tracker_env Sample3.report_request))
    = cors_headers ++ fetches /\
    Forall (fun e => is_Fetch e = true) fetches /\
    length fetches = (length grouped * requests_per_issue Sample.tracker_env)%nat.
Proof.
  apply (report_handler_issue_count Sample.tracker_env Sample3.report_request);
    [reflexivity | vm_compute; reflexivity].
Defined.

Lemma groupErrors_first_reports_witness :
  exists groups,
    ReportError.groupErrors Sample3.three_reports = Ok groups /\
    Forall2 (fun group key =>
               exists err,
                 first_report key Sample3.three_reports
                   ["TypeError:x is undefined"; "RangeError:too deep";
                    "TypeError:x is undefined"] = Some err /\
                 group = JObj (Map_set "count"
                                 (JNum (occurrences key
                                          ["TypeError:x is undefined"; "RangeError:too deep";
                                           "TypeError:x is undefined"]))
                                 (ReportError.own_properties err)))
            groups
            (first_occurrences ["TypeError:x is undefined"; "RangeError:too deep";
                                "TypeError:x is undefined"]) /\
    fold_right Z.add 0 (map (fun group => default 0 (ReportError.count_of group)) groups)
      = Z.of_nat (length Sample3.three_reports).
Proof.
  apply (groupErrors_first_reports Sample3.three_reports
           ["TypeError:x is undefined"; "RangeError:too deep"; "TypeError:x is undefined"]).
  repeat constructor.
Defined.

Lemma notify_handler_rejects_witness :
  run_eff (SlackNotify.handler Sample.notifier_env Sample.clock
             (Sample.unsigned "POST" (JObj [("data", Sample3.bug_data)]))) []
  = (cors_headers ++ [Respond 400 (JObj [("error", JStr "Missing notification type")])],
     Ok tt).
Proof.
  apply (proj1 (notify_handler_rejects Sample.notifier_env Sample.clock
                  (Sample.unsigned "POST" (JObj [("data", Sample3.bug_data)])) eq_refl)
           JUndefined); reflexivity.
Defined.

Lemma notify_handler_success_witness :
  exists type data url message,
    get_prop (req_body Sample3.notify_request) "type" = Ok type /\ truthy type = true /\
    get_prop (req_body Sample3.notify_request) "data" = Ok data /\
    SlackNotify.getWebhookUrl Sample.notifier_env type = Ok (Some url) /\
    url <> EmptyString /\
    SlackNotify.buildMessage Sample.clock type data = Ok message /\
    removelast (effects (SlackNotify.handler Sample.notifier_env Sample.clock
                           Sample3.notify_request))
    = cors_headers ++ [Fetch url message] /\
    JObj [("success", JBool true)] = JObj [("success", JBool true)].
Proof.
  apply (notify_handler_success Sample.notifier_env Sample.clock Sample3.notify_request);
    [reflexivity | vm_compute; reflexivity].
Defined.

Lemma builder_blocks_witness :
  exists blocks,
    value_or JNull (SlackNotify.builder Sample.clock SlackNotify.pr Sample3.pr_data)
    = JObj [("blocks", JArr blocks)] /\
    exists description,
      get_prop Sample3.pr_data "description" = Ok description /\
      length blocks = 4%nat /\
      (blocks !! 2%nat = Some JNull <-> truthy description = false).
Proof.
  apply (builder_blocks Sample.clock SlackNotify.pr Sample3.pr_data).
  vm_compute. reflexivity.
Defined.

Lemma feedback_handler_rejects_witness :
  run_eff (SubmitFeedback.handler Sample.tracker_env
             (Sample.unsigned "POST" (JObj [("type", JStr "bug")]))) []
  = (cors_headers
       ++ [Respond 400 (JObj [("error", JStr "Missing required fields: title, type")])],
     Ok tt).
Proof.
  apply (proj1 (proj2 (proj1 (feedback_handler_rejects Sample.tracker_env
                                (Sample.unsigned "POST" (JObj [("type", JStr "bug")]))
                                eq_refl)))
           JUndefined); reflexivity.
Defined.

Lemma feedback_handler_success_witness :
  exists owner repo request response html_url number notification,
    Sample.tracker_env !! "GITHUB_OWNER" = Some owner /\
    Sample.tracker_env !! "GITHUB_REPO" = Some repo /\
    feedback_request (req_body Sample3.feedback_request) = Ok request /\
    fetch_response cors_headers (issues_url owner repo) request = Ok response /\
    resp_ok response = true /\
    get_prop (resp_json response) "html_url" = Ok html_url /\
    get_prop (resp_json response) "number" = Ok number /\
    JObj [("success", JBool true); ("issueUrl", JStr "https://github.com/o/r/issues/7");
          ("issueNumber", JNum 7)]
    = JObj [("success", JBool true); ("issueUrl", html_url); ("issueNumber", number)] /\
    removelast (effects (SubmitFeedback.handler Sample.tracker_env Sample3.feedback_request))
    = cors_headers ++ [Fetch (issues_url owner repo) request] ++ notification /\
    if absent (Sample.tracker_env !! "SLACK_WEBHOOK_URL") then notification = []
    else exists webhookUrl payload,
           Sample.tracker_env !! "SLACK_WEBHOOK_URL" = Some webhookUrl /\
           SubmitFeedback.slack_payload (req_body Sample3.feedback_request)
             (resp_json response) = Ok payload /\
           notification = [Fetch webhookUrl payload].
Proof.
  apply (feedback_handler_success Sample.tracker_env Sample3.feedback_request);
    [reflexivity | vm_compute; reflexivity].
Defined.

Lemma feedback_request_labels_witness :
  exists type severity title title_s body,
    get_prop Sample3.feedback "type" = Ok type /\
    get_prop Sample3.feedback "severity" = Ok severity /\
    get_prop Sample3.feedback "title" = Ok title /\ to_string title = Ok title_s /\
    value_or JNull (feedback_request Sample3.feedback)
    = JObj [("title", JStr ((if is_string type "bug" then "🐛 [User Report] "
                             else "✨ [Feature Request] ") +:+ title_s));
            ("body", JStr body);
            ("labels",
             JArr (if is_string type "bug" then
                     [JStr "bug"; JStr "user-reported"]
                       ++ (if is_string severity "high" || is_string severity "critical"
                           then [JStr "priority:high"] else [])
                   else [JStr "enhancement"; JStr "user-requested"]))].
Proof.
  apply (feedback_request_labels Sample3.feedback). vm_compute. reflexivity.
Defined.

Lemma deploy_round_trip_witness :
  exists message,
    CommandHandlers.handleDeployCommand (JStr " staging ") (JStr "ada") = Ok message /\
    Map_get "confirm_deploy" (button_values message) = Some (JStr Sample3.deploy_value) /\
    fst (run_eff (ActionHandlers.handleConfirmDeploy Sample.tracker_env
                    (JStr Sample3.deploy_value) Sample3.ada) [])
    = [] ++ [Fetch (dispatches_url Sample.tracker_env)
               (JObj [("ref", JStr (if String.eqb "staging" EmptyString then "main"
                                    else "staging"));
                      ("inputs", JObj [("deployer", or_else (JStr "ada") JUndefined)])])].
Proof.
  apply (deploy_round_trip Sample.tracker_env (JStr " staging ") "ada" Sample3.ada
           (JStr "ada") JUndefined "staging" Sample3.deploy_value []);
    vm_compute; reflexivity.
Defined.

Lemma notify_buttons_reach_issue_witness :
  exists value,
    Map_get "trigger_ai_analysis"
      (button_values (value_or JNull (SlackNotify.buildBugMessage Sample3.bug_data)))
    = Some value /\
    fst (run_eff (ActionHandlers.handleTriggerAIAnalysis Sample.tracker_env value) [])
    = [] ++ [Fetch (ActionHandlers.labels_url Sample.tracker_env (Z_to_string 7))
               (JObj [("labels", JArr [JStr "ai-analyze"])])].
Proof.
  apply (proj1 (notify_buttons_reach_issue Sample.tracker_env Sample3.bug_data 7
                  Sample3.issue_value []
                  ltac:(reflexivity) ltac:(vm_compute; reflexivity)
                  ltac:(vm_compute; reflexivity) ltac:(vm_compute; reflexivity))).
  vm_compute. reflexivity.
Defined.

Lemma command_buttons_reach_issue_witness :
  exists url body response,
    fst (run_eff (CommandHandlers.handleBugCommand Sample.tracker_env Sample.clock
                    (JStr "the player stops") (JStr "ada")) [])
    = [] ++ [Fetch url body] /\
    fetch_response [] url body = Ok response /\
    forall n, get_prop (resp_json response) "number" = Ok (JNum n) ->
      Map_get "trigger_ai_analysis"
        (button_values
           (value_or JNull
              (snd (run_eff (CommandHandlers.handleBugCommand Sample.tracker_env Sample.clock
                               (JStr "the player stops") (JStr "ada")) []))))
      = Some (JStr (Z_to_string n)) /\
      forall t2,
        fst (run_eff (ActionHandlers.handleTriggerAIAnalysis Sample.tracker_env
                        (JStr (Z_to_string n))) t2)
        = t2 ++ [Fetch (ActionHandlers.labels_url Sample.tracker_env (Z_to_string n))
                   (JObj [("labels", JArr [JStr "ai-analyze"])])].
Proof.
  apply (proj1 (command_buttons_reach_issue Sample.tracker_env Sample.clock
                  (JStr "the player stops") (JStr "ada") [] _ _ eq_refl)).
  vm_compute. reflexivity.
Defined.

Lemma chat_handler_gate_witness :
  exists es,
    run_eff (ClaudeChat.handler Sample3.post_back ∅ Sample.now Sample3.mention) []
    = ([] ++ Respond 200 JUndefined :: es, Ok tt) /\
    (addressed (prop (req_body Sample3.mention) "event") = false -> es = []).
Proof.
  apply (proj2 (proj2 (chat_handler_gate Sample3.post_back ∅ Sample.now Sample3.mention
                         (JStr "event_callback") []
                         ltac:(intros; eexists; reflexivity) eq_refl eq_refl)));
    [reflexivity | left; reflexivity].
Defined.

Lemma logger_keeps_first_errors_witness :
  flat_map ErrorLogger.errors_of
           (snd (ErrorLogger.run ErrorLogger.CONFIG (ErrorLogger.initial 1712000000000)
                   Sample3.burst))
    ++ ErrorLogger.errorQueue
         (fst (ErrorLogger.run ErrorLogger.CONFIG (ErrorLogger.initial 1712000000000)
                 Sample3.burst))
  = take (Z.to_nat (ErrorLogger.maxErrorsPerMinute ErrorLogger.CONFIG))
         (captured Sample3.burst).
Proof.
  apply (logger_keeps_first_errors ErrorLogger.CONFIG 1712000000000 Sample3.burst).
  unfold within_a_minute, Sample3.burst. simpl.
  repeat (constructor; [first [exact I | vm_compute; discriminate]|]). constructor.
Defined.

Lemma logger_reports_accepted_witness :
  exists es status body,
    run_eff (ReportError.handler Sample.tracker_env Sample3.report_request) []
      = (cors_headers ++ es ++ [Respond status body], Ok tt) /\
    (status = 200 \/ status = 500).
Proof.
  apply (logger_reports_accepted ErrorLogger.CONFIG 1712000000000 Sample3.leaving
           (JObj [("errors", JArr Sample3.three_reports); ("environment", Sample3.page);
                  ("errorCount", JNum 3)])
           Sample.tracker_env Sample3.report_request Sample3.three_reports);
    [vm_compute; constructor | reflexivity | reflexivity | reflexivity].
Defined.

Lemma clean_text_removes_mention_witness :
  ClaudeChat.clean_text (JStr ("Hi " +:+ "<@" +:+ "U024BE7LH" +:+ ">" +:+ " are you there? "))
  = Ok (trim ("Hi " +:+ ClaudeChat.strip_mentions " are you there? ")).
Proof.
  apply (clean_text_removes_mention "Hi " "U024BE7LH" " are you there? ");
    [reflexivity | discriminate | reflexivity].
Defined.
